(** * Toyota [CarState]: the per-tick vehicle-state decoder

    A shallow embedding of [selfdrive/car/toyota/carstate.py].  The class
    [CarState] keeps calibration and debounce state between control ticks;
    [CarState.update] reads two decoded CAN frames, mutates that state and
    returns one [car.CarState] message.

    Conventions of the embedding.
    - Python numbers are idealised as exact rationals ([Qc]); rounding of
      the binary floating point arithmetic is not modelled.  Python [int]
      counters and bit flags are [Z].
    - [cp.vl] is a dictionary of dictionaries; a subscript on a missing key
      raises [KeyError], [dict.get] does not.
    - A Python exception is a value [Raise e] of the [result] monad; the
      statements of one tick are sequenced with its bind.  An exception
      leaves [update] without a message: the tick, and the session with it,
      is over.
    - The calls into the [fpf] object are recorded, in order, as the list
      of calls the tick made. *)

From Stdlib Require Import QArith Qcanon Qround Qcabs ZArith Lia.
From stdpp Require Import base decidable option numbers strings list gmap.

#[local] Open Scope Qc_scope.

(** ** Numbers *)

Module Num.

(** The integer literal [z] as a number. *)
Definition num (z : Z) : Qc := Qc_of_Z z.

(** The decimal literal [n / d]. *)
Definition frac (n : Z) (d : positive) : Qc := Q2Qc (n # d).

(** [bool(x)] of a number. *)
Definition truthy (x : Qc) : bool := bool_decide (x <> 0).

(** [int(x)]: truncation towards zero. *)
Definition py_int (x : Qc) : Z := (Qnum x ÷ Zpos (Qden x))%Z.

(** [x // y] on numbers. *)
Definition floordiv (x y : Qc) : Qc := Qc_of_Z (Qfloor (x / y)).

(** [bits & flag], read as a condition. *)
Definition has_flag (bits flag : Z) : bool := negb (Z.land bits flag =? 0)%Z.

(** [x % y] on numbers: the remainder takes the sign of the divisor. *)
Definition py_mod (x y : Qc) : Qc := x - y * floordiv x y.

(** [x in t] for a tuple of integer literals. *)
Definition in_tuple (x : Qc) (t : list Z) : bool :=
  existsb (fun z => bool_decide (x = num z)) t.

End Num.
Import Num.

(** ** Exceptions *)

Inductive exn : Type :=
| KeyError (key : string)
| UnboundLocalError (name : string)
| TypeError.

Inductive result (A : Type) : Type :=
| Ok (a : A)
| Raise (e : exn).
Arguments Ok {A} a.
Arguments Raise {A} e.

#[global] Instance result_ret : MRet result := fun _ a => Ok a.
#[global] Instance result_bind : MBind result := fun _ _ f m =>
  match m with
  | Ok a => f a
  | Raise e => Raise e
  end.

Definition is_Ok {A} (r : result A) : bool :=
  match r with Ok _ => true | Raise _ => false end.

(** ** Decoded CAN frames *)

Record CANParser : Type := {
  (** message name, then signal name *)
  vl : gmap string (gmap string Qc);
  can_valid : bool;
}.

(** [p.vl[m]] *)
Definition vl_msg (p : CANParser) (m : string) : result (gmap string Qc) :=
  match vl p !! m with
  | Some d => Ok d
  | None => Raise (KeyError m)
  end.

(** [p.vl[m][sg]] *)
Definition vl_sig (p : CANParser) (m sg : string) : result Qc :=
  d ← vl_msg p m;
  match d !! sg with
  | Some v => Ok v
  | None => Raise (KeyError sg)
  end.

(** ** Modules the class imports

    Only their use is in the source file; what they provide is taken as
    given. *)

(** [car.CarParams], as far as [update] reads it. *)
Module SteerControlType.
Inductive t : Type := torque | angle.
#[global] Instance eq_dec : EqDecision t.
Proof. solve_decision. Defined.
End SteerControlType.

Record CarParams : Type := {
  carFingerprint : string;
  flags : Z;
  enableGasInterceptor : bool;
  enableDsu : bool;
  enableBsm : bool;
  openpilotLongitudinalControl : bool;
  steerControlType : SteerControlType.t;
}.

Module WheelSpeeds.
Record t : Type := { fl : Qc; fr : Qc; rl : Qc; rr : Qc }.
End WheelSpeeds.

Module GearShifter.
Inductive t : Type :=
| unknown | park | drive | neutral | reverse | sport | low | brake | eco
| manumatic.
End GearShifter.

(** [toyota/values.py], [drive_helpers.py], [realtime.py], the DBC, and the
    methods inherited from [CarStateBase]. *)
Class Imports : Type := {
  TSS2_CAR : gset string;
  RADAR_ACC_CAR : gset string;
  UNSUPPORTED_DSU_CAR : gset string;
  NO_STOP_TIMER_CAR : gset string;
  CAR_LEXUS_ES_TSS2 : string;
  CAR_MIRAI : string;
  CAR_PRIUS_V : string;
  ToyotaFlags_SMART_DSU : Z;
  ToyotaFlags_DISABLE_RADAR : Z;
  ToyotaFlags_ZSS : Z;
  ToyotaFlags_RADAR_CAN_FILTER : Z;
  STEER_THRESHOLD : Qc;
  EPS_SCALE : string -> Qc;
  (** [CANDefine(DBC[fp]["pt"]).dv["GEAR_PACKET"]["GEAR"]] *)
  GEAR_values : string -> gmap Z string;
  CRUISE_LONG_PRESS : Z;
  DT_CTRL : Qc;
  get_wheel_speeds : CarParams -> Qc -> Qc -> Qc -> Qc -> WheelSpeeds.t;
  (** the state of the speed filter is its pair (speed, acceleration) *)
  update_speed_kf : Qc * Qc -> Qc -> (Qc * Qc) * (Qc * Qc);
  parse_gear_shifter : option string -> GearShifter.t;
}.

(** Modelled from the spec: [openpilot.common.conversions] is not among the
    sources; the spec fixes the two factors by "100 km/h in m/s" and
    "55 mph in m/s". *)
Module CV.
Definition MPH_TO_KPH : Qc := frac 1609344 1000000.
Definition MS_TO_KPH : Qc := frac 36 10.
Definition KPH_TO_MS : Qc := 1 / MS_TO_KPH.
Definition MPH_TO_MS : Qc := MPH_TO_KPH * KPH_TO_MS.
End CV.

(** Modelled from the spec: [openpilot.common.numpy_fast.mean] is not among
    the sources; the spec calls the fused speed the "arithmetic mean of the
    four". *)
Definition mean (l : list Qc) : Qc :=
  foldl Qcplus 0 l / Qc_of_Z (Z.of_nat (length l)).

(** Modelled from the spec: [openpilot.common.filter_simple] is not among
    the sources.  The spec describes a slow adaptive filter with a value and
    an initialization flag, time constant [rc], updated at the control
    period [dt]; the first sample initializes it. *)
Module FirstOrderFilter.
Record t : Type := {
  x : option Qc;
  alpha : Qc;
  initialized : bool;
}.

Definition new (x0 : option Qc) (rc dt : Qc) (init : bool) : t :=
  {| x := x0; alpha := dt / (rc + dt); initialized := init |}.

Definition update (f : t) (v : Qc) : result t :=
  if initialized f then
    match x f with
    | Some x0 =>
        Ok {| x := Some ((1 - alpha f) * x0 + alpha f * v);
              alpha := alpha f; initialized := true |}
    | None => Raise TypeError
    end
  else Ok {| x := Some v; alpha := alpha f; initialized := true |}.
End FirstOrderFilter.

(** ** The message [car.CarState]

    [car.CarState.new_message()] starts every field at its default, zero or
    false; [update] assigns the fields below. *)

Module CruiseState.
Record t : Type := {
  available : bool;
  speed : Qc;
  speedCluster : Qc;
  standstill : bool;
  enabled : bool;
  nonAdaptive : bool;
}.
End CruiseState.

Module car.
Record CarState : Type := {
  doorOpen : bool;
  seatbeltUnlatched : bool;
  parkingBrake : bool;
  brakePressed : bool;
  brakeHoldActive : bool;
  gas : Qc;
  gasPressed : bool;
  wheelSpeeds : WheelSpeeds.t;
  vEgoRaw : Qc;
  vEgo : Qc;
  aEgo : Qc;
  vEgoCluster : Qc;
  standstill : bool;
  steeringAngleDeg : Qc;
  steeringRateDeg : Qc;
  steeringAngleOffsetDeg : Qc;
  gearShifter : GearShifter.t;
  leftBlinker : bool;
  rightBlinker : bool;
  engineRpm : Qc;
  steeringTorque : Qc;
  steeringTorqueEps : Qc;
  steeringPressed : bool;
  steerFaultTemporary : bool;
  steerFaultPermanent : bool;
  cruiseState : CruiseState.t;
  accFaulted : bool;
  stockFcw : bool;
  genericToggle : bool;
  espDisabled : bool;
  stockAeb : bool;
  leftBlindspot : bool;
  rightBlindspot : bool;
}.
End car.

(** ** What the tick is given besides the two frames *)

(** [frogpilot_variables], the toggles read by [update]. *)
Record FrogPilotVariables : Type := {
  experimental_mode_via_lkas : bool;
  conditional_experimental_mode : bool;
  experimental_mode_via_distance : bool;
  traffic_mode : bool;
  personalities_via_wheel : bool;
  force_mph_dashboard : bool;
}.

(** The attributes of [self.fpf] that [update] reads. *)
Record FrogPilotFunctions : Type := {
  personality_changed_via_ui : bool;
  current_personality : Qc;
}.

(** The methods of [self.fpf] that [update] calls. *)
Inductive fpf_call : Type :=
| update_cestatus_lkas
| update_experimental_mode
| distance_button_function (profile : Qc)
| update_cestatus_distance
| update_traffic_mode
| reset_personality_changed_param.

#[global] Instance fpf_call_eq_dec : EqDecision fpf_call.
Proof. solve_decision. Defined.

(** ** The attributes of the class [CarState] *)

Record CarState : Type := {
  (* set by CarStateBase *)
  v_ego_kf : Qc * Qc;
  lkas_previously_pressed : bool;
  distance_pressed_counter : Z;
  (** holds the last reading of the button, [False] being 0 *)
  distance_previously_pressed : Qc;
  personality_profile : Qc;
  previous_personality_profile : Qc;
  distance_button : bool;
  (* set by __init__ *)
  shifter_values : gmap Z string;
  eps_torque_scale : Qc;
  cluster_speed_hyst_gap : Qc;
  cluster_min_speed : Qc;
  accurate_steer_angle_seen : bool;
  angle_offset : FirstOrderFilter.t;
  low_speed_lockout : bool;
  acc_type : Qc;
  lkas_hud : gmap string Qc;
  profile_restored : bool;
  zss_compute : bool;
  zss_cruise_active_last : bool;
  zss_angle_offset : Qc;
  zss_threshold_count : Z;
  (** a stored [None] is a key with value [None] *)
  traffic_signals : gmap string (option Qc);
  (* first set by update *)
  pcm_acc_status : option Qc;
  pcm_neutral_force : option Qc;
  stock_resume_ready : option bool;
}.

Definition TEMP_STEER_FAULTS : list Z := [0; 9; 11; 21; 25]%Z.
Definition PERM_STEER_FAULTS : list Z := [3; 17]%Z.

Definition ZSS_THRESHOLD : Qc := num 4.
Definition ZSS_THRESHOLD_COUNT : Z := 10.

(** The literal [1e-3]. *)
Definition eps_1e_3 : Qc := frac 1 1000.

(** The attributes and the message as line 189 leaves them. *)
Module Stock.
Record t : Type := {
  kf : Qc * Qc;
  seen : bool;
  filt : FirstOrderFilter.t;
  acc : Qc;
  lockout : bool;
  status : Qc;
  neutral_force : Qc;
  hud : gmap string Qc;
  resume : option bool;
  msg : car.CarState;
}.
End Stock.

Section Toyota.
Context `{Imports}.

(** ** [CarState.__init__]

    [self] is the object as [super().__init__(CP)] leaves it; the
    constructor then sets its own attributes. *)
Definition __init__ (self : CarState) (CP : CarParams) : CarState :=
  {| v_ego_kf := v_ego_kf self;
     lkas_previously_pressed := lkas_previously_pressed self;
     distance_pressed_counter := distance_pressed_counter self;
     distance_previously_pressed := distance_previously_pressed self;
     personality_profile := personality_profile self;
     previous_personality_profile := previous_personality_profile self;
     distance_button := distance_button self;
     shifter_values := GEAR_values (carFingerprint CP);
     eps_torque_scale := EPS_SCALE (carFingerprint CP) / num 100;
     cluster_speed_hyst_gap := CV.KPH_TO_MS / num 2;
     cluster_min_speed := CV.KPH_TO_MS / num 2;
     accurate_steer_angle_seen := false;
     angle_offset := FirstOrderFilter.new None (num 60) DT_CTRL false;
     low_speed_lockout := false;
     acc_type := num 1;
     lkas_hud := ∅;
     profile_restored := false;
     zss_compute := false;
     zss_cruise_active_last := false;
     zss_angle_offset := num 0;
     zss_threshold_count := 0;
     traffic_signals := ∅;
     pcm_acc_status := pcm_acc_status self;
     pcm_neutral_force := pcm_neutral_force self;
     stock_resume_ready := stock_resume_ready self |}.

(** ** [CarState.update], block by block *)

(** [CP.carFingerprint in (TSS2_CAR - RADAR_ACC_CAR)] *)
Definition camera_acc (CP : CarParams) : bool :=
  bool_decide (carFingerprint CP ∈ TSS2_CAR ∖ RADAR_ACC_CAR).

(** Lines 65-77: doors, belt, brakes and the gas pedal.  The result is
    (doorOpen, seatbeltUnlatched, parkingBrake, brakePressed,
    brakeHoldActive, gas, gasPressed). *)
Definition update_body (CP : CarParams) (cp : CANParser)
  : result (bool * bool * bool * bool * bool * Qc * bool) :=
  d_fl ← vl_sig cp "BODY_CONTROL_STATE" "DOOR_OPEN_FL";
  d_fr ← vl_sig cp "BODY_CONTROL_STATE" "DOOR_OPEN_FR";
  d_rl ← vl_sig cp "BODY_CONTROL_STATE" "DOOR_OPEN_RL";
  d_rr ← vl_sig cp "BODY_CONTROL_STATE" "DOOR_OPEN_RR";
  belt ← vl_sig cp "BODY_CONTROL_STATE" "SEATBELT_DRIVER_UNLATCHED";
  pbrake ← vl_sig cp "BODY_CONTROL_STATE" "PARKING_BRAKE";
  bpress ← vl_sig cp "BRAKE_MODULE" "BRAKE_PRESSED";
  bhold ← vl_sig cp "ESP_CONTROL" "BRAKE_HOLD_ACTIVE";
  '(gas, gasPressed) ←
    (if enableGasInterceptor CP then
       g1 ← vl_sig cp "GAS_SENSOR" "INTERCEPTOR_GAS";
       g2 ← vl_sig cp "GAS_SENSOR" "INTERCEPTOR_GAS2";
       let gas := floordiv (g1 + g2) (num 2) in
       Ok (gas, bool_decide (num 805 < gas))
     else
       released ← vl_sig cp "PCM_CRUISE" "GAS_RELEASED";
       Ok (num 0, bool_decide (released = num 0)));
  Ok (existsb truthy [d_fl; d_fr; d_rl; d_rr],
      bool_decide (belt <> num 0),
      bool_decide (pbrake = num 1),
      bool_decide (bpress <> num 0),
      bool_decide (bhold = num 1),
      gas, gasPressed).

(** Lines 79-92: the four wheel speeds, their mean, the filtered speed and
    the standstill flag.  The result is the new filter state and
    (wheelSpeeds, vEgoRaw, vEgo, aEgo, vEgoCluster, standstill). *)
Definition update_kinematics (CP : CarParams) (self : CarState)
    (cp : CANParser)
  : result ((Qc * Qc) * (WheelSpeeds.t * Qc * Qc * Qc * Qc * bool)) :=
  w_fl ← vl_sig cp "WHEEL_SPEEDS" "WHEEL_SPEED_FL";
  w_fr ← vl_sig cp "WHEEL_SPEEDS" "WHEEL_SPEED_FR";
  w_rl ← vl_sig cp "WHEEL_SPEEDS" "WHEEL_SPEED_RL";
  w_rr ← vl_sig cp "WHEEL_SPEEDS" "WHEEL_SPEED_RR";
  let ws := get_wheel_speeds CP w_fl w_fr w_rl w_rr in
  let vEgoRaw :=
    mean [WheelSpeeds.fl ws; WheelSpeeds.fr ws;
          WheelSpeeds.rl ws; WheelSpeeds.rr ws] in
  let '(kf, (vEgo, aEgo)) := update_speed_kf (v_ego_kf self) vEgoRaw in
  let vEgoCluster :=
    if bool_decide (carFingerprint CP = CAR_LEXUS_ES_TSS2)
    then vEgo * frac 1023456789 1000000000
    else vEgo * frac 1015 1000 in
  Ok (kf, (ws, vEgoRaw, vEgo, aEgo, vEgoCluster,
           bool_decide (Qcabs vEgoRaw < eps_1e_3))).

(** Lines 94-109: the steering angle and its offset filter.  The result is
    the new [accurate_steer_angle_seen] and [angle_offset], and
    (steeringAngleDeg, steeringRateDeg, steeringAngleOffsetDeg). *)
Definition update_steering_angle (self : CarState) (cp : CANParser)
  : result (bool * FirstOrderFilter.t * (Qc * Qc * Qc)) :=
  steer_angle ← vl_sig cp "STEER_ANGLE_SENSOR" "STEER_ANGLE";
  steer_fraction ← vl_sig cp "STEER_ANGLE_SENSOR" "STEER_FRACTION";
  let steeringAngleDeg := steer_angle + steer_fraction in
  steeringRateDeg ← vl_sig cp "STEER_ANGLE_SENSOR" "STEER_RATE";
  torque_sensor_angle_deg ← vl_sig cp "STEER_TORQUE_SENSOR" "STEER_ANGLE";
  seen ←
    (if bool_decide (eps_1e_3 < Qcabs torque_sensor_angle_deg) then
       initializing ←
         vl_sig cp "STEER_TORQUE_SENSOR" "STEER_ANGLE_INITIALIZING";
       Ok (if negb (truthy initializing) then true
           else accurate_steer_angle_seen self)
     else Ok (accurate_steer_angle_seen self));
  if seen : bool then
    filt ←
      (if bool_decide (Qcabs steeringAngleDeg < num 90)
          && bool_decide (Qcabs steeringRateDeg < num 100)
          && can_valid cp
       then FirstOrderFilter.update (angle_offset self)
              (torque_sensor_angle_deg - steeringAngleDeg)
       else Ok (angle_offset self));
    if FirstOrderFilter.initialized filt then
      match FirstOrderFilter.x filt with
      | Some off =>
          Ok (seen, filt,
              (torque_sensor_angle_deg - off, steeringRateDeg, off))
      | None => Raise TypeError
      end
    else Ok (seen, filt, (steeringAngleDeg, steeringRateDeg, num 0))
  else Ok (seen, angle_offset self,
           (steeringAngleDeg, steeringRateDeg, num 0)).

(** Lines 111-130: gear, blinkers, engine speed, steering torque and the
    EPS fault flags.  The result is (gearShifter, leftBlinker,
    rightBlinker, engineRpm, steeringTorque, steeringTorqueEps,
    steeringPressed, steerFaultTemporary, steerFaultPermanent). *)
Definition update_gear_torque_faults (CP : CarParams) (self : CarState)
    (cp : CANParser)
  : result (GearShifter.t * bool * bool * Qc * Qc * Qc * bool * bool * bool) :=
  gear ← vl_sig cp "GEAR_PACKET" "GEAR";
  let can_gear := py_int gear in
  let gearShifter := parse_gear_shifter (shifter_values self !! can_gear) in
  turn_l ← vl_sig cp "BLINKERS_STATE" "TURN_SIGNALS";
  turn_r ← vl_sig cp "BLINKERS_STATE" "TURN_SIGNALS";
  engineRpm ←
    (if bool_decide (carFingerprint CP <> CAR_MIRAI)
     then vl_sig cp "ENGINE_RPM" "RPM" else Ok (num 0));
  steeringTorque ← vl_sig cp "STEER_TORQUE_SENSOR" "STEER_TORQUE_DRIVER";
  torque_eps ← vl_sig cp "STEER_TORQUE_SENSOR" "STEER_TORQUE_EPS";
  let steeringPressed := bool_decide (STEER_THRESHOLD < Qcabs steeringTorque) in
  lka_t ← vl_sig cp "EPS_STATUS" "LKA_STATE";
  lka_p ← vl_sig cp "EPS_STATUS" "LKA_STATE";
  let temp := in_tuple lka_t TEMP_STEER_FAULTS in
  let perm := in_tuple lka_p PERM_STEER_FAULTS in
  '(temp, perm) ←
    (if bool_decide (steerControlType CP = SteerControlType.angle) then
       temp' ← (if temp then Ok true else
                  lta ← vl_sig cp "EPS_STATUS" "LTA_STATE";
                  Ok (in_tuple lta TEMP_STEER_FAULTS));
       perm' ← (if perm then Ok true else
                  lta ← vl_sig cp "EPS_STATUS" "LTA_STATE";
                  Ok (in_tuple lta PERM_STEER_FAULTS));
       Ok (temp', perm')
     else Ok (temp, perm));
  Ok (gearShifter, bool_decide (turn_l = num 1), bool_decide (turn_r = num 2),
      engineRpm, steeringTorque, torque_eps * eps_torque_scale self,
      steeringPressed, temp, perm).

(** Lines 132-147: cruise availability and set speed, from the signal
    group of the variant.  The result is (accFaulted, available, speed,
    speedCluster). *)
Definition update_cruise (CP : CarParams) (cp : CANParser)
  : result (bool * bool * Qc * Qc) :=
  '(accFaulted, available, speed, cluster_set_speed) ←
    (if bool_decide (carFingerprint CP ∈ UNSUPPORTED_DSU_CAR) then
       main_on ← vl_sig cp "DSU_CRUISE" "MAIN_ON";
       set_speed ← vl_sig cp "DSU_CRUISE" "SET_SPEED";
       ui ← vl_sig cp "PCM_CRUISE_ALT" "UI_SET_SPEED";
       Ok (false, bool_decide (main_on <> num 0),
           set_speed * CV.KPH_TO_MS, ui)
     else
       faulted ← vl_sig cp "PCM_CRUISE_2" "ACC_FAULTED";
       main_on ← vl_sig cp "PCM_CRUISE_2" "MAIN_ON";
       set_speed ← vl_sig cp "PCM_CRUISE_2" "SET_SPEED";
       ui ← vl_sig cp "PCM_CRUISE_SM" "UI_SET_SPEED";
       Ok (bool_decide (faulted <> num 0), bool_decide (main_on <> num 0),
           set_speed * CV.KPH_TO_MS, ui));
  speedCluster ←
    (if bool_decide (speed <> num 0) then
       units ← vl_sig cp "BODY_CONTROL_STATE_2" "UNITS";
       let is_metric := in_tuple units [1; 2]%Z in
       let conversion_factor :=
         if is_metric then CV.KPH_TO_MS else CV.MPH_TO_MS in
       Ok (cluster_set_speed * conversion_factor)
     else Ok (num 0));
  Ok (accFaulted, available, speed, speedCluster).

(** Line 149: the frame that carries the ACC messages. *)
Definition cp_acc_of (CP : CarParams) (cp cp_cam : CANParser) : CANParser :=
  if camera_acc CP then cp_cam else cp.

(** Lines 151-154: the ACC type and the stock forward-collision warning.
    The result is the new [acc_type] and stockFcw. *)
Definition update_acc_type (CP : CarParams) (self : CarState)
    (cp_acc : CANParser) : result (Qc * bool) :=
  if bool_decide (carFingerprint CP ∈ TSS2_CAR)
     && negb (has_flag (flags CP) ToyotaFlags_DISABLE_RADAR)
  then
    acc ← (if negb (has_flag (flags CP) ToyotaFlags_SMART_DSU)
           then vl_sig cp_acc "ACC_CONTROL" "ACC_TYPE"
           else Ok (acc_type self));
    fcw ← vl_sig cp_acc "PCS_HUD" "FCW";
    Ok (acc, truthy fcw)
  else Ok (acc_type self, false).

(** The condition of lines 160-161, on the ACC type current at that
    point. *)
Definition lockout_conclusive (CP : CarParams) (acc : Qc) : bool :=
  (bool_decide (carFingerprint CP ∉ TSS2_CAR)
   && bool_decide (carFingerprint CP ∉ UNSUPPORTED_DSU_CAR))
  || (bool_decide (carFingerprint CP ∈ TSS2_CAR)
      && bool_decide (acc = num 1)).

(** Lines 160-162: the new [low_speed_lockout]. *)
Definition update_low_speed_lockout (CP : CarParams) (self : CarState)
    (acc : Qc) (cp : CANParser) : result bool :=
  if lockout_conclusive CP acc then
    lockout ← vl_sig cp "PCM_CRUISE_2" "LOW_SPEED_LOCKOUT";
    Ok (bool_decide (lockout = num 2))
  else Ok (low_speed_lockout self).

(** Lines 164-173: the PCM cruise state.  The result is the new
    [pcm_acc_status] and [pcm_neutral_force], and (cruiseState.standstill,
    cruiseState.enabled, cruiseState.nonAdaptive, genericToggle,
    espDisabled). *)
Definition update_pcm_cruise (CP : CarParams) (cp : CANParser)
  : result (Qc * Qc * (bool * bool * bool * bool * bool)) :=
  status ← vl_sig cp "PCM_CRUISE" "CRUISE_STATE";
  let standstill :=
    if bool_decide (carFingerprint CP ∉ NO_STOP_TIMER_CAR ∖ TSS2_CAR)
    then bool_decide (status = num 7) else false in
  active ← vl_sig cp "PCM_CRUISE" "CRUISE_ACTIVE";
  state ← vl_sig cp "PCM_CRUISE" "CRUISE_STATE";
  neutral ← vl_sig cp "PCM_CRUISE" "NEUTRAL_FORCE";
  beam ← vl_sig cp "LIGHT_STALK" "AUTO_HIGH_BEAM";
  tc ← vl_sig cp "ESP_CONTROL" "TC_DISABLED";
  Ok (status, neutral,
      (standstill, truthy active, in_tuple state [1; 2; 3; 4; 5; 6]%Z,
       truthy beam, bool_decide (tc <> num 0))).

(** Lines 175-180: stock AEB and the blind-spot monitor.  The result is
    (stockAeb, leftBlindspot, rightBlindspot). *)
Definition update_aeb_bsm (CP : CarParams) (cp cp_acc : CANParser)
  : result (bool * bool * bool) :=
  stockAeb ←
    (if negb (enableDsu CP)
        && negb (has_flag (flags CP) ToyotaFlags_DISABLE_RADAR)
     then
       active ← vl_sig cp_acc "PRE_COLLISION" "PRECOLLISION_ACTIVE";
       if truthy active then
         force ← vl_sig cp_acc "PRE_COLLISION" "FORCE";
         Ok (bool_decide (force < - frac 1 100000))
       else Ok false
     else Ok false);
  '(blind_l, blind_r) ←
    (if enableBsm CP then
       l_adj ← vl_sig cp "BSM" "L_ADJACENT";
       blind_l ← (if bool_decide (l_adj = num 1) then Ok true else
                    l_app ← vl_sig cp "BSM" "L_APPROACHING";
                    Ok (bool_decide (l_app = num 1)));
       r_adj ← vl_sig cp "BSM" "R_ADJACENT";
       blind_r ← (if bool_decide (r_adj = num 1) then Ok true else
                    r_app ← vl_sig cp "BSM" "R_APPROACHING";
                    Ok (bool_decide (r_app = num 1)));
       Ok (blind_l, blind_r)
     else Ok (false, false));
  Ok (stockAeb, blind_l, blind_r).

(** Lines 182-189: the copy of the LKAS HUD message and the resume flag.
    The result is the new [lkas_hud] and [stock_resume_ready]. *)
Definition update_hud_resume (CP : CarParams) (self : CarState)
    (cp cp_cam : CANParser) : result (gmap string Qc * option bool) :=
  hud ← (if bool_decide (carFingerprint CP <> CAR_PRIUS_V)
         then vl_msg cp_cam "LKAS_HUD" else Ok (lkas_hud self));
  resume ←
    (if negb (openpilotLongitudinalControl CP) then
       release ← vl_sig cp "ACC_CONTROL" "RELEASE_STANDSTILL";
       Ok (Some (bool_decide (release = num 1)))
     else Ok (stock_resume_ready self));
  Ok (hud, resume).

(** *** FrogPilot functions *)

(** The guard of line 192. *)
Definition distance_wired (CP : CarParams) : bool :=
  camera_acc CP
  || (has_flag (flags CP) ToyotaFlags_SMART_DSU
      && negb (has_flag (flags CP) ToyotaFlags_RADAR_CAN_FILTER)).

(** Lines 192-197: the local variable [distance_pressed]; [None] when no
    branch has assigned it. *)
Definition read_distance_pressed (CP : CarParams) (cp cp_acc : CANParser)
  : result (option Qc) :=
  if distance_wired CP then
    if camera_acc CP
    then d ← vl_sig cp_acc "ACC_CONTROL" "DISTANCE"; Ok (Some d)
    else d ← vl_sig cp "SDSU" "FD_BUTTON"; Ok (Some d)
  else Ok None.

(** The toggle of Experimental Mode asked for by a button. *)
Definition toggle_call (fv : FrogPilotVariables) (conditional : fpf_call)
  : fpf_call :=
  if conditional_experimental_mode fv then conditional
  else update_experimental_mode.

(** Lines 200-210: the LKAS button.  The result is the new
    [lkas_previously_pressed] and the calls made. *)
Definition lkas_button (CP : CarParams) (self : CarState)
    (hud : gmap string Qc) (fv : FrogPilotVariables) (available : bool)
  : bool * list fpf_call :=
  if experimental_mode_via_lkas fv && available
     && bool_decide (carFingerprint CP <> CAR_PRIUS_V)
  then
    let message_keys := ["LDA_ON_MESSAGE"; "SET_ME_X02"]%string in
    let lkas_pressed :=
      existsb (fun key => bool_decide (hud !! key = Some (num 1)))
        message_keys in
    (lkas_pressed,
     if lkas_pressed && negb (lkas_previously_pressed self)
     then [toggle_call fv update_cestatus_lkas]%list else [])
  else (lkas_previously_pressed self, []).

(** The attributes the distance button block works on. *)
Record DistanceButton : Type := {
  db_counter : Z;
  db_previously_pressed : Qc;
  db_previous_personality_profile : Qc;
  db_profile_restored : bool;
}.

(** Lines 213-241: the distance button.  Reading [distance_pressed] when
    it was never assigned raises [UnboundLocalError]. *)
Definition distance_button_functions (self : CarState)
    (fv : FrogPilotVariables) (available : bool)
    (distance_pressed : option Qc)
  : result (DistanceButton * list fpf_call) :=
  let st0 :=
    {| db_counter := distance_pressed_counter self;
       db_previously_pressed := distance_previously_pressed self;
       db_previous_personality_profile := previous_personality_profile self;
       db_profile_restored := profile_restored self |} in
  let restored := profile_restored self in
  if available then
    match distance_pressed with
    | None => Raise (UnboundLocalError "distance_pressed")
    | Some pressed =>
        let '(counter, previous, restored', calls1) :=
          if truthy pressed then
            ((distance_pressed_counter self + 1)%Z,
             previous_personality_profile self, restored, [])
          else if truthy (distance_previously_pressed self) then
            if (distance_pressed_counter self <? CRUISE_LONG_PRESS)%Z then
              let profile :=
                py_mod (personality_profile self + num 2) (num 3) in
              (0%Z, profile, false, [distance_button_function profile]%list)
            else (0%Z, previous_personality_profile self, restored, [])
          else (distance_pressed_counter self,
                previous_personality_profile self, restored, []) in
        let calls2 :=
          if (counter =? CRUISE_LONG_PRESS)%Z
             && experimental_mode_via_distance fv
          then [toggle_call fv update_cestatus_distance]%list else [] in
        let calls3 :=
          if (counter =? CRUISE_LONG_PRESS * 5)%Z && traffic_mode fv
          then [update_traffic_mode;
                toggle_call fv update_cestatus_distance]
          else [] in
        Ok ({| db_counter := counter;
               db_previously_pressed := pressed;
               db_previous_personality_profile := previous;
               db_profile_restored := restored' |},
            calls1 ++ calls2 ++ calls3)
    end
  else Ok (st0, []).

(** Lines 244-258: the personality shown on the dash.  The result is the
    new [personality_profile], [previous_personality_profile],
    [profile_restored] and [distance_button], and the calls made. *)
Definition sync_personality (self : CarState) (db : DistanceButton)
    (fv : FrogPilotVariables) (fpf : FrogPilotFunctions) (available : bool)
    (cp : CANParser) : result (Qc * Qc * bool * bool * list fpf_call) :=
  if personalities_via_wheel fv && available then
    lines ← vl_sig cp "PCM_CRUISE_SM" "DISTANCE_LINES";
    let profile := lines - num 1 in
    let '(restored, previous, calls) :=
      if personality_changed_via_ui fpf
      then (false, current_personality fpf,
            [reset_personality_changed_param]%list)
      else (db_profile_restored db, db_previous_personality_profile db, [])
    in
    let restored :=
      if bool_decide (profile = previous) then true else restored in
    let button :=
      if negb restored then negb (distance_button self)
      else distance_button self in
    Ok (profile, previous, restored, button, calls)
  else Ok (personality_profile self, db_previous_personality_profile db,
           db_profile_restored db, distance_button self, []).

(** *** Traffic signals *)

Definition signals : list string :=
  ["TSGN1"; "SPDVAL1"; "SPLSGN1"; "TSGN2"; "SPLSGN2"; "TSGN3"; "SPLSGN3";
   "TSGN4"; "SPLSGN4"]%string.

(** Line 293: the dictionary [new_values], from the two messages. *)
Definition new_values (rsa1 rsa2 : gmap string Qc)
  : gmap string (option Qc) :=
  list_to_map
    ((fun signal =>
        (signal,
         match rsa1 !! signal with
         | Some v => Some v
         | None => rsa2 !! signal
         end)) <$> signals).

(** [CarState.update_traffic_signals]: the new [traffic_signals]. *)
Definition update_traffic_signals (self : CarState) (cp_cam : CANParser)
  : result (gmap string (option Qc)) :=
  rsa1 ← vl_msg cp_cam "RSA1";
  rsa2 ← vl_msg cp_cam "RSA2";
  if bool_decide (new_values rsa1 rsa2 <> traffic_signals self)
  then Ok (new_values rsa1 rsa2 ∪ traffic_signals self)
  else Ok (traffic_signals self).

(** [dict.get(key, None)] on the sign cache. *)
Definition cache_get (cache : gmap string (option Qc)) (key : string)
  : option Qc :=
  match cache !! key with
  | Some v => v
  | None => None
  end.

(** [CarState.calculate_speed_limit], on [self.traffic_signals]. *)
Definition calculate_speed_limit (cache : gmap string (option Qc))
    (fv : FrogPilotVariables) : result Qc :=
  let tsgn1 := cache_get cache "TSGN1" in
  let spdval1 := cache_get cache "SPDVAL1" in
  if bool_decide (tsgn1 = Some (num 1)) && negb (force_mph_dashboard fv) then
    match spdval1 with
    | Some v => Ok (v * CV.KPH_TO_MS)
    | None => Raise TypeError
    end
  else if bool_decide (tsgn1 = Some (num 36)) || force_mph_dashboard fv then
    match spdval1 with
    | Some v => Ok (v * CV.MPH_TO_MS)
    | None => Raise TypeError
    end
  else Ok (num 0).

(** *** ZSS support *)

(** The attributes the ZSS block works on. *)
Record Zss : Type := {
  z_compute : bool;
  z_cruise_active_last : bool;
  z_angle_offset : Qc;
  z_threshold_count : Z;
}.

Definition zss_of (self : CarState) : Zss :=
  {| z_compute := zss_compute self;
     z_cruise_active_last := zss_cruise_active_last self;
     z_angle_offset := zss_angle_offset self;
     z_threshold_count := zss_threshold_count self |}.

(** The guard of line 266. *)
Definition zss_active (CP : CarParams) (self : CarState) : bool :=
  has_flag (flags CP) ToyotaFlags_ZSS
  && (zss_threshold_count self <? ZSS_THRESHOLD_COUNT)%Z.

(** Lines 267-287, once [zorro_steer] is read.  [steeringAngleDeg] is the
    angle the message holds when the block is reached; the result is the new
    attributes and the angle the message holds after it. *)
Definition zss_block (self : CarState) (zss_cruise_active : bool)
    (steeringAngleDeg zorro_steer : Qc) : Zss * Qc :=
  let edge := zss_cruise_active && negb (zss_cruise_active_last self) in
  let compute := if edge then true else zss_compute self in
  let count := if edge then 0%Z else zss_threshold_count self in
  let '(compute, offset) :=
    if compute
       && (bool_decide (eps_1e_3 < Qcabs steeringAngleDeg)
           && bool_decide (eps_1e_3 < Qcabs zorro_steer))
    then (false, zorro_steer - steeringAngleDeg)
    else (compute, zss_angle_offset self) in
  let new_steering_angle_deg := zorro_steer - offset in
  if bool_decide
       (ZSS_THRESHOLD < Qcabs (steeringAngleDeg - new_steering_angle_deg))
  then
    ({| z_compute := compute;
        z_cruise_active_last := zss_cruise_active;
        z_angle_offset := offset;
        z_threshold_count := (count + 1)%Z |}, steeringAngleDeg)
  else
    ({| z_compute := compute;
        z_cruise_active_last := zss_cruise_active;
        z_angle_offset := offset;
        z_threshold_count := count |}, new_steering_angle_deg).

(** Lines 266-287. *)
Definition zss_support (CP : CarParams) (self : CarState) (cp : CANParser)
    (available : bool) (steeringAngleDeg : Qc) : result (Zss * Qc) :=
  if zss_active CP self then
    zorro_steer ← vl_sig cp "SECONDARY_STEER_ANGLE" "ZORRO_STEER";
    Ok (zss_block self available steeringAngleDeg zorro_steer)
  else Ok (zss_of self, steeringAngleDeg).

(** *** The whole tick *)

(** Lines 63-189: the part of [update] before the FrogPilot functions. *)
Definition update_stock (CP : CarParams) (self : CarState)
    (cp cp_cam : CANParser) : result Stock.t :=
  '(doorOpen, seatbeltUnlatched, parkingBrake, brakePressed,
    brakeHoldActive, gas, gasPressed) ← update_body CP cp;
  '(kf, (ws, vEgoRaw, vEgo, aEgo, vEgoCluster, standstill)) ←
    update_kinematics CP self cp;
  '(seen, filt, (steeringAngleDeg, steeringRateDeg, steeringAngleOffsetDeg)) ←
    update_steering_angle self cp;
  '(gearShifter, leftBlinker, rightBlinker, engineRpm, steeringTorque,
    steeringTorqueEps, steeringPressed, faultTemporary, faultPermanent) ←
    update_gear_torque_faults CP self cp;
  '(accFaulted, available, speed, speedCluster) ← update_cruise CP cp;
  let cp_acc := cp_acc_of CP cp cp_cam in
  '(acc, stockFcw) ← update_acc_type CP self cp_acc;
  lockout ← update_low_speed_lockout CP self acc cp;
  '(status, neutral_force,
    (cruiseStandstill, enabled, nonAdaptive, genericToggle, espDisabled)) ←
    update_pcm_cruise CP cp;
  '(stockAeb, leftBlindspot, rightBlindspot) ← update_aeb_bsm CP cp cp_acc;
  '(hud, resume) ← update_hud_resume CP self cp cp_cam;
  Ok {| Stock.kf := kf;
        Stock.seen := seen;
        Stock.filt := filt;
        Stock.acc := acc;
        Stock.lockout := lockout;
        Stock.status := status;
        Stock.neutral_force := neutral_force;
        Stock.hud := hud;
        Stock.resume := resume;
        Stock.msg :=
          {| car.doorOpen := doorOpen;
             car.seatbeltUnlatched := seatbeltUnlatched;
             car.parkingBrake := parkingBrake;
             car.brakePressed := brakePressed;
             car.brakeHoldActive := brakeHoldActive;
             car.gas := gas;
             car.gasPressed := gasPressed;
             car.wheelSpeeds := ws;
             car.vEgoRaw := vEgoRaw;
             car.vEgo := vEgo;
             car.aEgo := aEgo;
             car.vEgoCluster := vEgoCluster;
             car.standstill := standstill;
             car.steeringAngleDeg := steeringAngleDeg;
             car.steeringRateDeg := steeringRateDeg;
             car.steeringAngleOffsetDeg := steeringAngleOffsetDeg;
             car.gearShifter := gearShifter;
             car.leftBlinker := leftBlinker;
             car.rightBlinker := rightBlinker;
             car.engineRpm := engineRpm;
             car.steeringTorque := steeringTorque;
             car.steeringTorqueEps := steeringTorqueEps;
             car.steeringPressed := steeringPressed;
             car.steerFaultTemporary := faultTemporary;
             car.steerFaultPermanent := faultPermanent;
             car.cruiseState :=
               {| CruiseState.available := available;
                  CruiseState.speed := speed;
                  CruiseState.speedCluster := speedCluster;
                  CruiseState.standstill := cruiseStandstill;
                  CruiseState.enabled := enabled;
                  CruiseState.nonAdaptive := nonAdaptive |};
             car.accFaulted := accFaulted;
             car.stockFcw := stockFcw;
             car.genericToggle := genericToggle;
             car.espDisabled := espDisabled;
             car.stockAeb := stockAeb;
             car.leftBlindspot := leftBlindspot;
             car.rightBlindspot := rightBlindspot |} |}.

(** [ret.steeringAngleDeg = a] *)
Definition set_steeringAngleDeg (a : Qc) (m : car.CarState) : car.CarState :=
  {| car.doorOpen := car.doorOpen m;
     car.seatbeltUnlatched := car.seatbeltUnlatched m;
     car.parkingBrake := car.parkingBrake m;
     car.brakePressed := car.brakePressed m;
     car.brakeHoldActive := car.brakeHoldActive m;
     car.gas := car.gas m;
     car.gasPressed := car.gasPressed m;
     car.wheelSpeeds := car.wheelSpeeds m;
     car.vEgoRaw := car.vEgoRaw m;
     car.vEgo := car.vEgo m;
     car.aEgo := car.aEgo m;
     car.vEgoCluster := car.vEgoCluster m;
     car.standstill := car.standstill m;
     car.steeringAngleDeg := a;
     car.steeringRateDeg := car.steeringRateDeg m;
     car.steeringAngleOffsetDeg := car.steeringAngleOffsetDeg m;
     car.gearShifter := car.gearShifter m;
     car.leftBlinker := car.leftBlinker m;
     car.rightBlinker := car.rightBlinker m;
     car.engineRpm := car.engineRpm m;
     car.steeringTorque := car.steeringTorque m;
     car.steeringTorqueEps := car.steeringTorqueEps m;
     car.steeringPressed := car.steeringPressed m;
     car.steerFaultTemporary := car.steerFaultTemporary m;
     car.steerFaultPermanent := car.steerFaultPermanent m;
     car.cruiseState := car.cruiseState m;
     car.accFaulted := car.accFaulted m;
     car.stockFcw := car.stockFcw m;
     car.genericToggle := car.genericToggle m;
     car.espDisabled := car.espDisabled m;
     car.stockAeb := car.stockAeb m;
     car.leftBlindspot := car.leftBlindspot m;
     car.rightBlindspot := car.rightBlindspot m |}.

(** What one call of [update] hands out: the message it returns, the calls
    it made on [self.fpf], and the value it stored in
    [SpeedLimitController.car_speed_limit]. *)
Record TickOutput : Type := {
  ret : car.CarState;
  fpf_calls : list fpf_call;
  car_speed_limit : Qc;
}.

(** [ret.cruiseState.available] *)
Definition cruise_available (m : car.CarState) : bool :=
  CruiseState.available (car.cruiseState m).

(** [CarState.update].  [self.CP] is set by the constructor and never
    assigned afterwards, so it is passed beside [self]. *)
Definition update (CP : CarParams) (self : CarState) (cp cp_cam : CANParser)
    (fv : FrogPilotVariables) (fpf : FrogPilotFunctions)
  : result (CarState * TickOutput) :=
  st ← update_stock CP self cp cp_cam;
  let available := cruise_available (Stock.msg st) in
  let cp_acc := cp_acc_of CP cp cp_cam in
  distance_pressed ← read_distance_pressed CP cp cp_acc;
  let '(lkas_pressed, calls_lkas) :=
    lkas_button CP self (Stock.hud st) fv available in
  '(db, calls_distance) ←
    distance_button_functions self fv available distance_pressed;
  '(profile, previous, restored, button, calls_personality) ←
    sync_personality self db fv fpf available cp;
  cache ← update_traffic_signals self cp_cam;
  limit ← calculate_speed_limit cache fv;
  '(zss, steeringAngleDeg) ←
    zss_support CP self cp available (car.steeringAngleDeg (Stock.msg st));
  Ok ({| v_ego_kf := Stock.kf st;
         lkas_previously_pressed := lkas_pressed;
         distance_pressed_counter := db_counter db;
         distance_previously_pressed := db_previously_pressed db;
         personality_profile := profile;
         previous_personality_profile := previous;
         distance_button := button;
         shifter_values := shifter_values self;
         eps_torque_scale := eps_torque_scale self;
         cluster_speed_hyst_gap := cluster_speed_hyst_gap self;
         cluster_min_speed := cluster_min_speed self;
         accurate_steer_angle_seen := Stock.seen st;
         angle_offset := Stock.filt st;
         low_speed_lockout := Stock.lockout st;
         acc_type := Stock.acc st;
         lkas_hud := Stock.hud st;
         profile_restored := restored;
         zss_compute := z_compute zss;
         zss_cruise_active_last := z_cruise_active_last zss;
         zss_angle_offset := z_angle_offset zss;
         zss_threshold_count := z_threshold_count zss;
         traffic_signals := cache;
         pcm_acc_status := Some (Stock.status st);
         pcm_neutral_force := Some (Stock.neutral_force st);
         stock_resume_ready := Stock.resume st |},
      {| ret := set_steeringAngleDeg steeringAngleDeg (Stock.msg st);
         fpf_calls := calls_lkas ++ calls_distance ++ calls_personality;
         car_speed_limit := limit |}).

(** ** A session: the ticks in order *)

(** What the caller supplies for one tick. *)
Record TickInput : Type := {
  in_cp : CANParser;
  in_cp_cam : CANParser;
  in_fv : FrogPilotVariables;
  in_fpf : FrogPilotFunctions;
}.

(** One completed tick: the object before the call, what the call was
    given, the object after it and what it handed out. *)
Record Tick : Type := {
  before : CarState;
  input : TickInput;
  after : CarState;
  output : TickOutput;
}.

Definition tick (CP : CarParams) (self : CarState) (i : TickInput)
  : result Tick :=
  '(self', o) ← update CP self (in_cp i) (in_cp_cam i) (in_fv i) (in_fpf i);
  Ok {| before := self; input := i; after := self'; output := o |}.

(** The session calls [update] once per input, each call on the object the
    previous one left; the first exception ends it. *)
Fixpoint run (CP : CarParams) (self : CarState) (ins : list TickInput)
  : result (list Tick) :=
  match ins with
  | [] => Ok []
  | i :: ins' =>
      t ← tick CP self i;
      ts ← run CP (after t) ins';
      Ok (t :: ts)
  end.

End Toyota.

(** ** A sample vehicle and sample frames

    Concrete values on which the definitions above are evaluated. *)

Module Sample.
#[local] Open Scope string_scope.

Definition imports : Imports :=
  {| TSS2_CAR := {["TOYOTA RAV4 2019"]};
     RADAR_ACC_CAR := ∅;
     UNSUPPORTED_DSU_CAR := {["LEXUS IS 2018"]};
     NO_STOP_TIMER_CAR := {["TOYOTA RAV4 2019"]};
     CAR_LEXUS_ES_TSS2 := "LEXUS ES 2019";
     CAR_MIRAI := "TOYOTA MIRAI 2021";
     CAR_PRIUS_V := "TOYOTA PRIUS v 2017";
     ToyotaFlags_SMART_DSU := 2;
     ToyotaFlags_DISABLE_RADAR := 4;
     ToyotaFlags_ZSS := 8;
     ToyotaFlags_RADAR_CAN_FILTER := 16;
     STEER_THRESHOLD := num 100;
     EPS_SCALE := fun _ => num 73;
     GEAR_values := fun _ => {[ 0%Z := "D" ]};
     CRUISE_LONG_PRESS := 3;
     DT_CTRL := frac 1 100;
     get_wheel_speeds := fun _ a b c d =>
       {| WheelSpeeds.fl := a * CV.KPH_TO_MS;
          WheelSpeeds.fr := b * CV.KPH_TO_MS;
          WheelSpeeds.rl := c * CV.KPH_TO_MS;
          WheelSpeeds.rr := d * CV.KPH_TO_MS |};
     update_speed_kf := fun _ v => ((v, num 0), (v, num 0));
     parse_gear_shifter := fun g =>
       match g with
       | Some "D" => GearShifter.drive
       | _ => GearShifter.unknown
       end |}.

(** A frame from its messages; of two entries for one message the first
    counts. *)
Definition frame (l : list (string * list (string * Qc))) : CANParser :=
  {| vl := list_to_map ((fun p => (p.1, list_to_map p.2)) <$> l);
     can_valid := true |}.

Definition zeros (l : list string) : list (string * Qc) :=
  (fun k => (k, num 0)) <$> l.

(** The main bus with every signal at zero, but for [first]. *)
Definition main_bus (first : list (string * list (string * Qc)))
  : CANParser :=
  frame (first ++
    [("BODY_CONTROL_STATE",
      zeros ["DOOR_OPEN_FL"; "DOOR_OPEN_FR"; "DOOR_OPEN_RL"; "DOOR_OPEN_RR";
             "SEATBELT_DRIVER_UNLATCHED"; "PARKING_BRAKE"]);
     ("BRAKE_MODULE", zeros ["BRAKE_PRESSED"]);
     ("ESP_CONTROL", zeros ["BRAKE_HOLD_ACTIVE"; "TC_DISABLED"]);
     ("PCM_CRUISE",
      zeros ["GAS_RELEASED"; "CRUISE_STATE"; "CRUISE_ACTIVE";
             "NEUTRAL_FORCE"]);
     ("WHEEL_SPEEDS",
      zeros ["WHEEL_SPEED_FL"; "WHEEL_SPEED_FR"; "WHEEL_SPEED_RL";
             "WHEEL_SPEED_RR"]);
     ("STEER_ANGLE_SENSOR",
      zeros ["STEER_ANGLE"; "STEER_FRACTION"; "STEER_RATE"]);
     ("STEER_TORQUE_SENSOR",
      zeros ["STEER_ANGLE"; "STEER_ANGLE_INITIALIZING";
             "STEER_TORQUE_DRIVER"; "STEER_TORQUE_EPS"]);
     ("GEAR_PACKET", zeros ["GEAR"]);
     ("BLINKERS_STATE", zeros ["TURN_SIGNALS"]);
     ("ENGINE_RPM", zeros ["RPM"]);
     ("EPS_STATUS", zeros ["LKA_STATE"; "LTA_STATE"]);
     ("PCM_CRUISE_2",
      zeros ["ACC_FAULTED"; "MAIN_ON"; "SET_SPEED"; "LOW_SPEED_LOCKOUT"]);
     ("PCM_CRUISE_SM", zeros ["UI_SET_SPEED"; "DISTANCE_LINES"]);
     ("BODY_CONTROL_STATE_2", zeros ["UNITS"]);
     ("LIGHT_STALK", zeros ["AUTO_HIGH_BEAM"]);
     ("ACC_CONTROL", zeros ["RELEASE_STANDSTILL"; "ACC_TYPE"; "DISTANCE"]);
     ("PCS_HUD", zeros ["FCW"]);
     ("PRE_COLLISION", zeros ["PRECOLLISION_ACTIVE"; "FORCE"]);
     ("SECONDARY_STEER_ANGLE", zeros ["ZORRO_STEER"])]).

(** The camera bus with every signal at zero, but for [first]. *)
Definition camera_bus (first : list (string * list (string * Qc)))
  : CANParser :=
  frame (first ++
    [("RSA1", zeros signals);
     ("RSA2", []);
     ("LKAS_HUD", zeros ["LDA_ON_MESSAGE"; "SET_ME_X02"]);
     ("ACC_CONTROL", zeros ["ACC_TYPE"; "DISTANCE"]);
     ("PCS_HUD", zeros ["FCW"]);
     ("PRE_COLLISION", zeros ["PRECOLLISION_ACTIVE"; "FORCE"])]).

(** The object as the base class leaves it. *)
Definition base : CarState :=
  {| v_ego_kf := (num 0, num 0);
     lkas_previously_pressed := false;
     distance_pressed_counter := 0;
     distance_previously_pressed := num 0;
     personality_profile := num 0;
     previous_personality_profile := num 0;
     distance_button := false;
     shifter_values := ∅;
     eps_torque_scale := num 0;
     cluster_speed_hyst_gap := num 0;
     cluster_min_speed := num 0;
     accurate_steer_angle_seen := false;
     angle_offset := FirstOrderFilter.new None (num 0) (num 1) false;
     low_speed_lockout := false;
     acc_type := num 0;
     lkas_hud := ∅;
     profile_restored := false;
     zss_compute := false;
     zss_cruise_active_last := false;
     zss_angle_offset := num 0;
     zss_threshold_count := 0;
     traffic_signals := ∅;
     pcm_acc_status := None;
     pcm_neutral_force := None;
     stock_resume_ready := None |}.

(** A TSS2 car with camera ACC; [bits] are its flags. *)
Definition rav4 (bits : Z) : CarParams :=
  {| carFingerprint := "TOYOTA RAV4 2019";
     flags := bits;
     enableGasInterceptor := false;
     enableDsu := false;
     enableBsm := false;
     openpilotLongitudinalControl := true;
     steerControlType := SteerControlType.torque |}.

(** A car that is in none of the sets. *)
Definition corolla (bits : Z) : CarParams :=
  {| carFingerprint := "TOYOTA COROLLA 2017";
     flags := bits;
     enableGasInterceptor := false;
     enableDsu := false;
     enableBsm := false;
     openpilotLongitudinalControl := true;
     steerControlType := SteerControlType.torque |}.

Definition toggles (via_distance mph : bool) : FrogPilotVariables :=
  {| experimental_mode_via_lkas := false;
     conditional_experimental_mode := false;
     experimental_mode_via_distance := via_distance;
     traffic_mode := false;
     personalities_via_wheel := false;
     force_mph_dashboard := mph |}.

Definition fpf : FrogPilotFunctions :=
  {| personality_changed_via_ui := false; current_personality := num 0 |}.

Definition fresh (CP : CarParams) : CarState :=
  __init__ (H := imports) base CP.

Definition given (cp cp_cam : CANParser) (fv : FrogPilotVariables)
  : TickInput :=
  {| in_cp := cp; in_cp_cam := cp_cam; in_fv := fv; in_fpf := fpf |}.

(** All four wheels at 36 km/h. *)
Definition cruising_36 : CANParser :=
  main_bus
    [("WHEEL_SPEEDS",
      [("WHEEL_SPEED_FL", num 36); ("WHEEL_SPEED_FR", num 36);
       ("WHEEL_SPEED_RL", num 36); ("WHEEL_SPEED_RR", num 36)])]%list.

(** The primary sensor at 1 degree, the torque sensor still at zero, the
    secondary sensor at 2 degrees. *)
Definition steer_1_zorro_2 : CANParser :=
  main_bus
    [("STEER_ANGLE_SENSOR",
      [("STEER_ANGLE", num 1); ("STEER_FRACTION", num 0);
       ("STEER_RATE", num 0)]);
     ("SECONDARY_STEER_ANGLE", [("ZORRO_STEER", num 2)]%list)].

(** [car.CarState.new_message()]: every field at its default. *)
Definition new_message : car.CarState :=
  {| car.doorOpen := false;
     car.seatbeltUnlatched := false;
     car.parkingBrake := false;
     car.brakePressed := false;
     car.brakeHoldActive := false;
     car.gas := num 0;
     car.gasPressed := false;
     car.wheelSpeeds :=
       {| WheelSpeeds.fl := num 0; WheelSpeeds.fr := num 0;
          WheelSpeeds.rl := num 0; WheelSpeeds.rr := num 0 |};
     car.vEgoRaw := num 0;
     car.vEgo := num 0;
     car.aEgo := num 0;
     car.vEgoCluster := num 0;
     car.standstill := false;
     car.steeringAngleDeg := num 0;
     car.steeringRateDeg := num 0;
     car.steeringAngleOffsetDeg := num 0;
     car.gearShifter := GearShifter.unknown;
     car.leftBlinker := false;
     car.rightBlinker := false;
     car.engineRpm := num 0;
     car.steeringTorque := num 0;
     car.steeringTorqueEps := num 0;
     car.steeringPressed := false;
     car.steerFaultTemporary := false;
     car.steerFaultPermanent := false;
     car.cruiseState :=
       {| CruiseState.available := false;
          CruiseState.speed := num 0;
          CruiseState.speedCluster := num 0;
          CruiseState.standstill := false;
          CruiseState.enabled := false;
          CruiseState.nonAdaptive := false |};
     car.accFaulted := false;
     car.stockFcw := false;
     car.genericToggle := false;
     car.espDisabled := false;
     car.stockAeb := false;
     car.leftBlindspot := false;
     car.rightBlindspot := false |}.

(** The value of a result, [d] standing in for an exception. *)
Definition the {A : Type} (d : A) (r : result A) : A :=
  match r with
  | Ok a => a
  | Raise _ => d
  end.

Definition silent : TickOutput :=
  {| ret := new_message; fpf_calls := []; car_speed_limit := num 0 |}.

(** The object and the output of a call that returned. *)
Definition the_state (r : result (CarState * TickOutput)) : CarState :=
  (the (base, silent) r).1.

Definition the_output (r : result (CarState * TickOutput)) : TickOutput :=
  (the (base, silent) r).2.

(** The ticks of a session that ran to its end, and the n-th of them. *)
Definition the_ticks (r : result (list Tick)) : list Tick := the [] r.

Definition tick_at (n : nat) (r : result (list Tick)) : Tick :=
  nth n (the_ticks r)
    {| before := base;
       input := given (main_bus []) (camera_bus []) (toggles false false);
       after := base;
       output := silent |}.

(** Cruise switched on, everything else at zero. *)
Definition main_on : CANParser :=
  main_bus
    [("PCM_CRUISE_2",
      [("ACC_FAULTED", num 0); ("MAIN_ON", num 1); ("SET_SPEED", num 0);
       ("LOW_SPEED_LOCKOUT", num 2)])]%list.

(** Cruise switched on, the primary sensor at 1 degree and the secondary
    sensor at 2 degrees. *)
Definition main_on_steer_1_zorro_2 : CANParser :=
  main_bus
    [("PCM_CRUISE_2",
      [("ACC_FAULTED", num 0); ("MAIN_ON", num 1); ("SET_SPEED", num 0);
       ("LOW_SPEED_LOCKOUT", num 0)]);
     ("STEER_ANGLE_SENSOR",
      [("STEER_ANGLE", num 1); ("STEER_FRACTION", num 0);
       ("STEER_RATE", num 0)]);
     ("SECONDARY_STEER_ANGLE", [("ZORRO_STEER", num 2)]%list)].

(** The camera bus with the distance button down. *)
Definition camera_distance_down : CANParser :=
  camera_bus
    [("ACC_CONTROL", [("ACC_TYPE", num 0); ("DISTANCE", num 1)])]%list.

(** A sign of type 1 reading 100. *)
Definition sign_100 : gmap string (option Qc) :=
  {[ "TSGN1" := Some (num 1); "SPDVAL1" := Some (num 100) ]}.

(** The fresh object of a ZSS vehicle, but with the counter at its cap. *)
Definition capped : CarState :=
  let s := fresh (rav4 8) in
  {| v_ego_kf := v_ego_kf s;
     lkas_previously_pressed := lkas_previously_pressed s;
     distance_pressed_counter := distance_pressed_counter s;
     distance_previously_pressed := distance_previously_pressed s;
     personality_profile := personality_profile s;
     previous_personality_profile := previous_personality_profile s;
     distance_button := distance_button s;
     shifter_values := shifter_values s;
     eps_torque_scale := eps_torque_scale s;
     cluster_speed_hyst_gap := cluster_speed_hyst_gap s;
     cluster_min_speed := cluster_min_speed s;
     accurate_steer_angle_seen := accurate_steer_angle_seen s;
     angle_offset := angle_offset s;
     low_speed_lockout := low_speed_lockout s;
     acc_type := acc_type s;
     lkas_hud := lkas_hud s;
     profile_restored := profile_restored s;
     zss_compute := zss_compute s;
     zss_cruise_active_last := zss_cruise_active_last s;
     zss_angle_offset := zss_angle_offset s;
     zss_threshold_count := 10;
     traffic_signals := traffic_signals s;
     pcm_acc_status := pcm_acc_status s;
     pcm_neutral_force := pcm_neutral_force s;
     stock_resume_ready := stock_resume_ready s |}.

(** Sessions on the ZSS vehicle. *)
Definition capped_session : list TickInput :=
  [given steer_1_zorro_2 (camera_bus []) (toggles true false);
   given main_on_steer_1_zorro_2 (camera_bus []) (toggles true false)].

Definition edge_session : list TickInput :=
  [given main_on (camera_bus []) (toggles true false);
   given main_on_steer_1_zorro_2 (camera_bus []) (toggles true false);
   given main_on_steer_1_zorro_2 (camera_bus []) (toggles true false)].

(** The button held for three ticks, the threshold of the sample, then let
    go; and held for two ticks, then let go. *)
Definition down : TickInput :=
  given main_on camera_distance_down (toggles true false).

Definition up : TickInput :=
  given main_on (camera_bus []) (toggles true false).

Definition long_press : list TickInput := [down; down; down; up].

Definition short_press : list TickInput := [down; down; up].

Definition capped_run : result (list Tick) :=
  run (H := imports) (rav4 8) capped capped_session.

Definition edge_run : result (list Tick) :=
  run (H := imports) (rav4 8) (fresh (rav4 8)) edge_session.

Definition long_run : result (list Tick) :=
  run (H := imports) (rav4 0) (fresh (rav4 0)) long_press.

Definition short_run : result (list Tick) :=
  run (H := imports) (rav4 0) (fresh (rav4 0)) short_press.

End Sample.

(** * The notions the properties are stated with *)

Section Notions.
Context `{Imports}.

(** The filter is only ever fed, and so only ever initialized, once an
    accurate torque-sensor angle has been seen. *)
Definition filter_guarded (self : CarState) : Prop :=
  FirstOrderFilter.initialized (angle_offset self) = true ->
  accurate_steer_angle_seen self = true.

(** The candidate of line 282 differs from [angle] by more than the
    threshold. *)
Definition diverges (angle candidate : Qc) : bool :=
  bool_decide (ZSS_THRESHOLD < Qcabs (angle - candidate)).

(** [ts] are the ticks of a session that started on [self]: each call is
    made on the object the previous one left, and each returned. *)
Inductive session (CP : CarParams) : CarState -> list Tick -> Prop :=
| session_end self : session CP self []
| session_tick self t ts :
    before t = self ->
    update CP self (in_cp (input t)) (in_cp_cam (input t)) (in_fv (input t))
      (in_fpf (input t)) = Ok (after t, output t) ->
    session CP (after t) ts ->
    session CP self (t :: ts).

(** The main frame without the message of the secondary sensor: a read of
    ZORRO_STEER on it raises [KeyError]. *)
Definition without_zorro (cp : CANParser) : CANParser :=
  {| vl := delete "SECONDARY_STEER_ANGLE"%string (vl cp);
     can_valid := can_valid cp |}.

(** What lines 63-189 made of the tick. *)
Definition tick_stock (CP : CarParams) (t : Tick) : result Stock.t :=
  update_stock CP (before t) (in_cp (input t)) (in_cp_cam (input t)).

(** [ret.cruiseState.available] of the tick. *)
Definition tick_available (t : Tick) : bool :=
  cruise_available (ret (output t)).

(** The ZSS block runs in the tick. *)
Definition zss_on (CP : CarParams) (t : Tick) : bool :=
  zss_active CP (before t).

(** Cruise is available in the tick and was not when the ZSS block last
    ran. *)
Definition rising_edge (t : Tick) : bool :=
  tick_available t && negb (zss_cruise_active_last (before t)).

(** The angle of lines 94-109, which the ZSS block calls the steering
    angle; 0 stands in when the tick did not get that far. *)
Definition tick_primary (CP : CarParams) (t : Tick) : Qc :=
  match tick_stock CP t with
  | Ok st => car.steeringAngleDeg (Stock.msg st)
  | Raise _ => num 0
  end.

(** The reading of the secondary sensor; 0 stands in when there is none. *)
Definition tick_zorro (t : Tick) : Qc :=
  match vl_sig (in_cp (input t)) "SECONDARY_STEER_ANGLE" "ZORRO_STEER" with
  | Ok z => z
  | Raise _ => num 0
  end.

(** Both angles exceed 1e-3 in magnitude. *)
Definition both_nonzero (CP : CarParams) (t : Tick) : bool :=
  bool_decide (eps_1e_3 < Qcabs (tick_primary CP t))
  && bool_decide (eps_1e_3 < Qcabs (tick_zorro t)).

(** The candidate of the tick diverges from the primary angle. *)
Definition tick_diverged (CP : CarParams) (t : Tick) : bool :=
  diverges (tick_primary CP t) (tick_zorro t - zss_angle_offset (after t)).

(** The reading of the distance button in the tick, if the vehicle has one
    wired. *)
Definition button (CP : CarParams) (t : Tick) : option Qc :=
  match read_distance_pressed CP (in_cp (input t))
          (cp_acc_of CP (in_cp (input t)) (in_cp_cam (input t))) with
  | Ok d => d
  | Raise _ => None
  end.

(** Cruise is available and the button is down. *)
Definition held (CP : CarParams) (t : Tick) : bool :=
  tick_available t
  && match button CP t with Some d => truthy d | None => false end.

(** Cruise is available and the button is up. *)
Definition let_go (CP : CarParams) (t : Tick) : bool :=
  tick_available t
  && match button CP t with Some d => negb (truthy d) | None => false end.

(** The LKAS button is not a way to toggle Experimental Mode. *)
Definition lkas_off (t : Tick) : bool :=
  negb (experimental_mode_via_lkas (in_fv (input t))).

Definition via_distance (t : Tick) : bool :=
  experimental_mode_via_distance (in_fv (input t)).

(** The toggle of the alternate mode, in either of its two forms. *)
Definition is_toggle (c : fpf_call) : bool :=
  match c with
  | update_experimental_mode | update_cestatus_distance => true
  | _ => false
  end.

(** The personality-cycle event. *)
Definition is_cycle (c : fpf_call) : bool :=
  match c with
  | distance_button_function _ => true
  | _ => false
  end.

(** The calls of a tick but for the acknowledgement of a change made in
    the UI, which the personality block makes. *)
Definition button_calls (cs : list fpf_call) : list fpf_call :=
  List.filter
    (fun c => negb (bool_decide (c = reset_personality_changed_param))) cs.

(** All calls made in the ticks, in order. *)
Definition calls_of (ts : list Tick) : list fpf_call :=
  concat ((fun t => fpf_calls (output t)) <$> ts).

(** What the two thresholds fire when the counter stands at [counter]. *)
Definition threshold_calls (fv : FrogPilotVariables) (counter : Z)
  : list fpf_call :=
  (if (counter =? CRUISE_LONG_PRESS)%Z && experimental_mode_via_distance fv
   then [toggle_call fv update_cestatus_distance]%list else [])
  ++ (if (counter =? CRUISE_LONG_PRESS * 5)%Z && traffic_mode fv
      then [update_traffic_mode; toggle_call fv update_cestatus_distance]
      else []).

End Notions.

(** * The two parser constructors

    [CarState.get_can_parser] and [CarState.get_cam_can_parser] choose the
    messages each frame will carry.  The parser object they return is given
    here by the arguments it is constructed from. *)

(** [DBC] of [toyota/values.py]: by fingerprint, then by bus name. *)
Class DbcTable : Type := {
  DBC : gmap string (gmap string string);
}.

(** [CANParser(dbc_name, messages, bus)] *)
Record ParserArgs : Type := {
  dbc_name : string;
  messages : list (string * Qc);
  bus : Z;
}.

(** [x == s] for a string [x] and a set [s]: objects of the two types never
    compare equal. *)
Definition str_eq_set (x : string) (s : gset string) : bool := false.

(** [x in t] for a tuple [t] of sets: true when [x] equals a member of the
    tuple. *)
Definition in_tuple_of_sets (x : string) (t : list (gset string)) : bool :=
  existsb (str_eq_set x) t.

Section Parsers.
Context `{Imports} `{DbcTable}.
#[local] Open Scope string_scope.
#[local] Open Scope list_scope.

(** [DBC[CP.carFingerprint]["pt"]] *)
Definition dbc_pt (CP : CarParams) : result string :=
  match DBC !! carFingerprint CP with
  | Some d =>
      match d !! "pt" with
      | Some name => Ok name
      | None => Raise (KeyError "pt")
      end
  | None => Raise (KeyError (carFingerprint CP))
  end.

(** Lines 311-362: the list [messages] of [get_can_parser], each
    [append] and [+=] in the order of the source. *)
Definition main_messages (CP : CarParams) : list (string * Qc) :=
  ([("GEAR_PACKET", num 1);
    ("LIGHT_STALK", num 1);
    ("BLINKERS_STATE", frac 15 100);
    ("BODY_CONTROL_STATE", num 3);
    ("BODY_CONTROL_STATE_2", num 2);
    ("ESP_CONTROL", num 3);
    ("EPS_STATUS", num 25);
    ("BRAKE_MODULE", num 40);
    ("WHEEL_SPEEDS", num 80);
    ("STEER_ANGLE_SENSOR", num 80);
    ("PCM_CRUISE", num 33);
    ("PCM_CRUISE_SM", num 1);
    ("STEER_TORQUE_SENSOR", num 50)]
   ++ (if bool_decide (carFingerprint CP <> CAR_MIRAI)
       then [("ENGINE_RPM", num 42)] else [])
   ++ (if bool_decide (carFingerprint CP ∈ UNSUPPORTED_DSU_CAR)
       then [("DSU_CRUISE", num 5); ("PCM_CRUISE_ALT", num 1)]
       else [("PCM_CRUISE_2", num 33)])
   ++ (if enableGasInterceptor CP then [("GAS_SENSOR", num 50)] else [])
   ++ (if enableBsm CP then [("BSM", num 1)] else [])
   ++ (if negb (openpilotLongitudinalControl CP)
          || (bool_decide (carFingerprint CP ∈ RADAR_ACC_CAR)
              && negb (has_flag (flags CP) ToyotaFlags_DISABLE_RADAR))
       then
         (if negb (has_flag (flags CP) ToyotaFlags_SMART_DSU)
          then [("ACC_CONTROL", num 33)] else [])
         ++ [("PCS_HUD", num 1)]
       else [])
   ++ (if negb (camera_acc CP) && negb (enableDsu CP)
          && negb (has_flag (flags CP) ToyotaFlags_DISABLE_RADAR)
       then [("PRE_COLLISION", num 33)] else [])
   ++ (if has_flag (flags CP) ToyotaFlags_SMART_DSU
          && negb (has_flag (flags CP) ToyotaFlags_RADAR_CAN_FILTER)
       then [("SDSU", num 100)] else [])
   ++ [("SECONDARY_STEER_ANGLE", num 0)]).

(** [CarState.get_can_parser] *)
Definition get_can_parser (CP : CarParams) : result ParserArgs :=
  let messages := main_messages CP in
  name ← dbc_pt CP;
  Ok {| dbc_name := name; messages := messages; bus := 0 |}.

(** Lines 368-388: the list [messages] of [get_cam_can_parser].  Line 387
    tests the fingerprint against the tuple of the two sets, not against
    their members. *)
Definition cam_messages (CP : CarParams) : list (string * Qc) :=
  ([("RSA1", num 0); ("RSA2", num 0)]
   ++ (if bool_decide (carFingerprint CP <> CAR_PRIUS_V)
       then [("LKAS_HUD", num 1)] else [])
   ++ (if camera_acc CP
       then [("PRE_COLLISION", num 33); ("ACC_CONTROL", num 33);
             ("PCS_HUD", num 1)]
       else [])
   ++ (if negb (openpilotLongitudinalControl CP)
          && negb (in_tuple_of_sets (carFingerprint CP)
                     [TSS2_CAR; UNSUPPORTED_DSU_CAR])
       then [("ACC_CONTROL", num 33)] else [])).

(** [CarState.get_cam_can_parser] *)
Definition get_cam_can_parser (CP : CarParams) : result ParserArgs :=
  let messages := cam_messages CP in
  name ← dbc_pt CP;
  Ok {| dbc_name := name; messages := messages; bus := 2 |}.

End Parsers.

(** * Further notions *)

Section FurtherNotions.
Context `{Imports}.

(** The names of the messages a parser was built with. *)
Definition names (msgs : list (string * Qc)) : list string := msgs.*1.

(** The frame holds every message of the list. *)
Definition carries (p : CANParser) (msgs : list (string * Qc)) : bool :=
  forallb (fun m => bool_decide (is_Some (vl p !! m))) (names msgs).

(** The frame holds no message outside the list. *)
Definition carries_only (p : CANParser) (msgs : list (string * Qc)) : bool :=
  forallb (fun m => bool_decide (m ∈ names msgs)) (map_to_list (vl p)).*1.

(** The key is missing as a signal of a message the frame holds. *)
Definition missing_signal (p : CANParser) (k : string) : Prop :=
  exists m d, vl p !! m = Some d /\ d !! k = None.

(** Every exception the computation can end in satisfies [P]. *)
Definition raises_only {A : Type} (P : exn -> Prop) (r : result A) : Prop :=
  forall e, r = Raise e -> P e.

(** The exception is not the one of an unassigned local. *)
Definition not_unbound (e : exn) : Prop :=
  match e with
  | UnboundLocalError _ => False
  | _ => True
  end.

(** The exception is not [TypeError]. *)
Definition not_type_error (e : exn) : Prop :=
  match e with
  | TypeError => False
  | _ => True
  end.

(** The object a session leaves: the one after its last tick, or the one it
    started on. *)
Definition last_state (self : CarState) (ts : list Tick) : CarState :=
  default self (after <$> last ts).

(** If the exception is a [KeyError], its key is missing as a signal of a
    message that one of the two frames holds: no message was missing. *)
Definition signal_missing_only (cp cp_cam : CANParser) (e : exn) : Prop :=
  forall k, e = KeyError k -> missing_signal cp k \/ missing_signal cp_cam k.

(** The LKAS HUD message of the tick shows the button pressed (line 202). *)
Definition lkas_down (t : Tick) : bool :=
  match vl_msg (in_cp_cam (input t)) "LKAS_HUD" with
  | Ok hud =>
      existsb (fun key => bool_decide (hud !! key = Some (num 1)))
        ["LDA_ON_MESSAGE"; "SET_ME_X02"]%string
  | Raise _ => false
  end.

(** The guard of line 200 in the tick. *)
Definition lkas_gate (CP : CarParams) (t : Tick) : bool :=
  experimental_mode_via_lkas (in_fv (input t)) && tick_available t
  && bool_decide (carFingerprint CP <> CAR_PRIUS_V).

(** The state of the distance button is consistent: the counter is not
    negative, and it is above zero only while the button is held. *)
Definition counter_tracks_hold (self : CarState) : Prop :=
  (0 <= distance_pressed_counter self)%Z
  /\ (distance_pressed_counter self <> 0%Z ->
      truthy (distance_previously_pressed self) = true).

(** As many calls of the kind as the list holds. *)
Definition count_calls (p : fpf_call -> bool) (cs : list fpf_call) : nat :=
  length (List.filter p cs).

Definition is_traffic (c : fpf_call) : bool :=
  match c with
  | update_traffic_mode => true
  | _ => false
  end.

Definition is_lkas_toggle (c : fpf_call) : bool :=
  match c with
  | update_cestatus_lkas => true
  | _ => false
  end.

(** The cache holds none but the nine signals. *)
Definition cache_within_signals (self : CarState) : Prop :=
  forall k, is_Some (traffic_signals self !! k) -> k ∈ signals.

(** The nine values the frame of the tick gives; empty when a message is
    missing. *)
Definition tick_signs (t : Tick) : gmap string (option Qc) :=
  match vl_msg (in_cp_cam (input t)) "RSA1",
        vl_msg (in_cp_cam (input t)) "RSA2" with
  | Ok rsa1, Ok rsa2 => new_values rsa1 rsa2
  | _, _ => ∅
  end.

(** The torque sensor of the tick reports an angle above 1e-3 in magnitude
    and is not initializing (line 99). *)
Definition torque_angle_valid (t : Tick) : bool :=
  match vl_sig (in_cp (input t)) "STEER_TORQUE_SENSOR" "STEER_ANGLE" with
  | Ok a =>
      bool_decide (eps_1e_3 < Qcabs a)
      && match vl_sig (in_cp (input t)) "STEER_TORQUE_SENSOR"
                 "STEER_ANGLE_INITIALIZING" with
         | Ok i => negb (truthy i)
         | Raise _ => false
         end
  | Raise _ => false
  end.

(** The primary angle and rate of the tick are inside the envelope in which
    the offset filter is fed, and the bus is valid (line 104). *)
Definition inside_envelope (t : Tick) : bool :=
  match vl_sig (in_cp (input t)) "STEER_ANGLE_SENSOR" "STEER_ANGLE",
        vl_sig (in_cp (input t)) "STEER_ANGLE_SENSOR" "STEER_FRACTION",
        vl_sig (in_cp (input t)) "STEER_ANGLE_SENSOR" "STEER_RATE" with
  | Ok a, Ok f, Ok r =>
      bool_decide (Qcabs (a + f) < num 90)
      && bool_decide (Qcabs r < num 100)
      && can_valid (in_cp (input t))
  | _, _, _ => false
  end.

(** The tick is a call of [update] that returned. *)
Definition returned_tick (CP : CarParams) (t : Tick) : Prop :=
  update CP (before t) (in_cp (input t)) (in_cp_cam (input t))
    (in_fv (input t)) (in_fpf (input t)) = Ok (after t, output t).

(** The offset filter holds a value once it is initialized. *)
Definition filter_holds_value (self : CarState) : Prop :=
  FirstOrderFilter.initialized (angle_offset self) = true ->
  is_Some (FirstOrderFilter.x (angle_offset self)).

End FurtherNotions.

(** * Further sample data *)

Module FurtherSample.
Import Sample.
#[local] Open Scope string_scope.
#[local] Open Scope list_scope.

(** Every signal of both buses at zero: cruise is off. *)
Definition quiet : TickInput :=
  given (main_bus []) (camera_bus []) (toggles true false).

(** One call on the fresh object of the TSS2 car, every signal at zero. *)
Definition quiet_tick : result (CarState * TickOutput) :=
  update (H := imports) (rav4 0) (fresh (rav4 0)) (main_bus [])
    (camera_bus []) (toggles true false) fpf.

(** A car that is in none of the sets, with a gas interceptor. *)
Definition pedal_car : CarParams :=
  {| carFingerprint := "TOYOTA COROLLA 2017";
     flags := 0;
     enableGasInterceptor := true;
     enableDsu := false;
     enableBsm := false;
     openpilotLongitudinalControl := true;
     steerControlType := SteerControlType.torque |}.

(** The two sensors of the interceptor at 800 and 813: the sum is one above
    the threshold. *)
Definition pedal_bus : CANParser :=
  main_bus
    [("GAS_SENSOR",
      [("INTERCEPTOR_GAS", num 800); ("INTERCEPTOR_GAS2", num 813)])].

Definition pedal_tick : result (CarState * TickOutput) :=
  update (H := imports) pedal_car (fresh pedal_car) pedal_bus
    (camera_bus []) (toggles true false) fpf.

(** Two quiet ticks on the TSS2 car with SMART_DSU. *)
Definition dsu_run : result (list Tick) :=
  run (H := imports) (rav4 2) (fresh (rav4 2)) [quiet; quiet].

(** A camera frame without the message RSA2. *)
Definition camera_rsa1_only : CANParser :=
  frame [("RSA1", zeros signals)].

(** The camera bus, its two sign messages without a signal. *)
Definition camera_no_signs : CANParser :=
  camera_bus [("RSA1", []); ("RSA2", [])].

(** Both functions of the distance button on. *)
Definition both_modes : FrogPilotVariables :=
  {| experimental_mode_via_lkas := false;
     conditional_experimental_mode := false;
     experimental_mode_via_distance := true;
     traffic_mode := true;
     personalities_via_wheel := false;
     force_mph_dashboard := false |}.

(** The button held for fifteen ticks, five times the threshold of the
    sample, then let go. *)
Definition very_long_press : list TickInput :=
  replicate 15 (given main_on camera_distance_down both_modes)
  ++ [given main_on (camera_bus []) both_modes].

Definition very_long_run : result (list Tick) :=
  run (H := imports) (rav4 0) (fresh (rav4 0)) very_long_press.

(** The LKAS button toggles Conditional Experimental Mode. *)
Definition lkas_mode : FrogPilotVariables :=
  {| experimental_mode_via_lkas := true;
     conditional_experimental_mode := true;
     experimental_mode_via_distance := false;
     traffic_mode := false;
     personalities_via_wheel := false;
     force_mph_dashboard := false |}.

(** The camera bus with the LKAS button down. *)
Definition camera_lkas_down : CANParser :=
  camera_bus [("LKAS_HUD", [("LDA_ON_MESSAGE", num 1); ("SET_ME_X02", num 0)])].

(** The LKAS button held over two ticks, cruise on. *)
Definition lkas_run : result (list Tick) :=
  run (H := imports) (rav4 0) (fresh (rav4 0))
    [given main_on camera_lkas_down lkas_mode;
     given main_on camera_lkas_down lkas_mode].

(** The personality follows the wheel. *)
Definition wheel_mode : FrogPilotVariables :=
  {| experimental_mode_via_lkas := false;
     conditional_experimental_mode := false;
     experimental_mode_via_distance := false;
     traffic_mode := false;
     personalities_via_wheel := true;
     force_mph_dashboard := false |}.

Definition wheel_tick : result (CarState * TickOutput) :=
  update (H := imports) (rav4 0) (fresh (rav4 0)) main_on (camera_bus [])
    wheel_mode fpf.

(** The main bus whose gear message holds no signal. *)
Definition main_no_gear : CANParser := main_bus [("GEAR_PACKET", [])].

(** A car in none of the sets with SMART_DSU and stock longitudinal
    control. *)
Definition stock_dsu_car : CarParams :=
  {| carFingerprint := "TOYOTA COROLLA 2017";
     flags := 2;
     enableGasInterceptor := false;
     enableDsu := false;
     enableBsm := false;
     openpilotLongitudinalControl := false;
     steerControlType := SteerControlType.torque |}.

(** The main bus as the parser of that car delivers it: SDSU is there,
    ACC_CONTROL is not. *)
Definition stock_dsu_bus : CANParser :=
  {| vl := <["SDSU" := list_to_map (zeros ["FD_BUTTON"])]>
             (delete "ACC_CONTROL" (vl (main_bus [])));
     can_valid := true |}.

End FurtherSample.

(** * Properties *)

(** ** Reasoning about a tick that returned *)

Lemma bind_Ok {A B : Type} (m : result A) (f : A -> result B) (b : B) :
  m ≫= f = Ok b -> exists a, m = Ok a /\ f a = Ok b.
Proof. destruct m as [a|e]; simpl; [eauto | discriminate]. Qed.

(** Split the hypothesis [H : m ≫= f = Ok b] along the binds, leaving one
    equation per statement that ran. *)
Ltac split_binds H :=
  repeat (
    lazymatch type of H with
    | (_ ≫= _) = Ok _ =>
        let a := fresh "r" in
        let E := fresh "E" in
        apply bind_Ok in H; destruct H as (a & E & H)
    end;
    repeat match type of H with
    | context [let '(_, _) := ?p in _] => is_var p; destruct p
    end;
    cbv beta iota zeta in H).

Lemma Ok_inj {A : Type} (a b : A) : Ok a = Ok b -> a = b.
Proof.
  intros E.
  exact (f_equal (fun r => match r with Ok x => x | Raise _ => a end) E).
Qed.

(** From [H : Ok (a, .., z) = Ok (a', .., z')] to the equations between the
    components, used to rewrite when one side is a variable. *)
Ltac inv_Ok H :=
  apply Ok_inj in H;
  repeat match goal with
  | E : (_, _) = (_, _) |- _ =>
      let E1 := fresh E in
      apply pair_equal_spec in E; destruct E as [E E1]
  end;
  subst.

Lemma Qc_of_Z_4 : Qc_of_Z 4 = 1 + 1 + 1 + 1.
Proof. apply Qc_is_canon. reflexivity. Qed.

Lemma mean_four (v : Qc) : mean [v; v; v; v] = v.
Proof.
  unfold mean. cbn [foldl length].
  change (Z.of_nat 4) with 4%Z. rewrite Qc_of_Z_4. field. discriminate.
Qed.

Section Properties.
Context `{Imports}.

(** The blocks of [update_stock], read off the value it returned. *)
Lemma update_stock_blocks CP self cp cp_cam st :
  update_stock CP self cp cp_cam = Ok st ->
  let m := Stock.msg st in
  let cs := car.cruiseState m in
  update_body CP cp =
    Ok (car.doorOpen m, car.seatbeltUnlatched m, car.parkingBrake m,
        car.brakePressed m, car.brakeHoldActive m, car.gas m,
        car.gasPressed m)
  /\ update_kinematics CP self cp =
      Ok (Stock.kf st,
          (car.wheelSpeeds m, car.vEgoRaw m, car.vEgo m, car.aEgo m,
           car.vEgoCluster m, car.standstill m))
  /\ update_steering_angle self cp =
      Ok (Stock.seen st, Stock.filt st,
          (car.steeringAngleDeg m, car.steeringRateDeg m,
           car.steeringAngleOffsetDeg m))
  /\ update_cruise CP cp =
      Ok (car.accFaulted m, CruiseState.available cs, CruiseState.speed cs,
          CruiseState.speedCluster cs)
  /\ update_acc_type CP self (cp_acc_of CP cp cp_cam) =
      Ok (Stock.acc st, car.stockFcw m)
  /\ update_low_speed_lockout CP self (Stock.acc st) cp =
      Ok (Stock.lockout st)
  /\ update_hud_resume CP self cp cp_cam = Ok (Stock.hud st, Stock.resume st).
Proof.
  unfold update_stock. intros Hst.
  split_binds Hst. inv_Ok Hst. simpl.
  repeat split; assumption.
Qed.

(** The blocks of [update], read off what it returned. *)
Lemma update_blocks CP self cp cp_cam fv fpf self' o :
  update CP self cp cp_cam fv fpf = Ok (self', o) ->
  exists st dp db calls_distance calls_personality,
    let available := cruise_available (Stock.msg st) in
    update_stock CP self cp cp_cam = Ok st
    /\ read_distance_pressed CP cp (cp_acc_of CP cp cp_cam) = Ok dp
    /\ distance_button_functions self fv available dp =
        Ok (db, calls_distance)
    /\ sync_personality self db fv fpf available cp =
        Ok (personality_profile self', previous_personality_profile self',
            profile_restored self', distance_button self',
            calls_personality)
    /\ update_traffic_signals self cp_cam = Ok (traffic_signals self')
    /\ calculate_speed_limit (traffic_signals self') fv =
        Ok (car_speed_limit o)
    /\ zss_support CP self cp available (car.steeringAngleDeg (Stock.msg st))
        = Ok (zss_of self', car.steeringAngleDeg (ret o))
    /\ ret o =
        set_steeringAngleDeg (car.steeringAngleDeg (ret o)) (Stock.msg st)
    /\ fpf_calls o =
        (lkas_button CP self (Stock.hud st) fv available).2
          ++ calls_distance ++ calls_personality
    /\ lkas_previously_pressed self' =
        (lkas_button CP self (Stock.hud st) fv available).1
    /\ distance_pressed_counter self' = db_counter db
    /\ distance_previously_pressed self' = db_previously_pressed db
    /\ accurate_steer_angle_seen self' = Stock.seen st
    /\ angle_offset self' = Stock.filt st
    /\ low_speed_lockout self' = Stock.lockout st
    /\ acc_type self' = Stock.acc st
    /\ lkas_hud self' = Stock.hud st.
Proof.
  unfold update. intros Hu.
  apply bind_Ok in Hu as (st & Hst & Hu).
  apply bind_Ok in Hu as (dp & Hdp & Hu).
  destruct (lkas_button _ _ _ _ _) as [pressed calls_lkas] eqn:Hlkas.
  split_binds Hu. inv_Ok Hu.
  match goal with z : Zss |- _ => destruct z end.
  exists st, dp. do 3 eexists. simpl.
  repeat split;
    first [eassumption | reflexivity | rewrite Hlkas; reflexivity].
Qed.

(** *** The kinematic estimator *)

(** Lines 85 and 92 on the message. *)
Lemma stock_kinematics CP self cp cp_cam st :
  update_stock CP self cp cp_cam = Ok st ->
  let m := Stock.msg st in
  let ws := car.wheelSpeeds m in
  car.vEgoRaw m =
    mean [WheelSpeeds.fl ws; WheelSpeeds.fr ws;
          WheelSpeeds.rl ws; WheelSpeeds.rr ws]
  /\ car.standstill m = bool_decide (Qcabs (car.vEgoRaw m) < eps_1e_3).
Proof.
  intros Hst. apply update_stock_blocks in Hst as (_ & Hkin & _).
  unfold update_kinematics in Hkin. split_binds Hkin.
  destruct (update_speed_kf _ _) as [kf [vEgo aEgo]].
  inv_Ok Hkin. cbv zeta.
  repeat match goal with
  | E : _ = car.wheelSpeeds _ |- _ => rewrite <- E
  | E : _ = car.vEgoRaw _ |- _ => rewrite <- E
  | E : _ = car.standstill _ |- _ => rewrite <- E
  end.
  split; reflexivity.
Qed.

(** C8.  When the four wheel speeds of the message all equal [v], the raw
    fused speed [vEgoRaw] is [v], the mean of the four, and the standstill
    flag is set exactly when the magnitude of [v] is below 1e-3. *)
Theorem equal_wheel_speeds_fuse CP self cp cp_cam fv fpf self' o (v : Qc) :
  update CP self cp cp_cam fv fpf = Ok (self', o) ->
  WheelSpeeds.fl (car.wheelSpeeds (ret o)) = v ->
  WheelSpeeds.fr (car.wheelSpeeds (ret o)) = v ->
  WheelSpeeds.rl (car.wheelSpeeds (ret o)) = v ->
  WheelSpeeds.rr (car.wheelSpeeds (ret o)) = v ->
  car.vEgoRaw (ret o) = v
  /\ (car.standstill (ret o) = true <-> Qcabs v < eps_1e_3).
Proof.
  intros Hu Hfl Hfr Hrl Hrr.
  apply update_blocks in Hu
    as (st & dp & db & cd & cpers & Hst & _ & _ & _ & _ & _ & _ & Hret & _).
  rewrite Hret in *.
  cbn [set_steeringAngleDeg car.wheelSpeeds car.vEgoRaw car.standstill] in *.
  apply stock_kinematics in Hst as [Hraw Hstand].
  rewrite Hfl, Hfr, Hrl, Hrr, mean_four in Hraw.
  rewrite Hstand, Hraw. split; [reflexivity | apply bool_decide_eq_true].
Qed.

(** *** The steering angle calibrator *)

Lemma filter_guarded_init base CP : filter_guarded (__init__ base CP).
Proof. unfold filter_guarded. simpl. discriminate. Qed.

(** Lines 94-109, by cases on the filter the block leaves. *)
Lemma steering_angle_cases self cp seen filt angle rate off :
  filter_guarded self ->
  update_steering_angle self cp = Ok (seen, filt, (angle, rate, off)) ->
  exists a f t,
    vl_sig cp "STEER_ANGLE_SENSOR" "STEER_ANGLE" = Ok a
    /\ vl_sig cp "STEER_ANGLE_SENSOR" "STEER_FRACTION" = Ok f
    /\ vl_sig cp "STEER_TORQUE_SENSOR" "STEER_ANGLE" = Ok t
    /\ (FirstOrderFilter.initialized filt = true -> seen = true)
    /\ (FirstOrderFilter.initialized filt = false ->
        angle = a + f /\ off = num 0)
    /\ (FirstOrderFilter.initialized filt = true ->
        exists x0,
          FirstOrderFilter.x filt = Some x0
          /\ angle = t - x0 /\ off = x0).
Proof.
  intros Hinv Hs. unfold update_steering_angle in Hs. split_binds Hs.
  match goal with
  | Ea : vl_sig _ _ "STEER_ANGLE" = Ok ?a,
    Ef : vl_sig _ _ "STEER_FRACTION" = Ok ?f,
    Et : vl_sig _ "STEER_TORQUE_SENSOR" _ = Ok ?t |- _ =>
      exists a, f, t; split; [exact Ea|]; split; [exact Ef|];
      split; [exact Et|]
  end.
  match type of Hs with
  | (if ?b then _ else _) = _ => destruct b eqn:Hseen
  end.
  - split_binds Hs.
    destruct (FirstOrderFilter.initialized _) eqn:Hinit.
    + destruct (FirstOrderFilter.x _) as [x0|] eqn:Hx; [|discriminate].
      inv_Ok Hs. rewrite Hinit.
      split; [reflexivity|]. split; [discriminate|].
      intros _. eexists. split; [exact Hx|]. split; reflexivity.
    + inv_Ok Hs. rewrite Hinit.
      split; [reflexivity|]. split; [|discriminate].
      intros _. split; reflexivity.
  - inv_Ok Hs.
    assert (Hself : accurate_steer_angle_seen self = false).
    { match goal with
      | E : _ = Ok false |- _ => revert E
      end.
      destruct (bool_decide (eps_1e_3 < _)); intros Hread.
      - split_binds Hread. apply Ok_inj in Hread.
        destruct (negb _); [discriminate | exact Hread].
      - apply Ok_inj in Hread. exact Hread. }
    assert (Hinit : FirstOrderFilter.initialized (angle_offset self) = false).
    { destruct (FirstOrderFilter.initialized _) eqn:Hi; [|reflexivity].
      rewrite (Hinv Hi) in Hself. discriminate. }
    rewrite Hinit. split; [discriminate|]. split; [|discriminate].
    intros _. split; reflexivity.
Qed.

(** The invariant carries over to the next tick. *)
Lemma filter_guarded_update CP self cp cp_cam fv fpf self' o :
  filter_guarded self ->
  update CP self cp cp_cam fv fpf = Ok (self', o) ->
  filter_guarded self'.
Proof.
  intros Hinv Hu.
  apply update_blocks in Hu as (st & dp & db & cd & cpers & Hst & Hrest).
  destruct Hrest as
    (_ & _ & _ & _ & _ & _ & _ & _ & _ & _ & _ & Hseen & Hfilt & _).
  apply update_stock_blocks in Hst as (_ & _ & Hsteer & _).
  apply steering_angle_cases in Hsteer
    as (a & f & t & _ & _ & _ & Hgate & _); [|exact Hinv].
  unfold filter_guarded. rewrite Hseen, Hfilt. exact Hgate.
Qed.

Lemma filter_guarded_session CP self ts :
  session CP self ts ->
  filter_guarded self ->
  Forall (fun t => filter_guarded (after t)) ts.
Proof.
  intros Hs. induction Hs as [self | self t ts Hb Hu Hs IH]; intros Hg.
  - constructor.
  - pose proof (filter_guarded_update _ _ _ _ _ _ _ _ Hg Hu) as Hg'.
    constructor; [exact Hg' | exact (IH Hg')].
Qed.

(** *** The secondary sensor, one tick *)

Lemma zss_block_angle self available angle zorro :
  let r := zss_block self available angle zorro in
  let candidate := zorro - z_angle_offset r.1 in
  r.2 = if diverges angle candidate then angle else candidate.
Proof.
  unfold zss_block, diverges. cbv zeta.
  destruct (_ && (bool_decide (eps_1e_3 < _) && _)); cbv beta iota;
    destruct (bool_decide (ZSS_THRESHOLD < _)) eqn:Hdiv;
    cbn [fst snd z_angle_offset]; rewrite Hdiv; reflexivity.
Qed.

(** C1, as the code has it.  Before the offset filter is initialized the
    angle that reaches the ZSS block is the raw primary angle
    STEER_ANGLE + STEER_FRACTION, and no offset is reported; once it is
    initialized that angle is the torque-sensor angle minus the filter's
    offset.  The message returns this angle when the ZSS block is not
    active (no ZSS flag, or the counter at its cap) and when the ZSS
    candidate diverges from it; otherwise it returns the ZSS candidate. *)
Theorem steering_bias_gated CP self cp cp_cam fv fpf self' o :
  filter_guarded self ->
  update CP self cp cp_cam fv fpf = Ok (self', o) ->
  exists a f t corrected,
    vl_sig cp "STEER_ANGLE_SENSOR" "STEER_ANGLE" = Ok a
    /\ vl_sig cp "STEER_ANGLE_SENSOR" "STEER_FRACTION" = Ok f
    /\ vl_sig cp "STEER_TORQUE_SENSOR" "STEER_ANGLE" = Ok t
    /\ (FirstOrderFilter.initialized (angle_offset self') = false ->
        corrected = a + f /\ car.steeringAngleOffsetDeg (ret o) = num 0)
    /\ (FirstOrderFilter.initialized (angle_offset self') = true ->
        exists x0,
          FirstOrderFilter.x (angle_offset self') = Some x0
          /\ corrected = t - x0
          /\ car.steeringAngleOffsetDeg (ret o) = x0)
    /\ (zss_active CP self = false ->
        car.steeringAngleDeg (ret o) = corrected)
    /\ (zss_active CP self = true ->
        exists zorro,
          vl_sig cp "SECONDARY_STEER_ANGLE" "ZORRO_STEER" = Ok zorro
          /\ let candidate := zorro - zss_angle_offset self' in
             car.steeringAngleDeg (ret o) =
               if diverges corrected candidate then corrected
               else candidate).
Proof.
  intros Hinv Hu.
  apply update_blocks in Hu as (st & dp & db & cd & cpers & Hst & Hrest).
  destruct Hrest as
    (_ & _ & _ & _ & _ & Hzss & Hret & _ & _ & _ & _ & _ & Hfilt & _).
  apply update_stock_blocks in Hst as (_ & _ & Hsteer & _).
  apply steering_angle_cases in Hsteer
    as (a & f & t & Ha & Hf & Ht & _ & Hraw & Hbias); [|exact Hinv].
  exists a, f, t, (car.steeringAngleDeg (Stock.msg st)).
  rewrite Hfilt, Hret. cbn [set_steeringAngleDeg car.steeringAngleOffsetDeg].
  repeat (split; [assumption|]).
  unfold zss_support in Hzss.
  destruct (zss_active CP self).
  - split; [discriminate|]. intros _.
    apply bind_Ok in Hzss as (zorro & Hzorro & Hzss).
    exists zorro. split; [exact Hzorro|].
    apply Ok_inj in Hzss.
    pose proof (zss_block_angle self (cruise_available (Stock.msg st))
                  (car.steeringAngleDeg (Stock.msg st)) zorro) as Hangle.
    cbv zeta in Hangle. rewrite Hzss in Hangle. simpl in Hangle.
    rewrite Hret in Hangle. exact Hangle.
  - split; [|discriminate]. intros _.
    apply Ok_inj in Hzss. apply pair_equal_spec in Hzss as [_ Hangle].
    rewrite Hret in Hangle. symmetry. exact Hangle.
Qed.

(** C10.  On a ZSS vehicle with the counter below its cap the candidate,
    the secondary reading minus the stored offset, becomes the angle of the
    message on every tick where it is within the threshold of the primary
    angle.  Nothing else is asked: not that an offset was ever computed.
    The stored offset starts at 0, and a tick that has no recompute pending
    and sees no rising edge of cruise availability leaves it alone. *)
Theorem zss_candidate_applied CP self cp cp_cam fv fpf self' o :
  has_flag (flags CP) ToyotaFlags_ZSS = true ->
  (zss_threshold_count self < ZSS_THRESHOLD_COUNT)%Z ->
  update CP self cp cp_cam fv fpf = Ok (self', o) ->
  exists st zorro,
    update_stock CP self cp cp_cam = Ok st
    /\ vl_sig cp "SECONDARY_STEER_ANGLE" "ZORRO_STEER" = Ok zorro
    /\ (let primary := car.steeringAngleDeg (Stock.msg st) in
        let candidate := zorro - zss_angle_offset self' in
        Qcabs (primary - candidate) <= ZSS_THRESHOLD ->
        car.steeringAngleDeg (ret o) = candidate)
    /\ (zss_compute self = false ->
        cruise_available (ret o) && negb (zss_cruise_active_last self)
          = false ->
        zss_angle_offset self' = zss_angle_offset self)
    /\ (forall base, zss_angle_offset (__init__ base CP) = num 0).
Proof.
  intros Hflag Hcount Hu.
  apply update_blocks in Hu as (st & dp & db & cd & cpers & Hst & Hrest).
  destruct Hrest as (_ & _ & _ & _ & _ & Hzss & Hret & _).
  exists st. unfold zss_support, zss_active in Hzss.
  rewrite Hflag in Hzss.
  apply Z.ltb_lt in Hcount. rewrite Hcount in Hzss. cbn [andb] in Hzss.
  apply bind_Ok in Hzss as (zorro & Hzorro & Hzss). apply Ok_inj in Hzss.
  exists zorro. split; [exact Hst|]. split; [exact Hzorro|].
  pose proof (zss_block_angle self (cruise_available (Stock.msg st))
                (car.steeringAngleDeg (Stock.msg st)) zorro) as Hangle.
  cbv zeta in Hangle. rewrite Hzss in Hangle. cbn [fst snd] in Hangle.
  change (z_angle_offset (zss_of self')) with (zss_angle_offset self')
    in Hangle.
  split; [|split].
  - cbv zeta. intros Hnear. rewrite Hangle. unfold diverges.
    rewrite bool_decide_eq_false_2; [reflexivity|].
    apply Qcle_not_lt. exact Hnear.
  - intros Hcompute Hedge.
    assert (Hoff : zss_angle_offset self' =
                   z_angle_offset
                     (zss_block self (cruise_available (Stock.msg st))
                        (car.steeringAngleDeg (Stock.msg st)) zorro).1)
      by (rewrite Hzss; reflexivity).
    rewrite Hoff. unfold zss_block.
    rewrite Hret in Hedge. change (cruise_available (set_steeringAngleDeg
      (car.steeringAngleDeg (ret o)) (Stock.msg st)))
      with (cruise_available (Stock.msg st)) in Hedge.
    rewrite Hedge, Hcompute. cbn [andb].
    destruct (bool_decide (ZSS_THRESHOLD < _)); reflexivity.
  - intros base. reflexivity.
Qed.

(** *** The cruise state resolver *)

(** Lines 160-162 on the attribute, for a tick that returned. *)
Lemma lockout_of_tick CP self cp cp_cam fv fpf self' o :
  update CP self cp cp_cam fv fpf = Ok (self', o) ->
  update_low_speed_lockout CP self (acc_type self') cp =
    Ok (low_speed_lockout self').
Proof.
  intros Hu.
  apply update_blocks in Hu as (st & dp & db & cd & cpers & Hst & Hrest).
  destruct Hrest as
    (_ & _ & _ & _ & _ & _ & _ & _ & _ & _ & _ & _ & _ & Hlock & Hacc & _).
  apply update_stock_blocks in Hst as (_ & _ & _ & _ & _ & Hl & _).
  rewrite Hlock, Hacc. exact Hl.
Qed.

Lemma lockout_conclusive_iff CP acc :
  lockout_conclusive CP acc = true <->
  ((carFingerprint CP ∉ TSS2_CAR)
   /\ (carFingerprint CP ∉ UNSUPPORTED_DSU_CAR))
  \/ ((carFingerprint CP ∈ TSS2_CAR) /\ acc = num 1).
Proof.
  unfold lockout_conclusive.
  rewrite orb_true_iff, !andb_true_iff, !bool_decide_eq_true.
  reflexivity.
Qed.

(** C7.  The flag is assigned from LOW_SPEED_LOCKOUT, true exactly when
    the signal is 2, on the ticks of a vehicle that is neither a TSS2 nor an
    unsupported-DSU variant, and on the ticks of a TSS2 vehicle whose ACC
    type, as current in that tick, is 1.  On every other tick it keeps the
    value it had. *)
Theorem low_speed_lockout_sticky CP self cp cp_cam fv fpf self' o :
  update CP self cp cp_cam fv fpf = Ok (self', o) ->
  let conclusive :=
    ((carFingerprint CP ∉ TSS2_CAR)
     /\ (carFingerprint CP ∉ UNSUPPORTED_DSU_CAR))
    \/ ((carFingerprint CP ∈ TSS2_CAR) /\ acc_type self' = num 1) in
  (conclusive ->
   exists v,
     vl_sig cp "PCM_CRUISE_2" "LOW_SPEED_LOCKOUT" = Ok v
     /\ (low_speed_lockout self' = true <-> v = num 2))
  /\ (~ conclusive -> low_speed_lockout self' = low_speed_lockout self).
Proof.
  intros Hu. apply lockout_of_tick in Hu.
  unfold update_low_speed_lockout in Hu. cbv zeta.
  rewrite <- lockout_conclusive_iff.
  destruct (lockout_conclusive CP (acc_type self')).
  - split; [|intros Hn; contradiction Hn; reflexivity].
    intros _. apply bind_Ok in Hu as (v & Hv & Hu). apply Ok_inj in Hu.
    exists v. split; [exact Hv|]. rewrite <- Hu. apply bool_decide_eq_true.
  - split; [discriminate|]. intros _. apply Ok_inj in Hu.
    symmetry. exact Hu.
Qed.

(** *** The distance button: the unassigned local *)

Lemma distance_wired_iff CP :
  distance_wired CP = false <->
  (carFingerprint CP ∉ TSS2_CAR ∖ RADAR_ACC_CAR)
  /\ (has_flag (flags CP) ToyotaFlags_SMART_DSU = false
      \/ has_flag (flags CP) ToyotaFlags_RADAR_CAN_FILTER = true).
Proof.
  unfold distance_wired, camera_acc.
  rewrite orb_false_iff, andb_false_iff, negb_false_iff,
    bool_decide_eq_false.
  reflexivity.
Qed.

(** C2.  Take a vehicle that is not in TSS2_CAR - RADAR_ACC_CAR and does
    not have SMART_DSU without RADAR_CAN_FILTER.  A tick that reaches the
    FrogPilot functions with cruise available ends in UnboundLocalError on
    [distance_pressed]; so no call of [update] on such a vehicle returns a
    message with cruise available. *)
Theorem distance_pressed_unbound CP self cp cp_cam fv fpf :
  (carFingerprint CP ∉ TSS2_CAR ∖ RADAR_ACC_CAR) ->
  has_flag (flags CP) ToyotaFlags_SMART_DSU = false
  \/ has_flag (flags CP) ToyotaFlags_RADAR_CAN_FILTER = true ->
  (forall st,
     update_stock CP self cp cp_cam = Ok st ->
     cruise_available (Stock.msg st) = true ->
     update CP self cp cp_cam fv fpf =
       Raise (UnboundLocalError "distance_pressed"))
  /\ (forall self' o,
       update CP self cp cp_cam fv fpf = Ok (self', o) ->
       cruise_available (ret o) = false)
  /\ read_distance_pressed CP cp (cp_acc_of CP cp cp_cam) = Ok None.
Proof.
  intros Hfp Hflags.
  assert (Hwired : distance_wired CP = false)
    by (apply distance_wired_iff; split; assumption).
  assert (Hread : read_distance_pressed CP cp (cp_acc_of CP cp cp_cam)
                  = Ok None)
    by (unfold read_distance_pressed; rewrite Hwired; reflexivity).
  assert (Hraise : forall st,
     update_stock CP self cp cp_cam = Ok st ->
     cruise_available (Stock.msg st) = true ->
     update CP self cp cp_cam fv fpf =
       Raise (UnboundLocalError "distance_pressed")).
  { intros st Hst Hav. unfold update. rewrite Hst. cbn [mbind result_bind].
    rewrite Hread. cbn [mbind result_bind].
    destruct (lkas_button _ _ _ _ _) as [pressed calls].
    unfold distance_button_functions. rewrite Hav. reflexivity. }
  split; [exact Hraise|]. split; [|exact Hread].
  intros self' o Hu.
  destruct (cruise_available (ret o)) eqn:Hav; [|reflexivity].
  pose proof Hu as Hb.
  apply update_blocks in Hb as (st & dp & db & cd & cpers & Hst & Hrest).
  destruct Hrest as (_ & _ & _ & _ & _ & _ & Hret & _).
  rewrite Hret in Hav.
  rewrite (Hraise st Hst Hav) in Hu. discriminate.
Qed.

(** *** The traffic-sign accumulator *)

Lemma approx_kph :
  Qcabs (num 100 * CV.KPH_TO_MS - frac 2778 100) < frac 1 100.
Proof. vm_compute. reflexivity. Qed.

Lemma approx_mph :
  Qcabs (num 55 * CV.MPH_TO_MS - frac 2459 100) < frac 1 100.
Proof. vm_compute. reflexivity. Qed.

(** C5.  With SPDVAL1 cached as [v]: when TSGN1 is 1 and the override is
    off the limit is [v] converted from km/h; when TSGN1 is 36, or the
    override is on, it is [v] converted from mph.  Whatever the cache
    holds, the empty cache included, the limit is 0 in every other case.
    100 km/h is 27.78 m/s and 55 mph is 24.59 m/s to two decimals. *)
Theorem speed_limit_extraction (cache : gmap string (option Qc))
    (fv : FrogPilotVariables) (v : Qc) :
  cache_get cache "SPDVAL1" = Some v ->
  (cache_get cache "TSGN1" = Some (num 1) ->
   force_mph_dashboard fv = false ->
   calculate_speed_limit cache fv = Ok (v * CV.KPH_TO_MS))
  /\ (cache_get cache "TSGN1" = Some (num 36)
      \/ force_mph_dashboard fv = true ->
      calculate_speed_limit cache fv = Ok (v * CV.MPH_TO_MS))
  /\ (forall other : gmap string (option Qc),
       cache_get other "TSGN1" <> Some (num 1) ->
       cache_get other "TSGN1" <> Some (num 36) ->
       force_mph_dashboard fv = false ->
       calculate_speed_limit other fv = Ok (num 0))
  /\ (force_mph_dashboard fv = false ->
      calculate_speed_limit ∅ fv = Ok (num 0))
  /\ Qcabs (num 100 * CV.KPH_TO_MS - frac 2778 100) < frac 1 100
  /\ Qcabs (num 55 * CV.MPH_TO_MS - frac 2459 100) < frac 1 100.
Proof.
  intros Hv. unfold calculate_speed_limit. rewrite Hv.
  split; [|split; [|split; [|split; [|split]]]].
  - intros -> ->. rewrite bool_decide_eq_true_2 by reflexivity. reflexivity.
  - intros [Ht | Hf].
    + rewrite Ht.
      rewrite (bool_decide_eq_false_2 (Some (num 36) = Some (num 1)))
        by (intros E; apply (f_equal (fun o => bool_decide (o = Some (num 1))))
              in E; vm_compute in E; discriminate).
      rewrite bool_decide_eq_true_2 by reflexivity. reflexivity.
    + rewrite Hf, andb_false_r, orb_true_r. reflexivity.
  - intros other H1 H36 ->.
    rewrite !bool_decide_eq_false_2 by assumption. reflexivity.
  - intros ->. reflexivity.
  - exact approx_kph.
  - exact approx_mph.
Qed.

(** Without a cached SPDVAL1 a converting branch multiplies [None]. *)
Lemma speed_limit_without_value (cache : gmap string (option Qc))
    (fv : FrogPilotVariables) :
  cache_get cache "SPDVAL1" = None ->
  cache_get cache "TSGN1" = Some (num 1)
  \/ cache_get cache "TSGN1" = Some (num 36)
  \/ force_mph_dashboard fv = true ->
  calculate_speed_limit cache fv = Raise TypeError.
Proof.
  intros Hv Hcase. unfold calculate_speed_limit. rewrite Hv.
  destruct (bool_decide (cache_get cache "TSGN1" = Some (num 1))
            && negb (force_mph_dashboard fv)) eqn:H1; [reflexivity|].
  destruct (bool_decide (cache_get cache "TSGN1" = Some (num 36))
            || force_mph_dashboard fv) eqn:H2; [reflexivity|].
  apply orb_false_iff in H2 as [H36 Hf].
  rewrite Hf, andb_true_r in H1.
  apply bool_decide_eq_false in H1, H36.
  destruct Hcase as [Hc | [Hc | Hc]];
    [contradiction | contradiction | rewrite Hf in Hc; discriminate].
Qed.

(** The nine values [update_traffic_signals] assembles from the frame. *)
Lemma traffic_signals_assembled self cp_cam cache' :
  update_traffic_signals self cp_cam = Ok cache' ->
  exists rsa1 rsa2,
    vl_msg cp_cam "RSA1" = Ok rsa1
    /\ vl_msg cp_cam "RSA2" = Ok rsa2
    /\ cache' =
       if bool_decide (new_values rsa1 rsa2 <> traffic_signals self)
       then new_values rsa1 rsa2 ∪ traffic_signals self
       else traffic_signals self.
Proof.
  unfold update_traffic_signals. intros Hu.
  apply bind_Ok in Hu as (rsa1 & H1 & Hu).
  apply bind_Ok in Hu as (rsa2 & H2 & Hu).
  exists rsa1, rsa2. split; [exact H1|]. split; [exact H2|].
  destruct (bool_decide _); apply Ok_inj in Hu; symmetry; exact Hu.
Qed.

(** C9.  [update_traffic_signals] changes the cache only when the nine
    values it assembled differ, as a set, from the cache.  When they are
    the cache, the cache stays as it is, and so does the speed limit
    derived from it: the limit the tick stores is the one the previous
    cache gives. *)
Theorem traffic_cache_updates_on_change CP self cp cp_cam fv fpf self' o :
  update CP self cp cp_cam fv fpf = Ok (self', o) ->
  exists rsa1 rsa2,
    vl_msg cp_cam "RSA1" = Ok rsa1
    /\ vl_msg cp_cam "RSA2" = Ok rsa2
    /\ update_traffic_signals self cp_cam = Ok (traffic_signals self')
    /\ (traffic_signals self' <> traffic_signals self ->
        new_values rsa1 rsa2 <> traffic_signals self)
    /\ (new_values rsa1 rsa2 = traffic_signals self ->
        traffic_signals self' = traffic_signals self
        /\ (forall fv',
              calculate_speed_limit (traffic_signals self') fv' =
              calculate_speed_limit (traffic_signals self) fv')
        /\ calculate_speed_limit (traffic_signals self) fv =
           Ok (car_speed_limit o)).
Proof.
  intros Hu.
  apply update_blocks in Hu as (st & dp & db & cd & cpers & _ & Hrest).
  destruct Hrest as (_ & _ & _ & Hcache & Hlimit & _).
  pose proof Hcache as Hc.
  apply traffic_signals_assembled in Hc as (rsa1 & rsa2 & H1 & H2 & Hc).
  exists rsa1, rsa2.
  split; [exact H1|]. split; [exact H2|]. split; [exact Hcache|].
  destruct (bool_decide (new_values rsa1 rsa2 <> traffic_signals self))
    eqn:Hneq.
  - apply bool_decide_eq_true in Hneq. split; [intros _; exact Hneq|].
    intros Heq. contradiction.
  - rewrite Hc in *. split; [intros Hn; contradiction Hn; reflexivity|].
    intros _. split; [reflexivity|]. split; [reflexivity | exact Hlimit].
Qed.

(** ** Sessions *)

Lemma tick_Ok CP self i t :
  tick CP self i = Ok t ->
  before t = self /\ input t = i
  /\ update CP self (in_cp i) (in_cp_cam i) (in_fv i) (in_fpf i) =
     Ok (after t, output t).
Proof.
  unfold tick. intros Ht.
  apply bind_Ok in Ht as ([self' o] & Hu & Ht). apply Ok_inj in Ht.
  subst t. repeat split. exact Hu.
Qed.

Lemma run_session CP ins : forall self ts,
  run CP self ins = Ok ts ->
  session CP self ts /\ input <$> ts = ins.
Proof.
  induction ins as [|i ins IH]; intros self ts Hrun; simpl in Hrun.
  - apply Ok_inj in Hrun. subst ts. split; [constructor | reflexivity].
  - apply bind_Ok in Hrun as (t & Ht & Hrun).
    apply bind_Ok in Hrun as (ts' & Hts & Hrun).
    apply Ok_inj in Hrun. subst ts.
    apply tick_Ok in Ht as (Hb & Hi & Hu).
    apply IH in Hts as [Hs Hins].
    split.
    + constructor; [exact Hb | rewrite Hi; exact Hu | exact Hs].
    + cbn [fmap list_fmap]. rewrite Hi. f_equal. exact Hins.
Qed.

(** *** The secondary sensor, once the counter is at its cap *)

Lemma vl_msg_without cp (m : string) :
  m <> "SECONDARY_STEER_ANGLE"%string ->
  vl_msg (without_zorro cp) m = vl_msg cp m.
Proof.
  intros Hm. unfold vl_msg, without_zorro. cbn [vl].
  rewrite lookup_delete_ne by (intros E; apply Hm; symmetry; exact E).
  reflexivity.
Qed.

Lemma vl_sig_without cp (m sg : string) :
  m <> "SECONDARY_STEER_ANGLE"%string ->
  vl_sig (without_zorro cp) m sg = vl_sig cp m sg.
Proof. intros Hm. unfold vl_sig. rewrite vl_msg_without by exact Hm. reflexivity. Qed.

(** Rewrite every read of another message on the cut frame into the read on
    the frame itself. *)
Ltac same_reads :=
  repeat match goal with
  | |- context [vl_sig (without_zorro ?cp) ?m ?sg] =>
      rewrite (vl_sig_without cp m sg) by discriminate
  | |- context [vl_msg (without_zorro ?cp) ?m] =>
      rewrite (vl_msg_without cp m) by discriminate
  end.

Lemma update_stock_without CP self cp cp_cam :
  update_stock CP self (without_zorro cp) cp_cam =
  update_stock CP self cp cp_cam.
Proof.
  unfold update_stock, update_body, update_kinematics,
    update_steering_angle, update_gear_torque_faults, update_cruise,
    update_acc_type, update_low_speed_lockout, update_pcm_cruise,
    update_aeb_bsm, update_hud_resume, cp_acc_of.
  destruct (camera_acc CP); same_reads; reflexivity.
Qed.

(** With the ZSS block off, the message of the secondary sensor is not
    read: the call does the same on the frame without it. *)
Lemma update_without CP self cp cp_cam fv fpf :
  zss_active CP self = false ->
  update CP self (without_zorro cp) cp_cam fv fpf =
  update CP self cp cp_cam fv fpf.
Proof.
  intros Hoff. unfold update. rewrite update_stock_without.
  unfold zss_support. rewrite Hoff.
  unfold read_distance_pressed, sync_personality, cp_acc_of.
  destruct (camera_acc CP); same_reads; reflexivity.
Qed.

Lemma zss_off_of_count CP self :
  (ZSS_THRESHOLD_COUNT <= zss_threshold_count self)%Z ->
  zss_active CP self = false.
Proof.
  intros Hc. unfold zss_active.
  apply Z.ltb_ge in Hc. rewrite Hc. apply andb_false_r.
Qed.

(** With the ZSS block off, a tick leaves its attributes and the angle of
    the message alone. *)
Lemma zss_off_tick CP self cp cp_cam fv fpf self' o :
  zss_active CP self = false ->
  update CP self cp cp_cam fv fpf = Ok (self', o) ->
  zss_of self' = zss_of self
  /\ exists st,
       update_stock CP self cp cp_cam = Ok st
       /\ car.steeringAngleDeg (ret o) = car.steeringAngleDeg (Stock.msg st).
Proof.
  intros Hoff Hu.
  apply update_blocks in Hu as (st & dp & db & cd & cpers & Hst & Hrest).
  destruct Hrest as (_ & _ & _ & _ & _ & Hzss & _).
  unfold zss_support in Hzss. rewrite Hoff in Hzss.
  apply Ok_inj in Hzss. apply pair_equal_spec in Hzss as [Hz Ha].
  split; [symmetry; exact Hz|].
  exists st. split; [exact Hst | symmetry; exact Ha].
Qed.

Lemma zss_of_count self self' :
  zss_of self' = zss_of self ->
  zss_threshold_count self' = zss_threshold_count self.
Proof. intros E. exact (f_equal z_threshold_count E). Qed.

Lemma zss_disabled_session CP self ts :
  (ZSS_THRESHOLD_COUNT <= zss_threshold_count self)%Z ->
  session CP self ts ->
  Forall (fun t =>
    zss_of (before t) = zss_of self
    /\ zss_of (after t) = zss_of self
    /\ update CP (before t) (without_zorro (in_cp (input t)))
         (in_cp_cam (input t)) (in_fv (input t)) (in_fpf (input t))
       = Ok (after t, output t)
    /\ exists st,
         tick_stock CP t = Ok st
         /\ car.steeringAngleDeg (ret (output t)) =
            car.steeringAngleDeg (Stock.msg st)) ts.
Proof.
  intros Hcap Hs. induction Hs as [self | self t ts Hb Hu Hs IH].
  - constructor.
  - pose proof (zss_off_of_count CP self Hcap) as Hoff.
    destruct (zss_off_tick _ _ _ _ _ _ _ _ Hoff Hu) as (Hz & st & Hst & Ha).
    constructor.
    + rewrite Hb. split; [reflexivity|]. split; [exact Hz|].
      split; [rewrite update_without by exact Hoff; exact Hu|].
      exists st. unfold tick_stock. rewrite Hb. split; assumption.
    + assert (Hcap' : (ZSS_THRESHOLD_COUNT <= zss_threshold_count (after t))%Z)
        by (rewrite (zss_of_count _ _ Hz); exact Hcap).
      specialize (IH Hcap'). rewrite Hz in IH. exact IH.
Qed.

(** C3.  Once the divergence counter is at its cap, no tick of the rest of
    the session consults the secondary sensor.  Every tick leaves the ZSS
    attributes as they were (no offset recomputed, no count, no edge
    noted), returns the angle lines 94-109 computed, and does exactly the
    same on a frame from which the message of the secondary sensor has been
    removed, so it never reads it; the cruise availability of the ticks
    plays no part. *)
Theorem zss_disabled_for_good CP self ins ts :
  (ZSS_THRESHOLD_COUNT <= zss_threshold_count self)%Z ->
  run CP self ins = Ok ts ->
  Forall (fun t =>
    zss_of (before t) = zss_of self
    /\ zss_of (after t) = zss_of self
    /\ update CP (before t) (without_zorro (in_cp (input t)))
         (in_cp_cam (input t)) (in_fv (input t)) (in_fpf (input t))
       = Ok (after t, output t)
    /\ exists st,
         tick_stock CP t = Ok st
         /\ car.steeringAngleDeg (ret (output t)) =
            car.steeringAngleDeg (Stock.msg st)) ts.
Proof.
  intros Hcap Hrun. apply run_session in Hrun as [Hs _].
  apply zss_disabled_session; assumption.
Qed.

(** *** The secondary sensor, from one rising edge to the next *)

(** Lines 270-279 in terms of the pending flag. *)
Lemma zss_block_state self available angle zorro :
  let edge := available && negb (zss_cruise_active_last self) in
  let pending := edge || zss_compute self in
  let ready :=
    bool_decide (eps_1e_3 < Qcabs angle)
    && bool_decide (eps_1e_3 < Qcabs zorro) in
  let z := (zss_block self available angle zorro).1 in
  z_compute z = pending && negb ready
  /\ z_angle_offset z =
     (if pending && ready then zorro - angle else zss_angle_offset self)
  /\ z_cruise_active_last z = available
  /\ z_threshold_count z =
     ((if edge then 0 else zss_threshold_count self)
      + (if diverges angle (zorro - z_angle_offset z) then 1 else 0))%Z.
Proof.
  unfold zss_block, diverges. cbv zeta.
  destruct (available && negb (zss_cruise_active_last self));
    destruct (zss_compute self);
    destruct (bool_decide (eps_1e_3 < Qcabs angle)
              && bool_decide (eps_1e_3 < Qcabs zorro));
    cbn [orb andb negb];
    destruct (bool_decide (ZSS_THRESHOLD < _)) eqn:Hdiv;
    cbn [fst z_compute z_angle_offset z_cruise_active_last
         z_threshold_count];
    rewrite Hdiv; repeat split; lia.
Qed.

(** One tick of a session with the ZSS block on. *)
Lemma zss_on_tick CP t :
  update CP (before t) (in_cp (input t)) (in_cp_cam (input t))
    (in_fv (input t)) (in_fpf (input t)) = Ok (after t, output t) ->
  zss_on CP t = true ->
  let pending := rising_edge t || zss_compute (before t) in
  zss_compute (after t) = pending && negb (both_nonzero CP t)
  /\ zss_angle_offset (after t) =
     (if pending && both_nonzero CP t
      then tick_zorro t - tick_primary CP t
      else zss_angle_offset (before t))
  /\ zss_cruise_active_last (after t) = tick_available t
  /\ zss_threshold_count (after t) =
     ((if rising_edge t then 0 else zss_threshold_count (before t))
      + (if tick_diverged CP t then 1 else 0))%Z.
Proof.
  intros Hu Hon.
  apply update_blocks in Hu as (st & dp & db & cd & cpers & Hst & Hrest).
  destruct Hrest as (_ & _ & _ & _ & _ & Hzss & Hret & _).
  unfold zss_on in Hon. unfold zss_support in Hzss. rewrite Hon in Hzss.
  apply bind_Ok in Hzss as (zorro & Hzorro & Hzss). apply Ok_inj in Hzss.
  pose proof (zss_block_state (before t) (cruise_available (Stock.msg st))
                (car.steeringAngleDeg (Stock.msg st)) zorro) as Hb.
  cbv zeta in Hb. rewrite Hzss in Hb. cbn [fst] in Hb.
  unfold rising_edge, both_nonzero, tick_diverged, tick_primary, tick_zorro,
    tick_available, tick_stock.
  rewrite Hst, Hzorro, Hret.
  exact Hb.
Qed.

(** A diverging tick that is not a rising edge counts one. *)
Lemma zss_counts_divergence CP t :
  update CP (before t) (in_cp (input t)) (in_cp_cam (input t))
    (in_fv (input t)) (in_fpf (input t)) = Ok (after t, output t) ->
  zss_on CP t = true ->
  rising_edge t = false ->
  tick_diverged CP t = true ->
  zss_threshold_count (after t) = (zss_threshold_count (before t) + 1)%Z.
Proof.
  intros Hu Hon Hedge Hdiv.
  destruct (zss_on_tick CP t Hu Hon) as (_ & _ & _ & Hc).
  rewrite Hedge, Hdiv in Hc. exact Hc.
Qed.

Lemma session_inv CP self t ts :
  session CP self (t :: ts) ->
  before t = self
  /\ update CP (before t) (in_cp (input t)) (in_cp_cam (input t))
       (in_fv (input t)) (in_fpf (input t)) = Ok (after t, output t)
  /\ session CP (after t) ts.
Proof.
  intros Hs. inversion Hs as [|self0 t0 ts0 Hb Hu Hrest]; subst.
  repeat split; assumption.
Qed.

(** While a recompute is pending and the angles are not both nonzero, the
    offset waits; the first tick on which they are takes it. *)
Lemma zss_wait_then_take CP hit post : forall pre self,
  session CP self (pre ++ hit :: post) ->
  rising_edge (hd hit pre) || zss_compute self = true ->
  Forall (fun t => zss_on CP t = true /\ both_nonzero CP t = false) pre ->
  zss_on CP hit = true ->
  both_nonzero CP hit = true ->
  Forall (fun t =>
    zss_angle_offset (after t) = zss_angle_offset self
    /\ zss_compute (after t) = true) pre
  /\ zss_angle_offset (after hit) = tick_zorro hit - tick_primary CP hit
  /\ zss_compute (after hit) = false
  /\ session CP (after hit) post.
Proof.
  induction pre as [|t pre IH]; intros self Hs Hpend Hpre Hon Hboth.
  - cbn [app hd] in *. apply session_inv in Hs as (Hb & Hu & Hpost).
    destruct (zss_on_tick CP hit Hu Hon) as (Hc & Ho & _).
    rewrite Hb, Hpend, Hboth in Hc, Ho.
    split; [constructor|]. repeat split; assumption.
  - cbn [app hd] in *. apply session_inv in Hs as (Hb & Hu & Hrest).
    apply Forall_cons in Hpre as [[Hton Htz] Hpre].
    destruct (zss_on_tick CP t Hu Hton) as (Hc & Ho & _).
    rewrite Hb, Hpend, Htz in Hc, Ho. cbn [andb negb] in Hc, Ho.
    destruct (IH (after t) Hrest) as (Hwait & Htake & Hdone & Hpost);
      [rewrite Hc; apply orb_true_r | assumption ..|].
    split; [|repeat split; assumption].
    constructor; [split; assumption|].
    eapply Forall_impl; [exact Hwait|].
    intros t' [Ho' Hc']. rewrite Ho' , Ho. split; [reflexivity | exact Hc'].
Qed.

(** With nothing pending and no rising edge, the offset stays. *)
Lemma zss_quiet CP later : forall quiet self,
  session CP self (quiet ++ later) ->
  zss_compute self = false ->
  Forall (fun t => zss_on CP t && rising_edge t = false) quiet ->
  Forall (fun t =>
    zss_angle_offset (after t) = zss_angle_offset self
    /\ zss_compute (after t) = false) quiet.
Proof.
  induction quiet as [|t quiet IH]; intros self Hs Hidle Hq.
  - constructor.
  - cbn [app] in Hs. apply session_inv in Hs as (Hb & Hu & Hrest).
    apply Forall_cons in Hq as [Ht Hq].
    assert (Hkeep : zss_angle_offset (after t) = zss_angle_offset self
                    /\ zss_compute (after t) = false).
    { destruct (zss_on CP t) eqn:Hon.
      - cbn [andb] in Ht.
        destruct (zss_on_tick CP t Hu Hon) as (Hc & Ho & _).
        rewrite Hb, Ht, Hidle in Hc, Ho. cbn [orb andb] in Hc, Ho.
        split; assumption.
      - unfold zss_on in Hon.
        destruct (zss_off_tick _ _ _ _ _ _ _ _ Hon Hu) as (Hz & _).
        rewrite Hb in Hz.
        split.
        + exact (f_equal z_angle_offset Hz).
        + rewrite <- Hidle. exact (f_equal z_compute Hz). }
    destruct Hkeep as [Ho Hc].
    constructor; [split; assumption|].
    specialize (IH (after t) Hrest Hc Hq).
    eapply Forall_impl; [exact IH|].
    intros t' [Ho' Hc']. rewrite Ho', Ho. split; [reflexivity | exact Hc'].
Qed.

(** C4.  Take a session whose first tick is a rising edge of cruise
    availability with the ZSS block on, followed by ticks on which the
    block is on and the two angles are not both above 1e-3, up to a tick
    [hit] on which they are.  The edge tick sets the counter to zero before
    its divergence check, so it ends the tick at 0 or 1.  The offset is not
    touched while waiting, is set to secondary minus primary on [hit], and
    is not set again on any later tick before the next rising edge. *)
Theorem zss_offset_once_per_edge CP self ins pre hit post :
  run CP self ins = Ok (pre ++ hit :: post) ->
  rising_edge (hd hit pre) = true ->
  Forall (fun t => zss_on CP t = true /\ both_nonzero CP t = false) pre ->
  zss_on CP hit = true ->
  both_nonzero CP hit = true ->
  zss_threshold_count (after (hd hit pre)) =
    (if tick_diverged CP (hd hit pre) then 1 else 0)%Z
  /\ Forall (fun t =>
       zss_angle_offset (after t) = zss_angle_offset self
       /\ zss_compute (after t) = true) pre
  /\ zss_angle_offset (after hit) = tick_zorro hit - tick_primary CP hit
  /\ zss_compute (after hit) = false
  /\ (forall quiet later,
       post = quiet ++ later ->
       Forall (fun t => zss_on CP t && rising_edge t = false) quiet ->
       Forall (fun t =>
         zss_angle_offset (after t) = zss_angle_offset (after hit)) quiet).
Proof.
  intros Hrun Hedge Hpre Hon Hboth.
  apply run_session in Hrun as [Hs _].
  assert (Hcount : zss_threshold_count (after (hd hit pre)) =
                   (if tick_diverged CP (hd hit pre) then 1 else 0)%Z).
  { assert (Hfirst : exists ts, session CP self (hd hit pre :: ts)
                                /\ zss_on CP (hd hit pre) = true).
    { destruct pre as [|t pre]; cbn [hd app] in *.
      - eexists. split; [exact Hs | exact Hon].
      - apply Forall_cons in Hpre as [[Hton _] _].
        eexists. split; [exact Hs | exact Hton]. }
    destruct Hfirst as (ts & Hs1 & Hon1).
    apply session_inv in Hs1 as (_ & Hu & _).
    destruct (zss_on_tick CP _ Hu Hon1) as (_ & _ & _ & Hc).
    rewrite Hedge in Hc. exact Hc. }
  destruct (zss_wait_then_take CP hit post pre self Hs)
    as (Hwait & Htake & Hdone & Hpost);
    [rewrite Hedge; reflexivity | assumption ..|].
  split; [exact Hcount|]. split; [exact Hwait|].
  split; [exact Htake|]. split; [exact Hdone|].
  intros quiet later -> Hq.
  eapply Forall_impl; [apply (zss_quiet CP later quiet _ Hpost Hdone Hq)|].
  intros t [Ho _]. exact Ho.
Qed.

(** *** The distance button *)

Lemma threshold_calls_none fv counter :
  counter <> CRUISE_LONG_PRESS ->
  counter <> (CRUISE_LONG_PRESS * 5)%Z ->
  threshold_calls fv counter = [].
Proof.
  intros H1 H5. unfold threshold_calls.
  apply Z.eqb_neq in H1. apply Z.eqb_neq in H5. rewrite H1, H5.
  reflexivity.
Qed.

Lemma is_toggle_toggle_call fv : is_toggle (toggle_call fv update_cestatus_distance) = true.
Proof. unfold toggle_call. destruct (conditional_experimental_mode fv); reflexivity. Qed.

Lemma is_cycle_toggle_call fv : is_cycle (toggle_call fv update_cestatus_distance) = false.
Proof. unfold toggle_call. destruct (conditional_experimental_mode fv); reflexivity. Qed.

Lemma button_calls_threshold fv counter cpers :
  cpers = [] \/ cpers = [reset_personality_changed_param]%list ->
  button_calls (threshold_calls fv counter ++ cpers) =
  threshold_calls fv counter.
Proof.
  intros Hp. unfold button_calls, threshold_calls, toggle_call.
  rewrite !List.filter_app.
  assert (Hc : List.filter
                 (fun c => negb (bool_decide
                                   (c = reset_personality_changed_param)))
                 cpers = []).
  { destruct Hp as [-> | ->]; reflexivity. }
  rewrite Hc, app_nil_r.
  destruct (_ && experimental_mode_via_distance fv), (_ && traffic_mode fv),
    (conditional_experimental_mode fv); reflexivity.
Qed.

(** The block on a tick with cruise available, by the state of the
    button. *)
Lemma distance_pressed_step self fv d :
  truthy d = true ->
  distance_button_functions self fv true (Some d) =
    Ok ({| db_counter := (distance_pressed_counter self + 1)%Z;
           db_previously_pressed := d;
           db_previous_personality_profile :=
             previous_personality_profile self;
           db_profile_restored := profile_restored self |},
        threshold_calls fv (distance_pressed_counter self + 1)).
Proof.
  intros Hd. unfold distance_button_functions, threshold_calls.
  rewrite Hd. reflexivity.
Qed.

Lemma distance_released_step self fv d :
  truthy d = false ->
  truthy (distance_previously_pressed self) = true ->
  let profile := py_mod (personality_profile self + num 2) (num 3) in
  distance_button_functions self fv true (Some d) =
    if (distance_pressed_counter self <? CRUISE_LONG_PRESS)%Z then
      Ok ({| db_counter := 0;
             db_previously_pressed := d;
             db_previous_personality_profile := profile;
             db_profile_restored := false |},
          distance_button_function profile :: threshold_calls fv 0)
    else
      Ok ({| db_counter := 0;
             db_previously_pressed := d;
             db_previous_personality_profile :=
               previous_personality_profile self;
             db_profile_restored := profile_restored self |},
          threshold_calls fv 0).
Proof.
  intros Hd Hp. unfold distance_button_functions, threshold_calls.
  rewrite Hd, Hp.
  destruct (distance_pressed_counter self <? CRUISE_LONG_PRESS)%Z;
    reflexivity.
Qed.

Lemma distance_idle_step self fv d :
  truthy d = false ->
  truthy (distance_previously_pressed self) = false ->
  distance_button_functions self fv true (Some d) =
    Ok ({| db_counter := distance_pressed_counter self;
           db_previously_pressed := d;
           db_previous_personality_profile :=
             previous_personality_profile self;
           db_profile_restored := profile_restored self |},
        threshold_calls fv (distance_pressed_counter self)).
Proof.
  intros Hd Hp. unfold distance_button_functions, threshold_calls.
  rewrite Hd, Hp. reflexivity.
Qed.

(** A tick with cruise available and the LKAS gesture off: the button was
    read, and the calls are those of the distance block followed by at most
    the acknowledgement of the personality block. *)
Lemma distance_tick CP t :
  update CP (before t) (in_cp (input t)) (in_cp_cam (input t))
    (in_fv (input t)) (in_fpf (input t)) = Ok (after t, output t) ->
  tick_available t = true ->
  lkas_off t = true ->
  exists d db calls cpers,
    button CP t = Some d
    /\ distance_button_functions (before t) (in_fv (input t)) true (Some d)
       = Ok (db, calls)
    /\ distance_pressed_counter (after t) = db_counter db
    /\ distance_previously_pressed (after t) = d
    /\ fpf_calls (output t) = calls ++ cpers
    /\ (cpers = [] \/ cpers = [reset_personality_changed_param]%list).
Proof.
  intros Hu Hav Hlkas.
  apply update_blocks in Hu as (st & dp & db & cd & cpers & Hst & Hrest).
  destruct Hrest as
    (Hdp & Hdb & Hsync & _ & _ & _ & Hret & Hcalls & _ & Hcount & Hprev & _).
  assert (Hav' : cruise_available (Stock.msg st) = true).
  { unfold tick_available in Hav. rewrite Hret in Hav. exact Hav. }
  rewrite Hav' in Hdb, Hsync, Hcalls.
  destruct dp as [d|].
  2:{ unfold distance_button_functions in Hdb. discriminate. }
  exists d, db, cd, cpers.
  split; [unfold button; rewrite Hdp; reflexivity|].
  split; [exact Hdb|]. split; [exact Hcount|].
  split.
  { rewrite Hprev. unfold distance_button_functions in Hdb.
    destruct (truthy d); [|destruct (truthy _); [destruct (_ <? _)%Z|]];
      cbv beta iota zeta in Hdb; apply Ok_inj in Hdb;
      apply pair_equal_spec in Hdb as [Hdb _]; rewrite <- Hdb; reflexivity. }
  split.
  { rewrite Hcalls. unfold lkas_button.
    unfold lkas_off in Hlkas. apply negb_true_iff in Hlkas.
    rewrite Hlkas. reflexivity. }
  unfold sync_personality in Hsync.
  destruct (personalities_via_wheel _ && true).
  - apply bind_Ok in Hsync as (lines & _ & Hsync).
    destruct (personality_changed_via_ui _);
      cbv beta iota zeta in Hsync; apply Ok_inj in Hsync;
      repeat (apply pair_equal_spec in Hsync as [Hsync ?]); subst cpers;
      [right | left]; reflexivity.
  - apply Ok_inj in Hsync.
    repeat (apply pair_equal_spec in Hsync as [Hsync ?]). subst cpers.
    left. reflexivity.
Qed.

Lemma calls_of_cons t ts :
  calls_of (t :: ts) = fpf_calls (output t) ++ calls_of ts.
Proof. reflexivity. Qed.

Lemma calls_of_app ts1 ts2 :
  calls_of (ts1 ++ ts2) = calls_of ts1 ++ calls_of ts2.
Proof.
  induction ts1 as [|t ts1 IH]; [reflexivity|].
  cbn [app]. rewrite !calls_of_cons, IH, app_assoc. reflexivity.
Qed.

Lemma no_events_in_ack cpers :
  cpers = [] \/ cpers = [reset_personality_changed_param]%list ->
  List.filter is_toggle cpers = [] /\ List.filter is_cycle cpers = [].
Proof. intros [-> | ->]; split; reflexivity. Qed.

(** The events at a counter that is at neither threshold. *)
Lemma events_off_threshold fv counter cpers :
  counter <> CRUISE_LONG_PRESS ->
  counter <> (CRUISE_LONG_PRESS * 5)%Z ->
  cpers = [] \/ cpers = [reset_personality_changed_param]%list ->
  List.filter is_toggle (threshold_calls fv counter ++ cpers) = []
  /\ List.filter is_cycle (threshold_calls fv counter ++ cpers) = [].
Proof.
  intros H1 H5 Hp. rewrite threshold_calls_none by assumption.
  apply no_events_in_ack. exact Hp.
Qed.

(** The events at the first threshold. *)
Lemma events_at_threshold fv cpers :
  (0 < CRUISE_LONG_PRESS)%Z ->
  experimental_mode_via_distance fv = true ->
  cpers = [] \/ cpers = [reset_personality_changed_param]%list ->
  List.filter is_toggle (threshold_calls fv CRUISE_LONG_PRESS ++ cpers) =
    [toggle_call fv update_cestatus_distance]%list
  /\ List.filter is_cycle (threshold_calls fv CRUISE_LONG_PRESS ++ cpers)
     = [].
Proof.
  intros Hpos Hvia Hp. unfold threshold_calls.
  rewrite Z.eqb_refl, Hvia.
  assert (H5 : (CRUISE_LONG_PRESS =? CRUISE_LONG_PRESS * 5)%Z = false)
    by (apply Z.eqb_neq; lia).
  rewrite H5. cbn [andb app].
  destruct (no_events_in_ack cpers Hp) as [Ht Hc].
  cbn [List.filter]. rewrite is_toggle_toggle_call, is_cycle_toggle_call.
  rewrite Ht, Hc. split; reflexivity.
Qed.

(** A tick on which the button is held. *)
Lemma held_tick CP t :
  update CP (before t) (in_cp (input t)) (in_cp_cam (input t))
    (in_fv (input t)) (in_fpf (input t)) = Ok (after t, output t) ->
  held CP t = true ->
  lkas_off t = true ->
  exists cpers,
    distance_pressed_counter (after t) =
      (distance_pressed_counter (before t) + 1)%Z
    /\ truthy (distance_previously_pressed (after t)) = true
    /\ fpf_calls (output t) =
       threshold_calls (in_fv (input t))
         (distance_pressed_counter (before t) + 1) ++ cpers
    /\ (cpers = [] \/ cpers = [reset_personality_changed_param]%list).
Proof.
  intros Hu Hheld Hlkas. unfold held in Hheld.
  apply andb_true_iff in Hheld as [Hav Hdown].
  destruct (distance_tick CP t Hu Hav Hlkas)
    as (d & db & calls & cpers & Hb & Hdb & Hc & Hp & Hcalls & Hack).
  rewrite Hb in Hdown.
  rewrite (distance_pressed_step _ _ _ Hdown) in Hdb.
  apply Ok_inj in Hdb. apply pair_equal_spec in Hdb as [Hdb Hcs].
  exists cpers. rewrite Hc, Hp, Hcalls, <- Hdb, <- Hcs.
  repeat split; assumption.
Qed.

(** The tick on which the button is let go after having been held. *)
Lemma let_go_tick CP t :
  update CP (before t) (in_cp (input t)) (in_cp_cam (input t))
    (in_fv (input t)) (in_fpf (input t)) = Ok (after t, output t) ->
  let_go CP t = true ->
  lkas_off t = true ->
  truthy (distance_previously_pressed (before t)) = true ->
  exists cpers,
    distance_pressed_counter (after t) = 0%Z
    /\ truthy (distance_previously_pressed (after t)) = false
    /\ fpf_calls (output t) =
       (if (distance_pressed_counter (before t) <? CRUISE_LONG_PRESS)%Z
        then [distance_button_function
                (py_mod (personality_profile (before t) + num 2) (num 3))]
        else [])%list
       ++ threshold_calls (in_fv (input t)) 0 ++ cpers
    /\ (cpers = [] \/ cpers = [reset_personality_changed_param]%list).
Proof.
  intros Hu Hgo Hlkas Hprev. unfold let_go in Hgo.
  apply andb_true_iff in Hgo as [Hav Hup].
  destruct (distance_tick CP t Hu Hav Hlkas)
    as (d & db & calls & cpers & Hb & Hdb & Hc & Hp & Hcalls & Hack).
  rewrite Hb in Hup. apply negb_true_iff in Hup.
  rewrite (distance_released_step _ _ _ Hup Hprev) in Hdb.
  exists cpers. rewrite Hc, Hp, Hcalls.
  destruct (distance_pressed_counter (before t) <? CRUISE_LONG_PRESS)%Z;
    apply Ok_inj in Hdb; apply pair_equal_spec in Hdb as [Hdb Hcs];
    rewrite <- Hdb, <- Hcs; repeat split; assumption.
Qed.

(** A tick on which the button is up and was up. *)
Lemma idle_tick CP t :
  update CP (before t) (in_cp (input t)) (in_cp_cam (input t))
    (in_fv (input t)) (in_fpf (input t)) = Ok (after t, output t) ->
  let_go CP t = true ->
  lkas_off t = true ->
  truthy (distance_previously_pressed (before t)) = false ->
  exists cpers,
    distance_pressed_counter (after t) = distance_pressed_counter (before t)
    /\ truthy (distance_previously_pressed (after t)) = false
    /\ fpf_calls (output t) =
       threshold_calls (in_fv (input t))
         (distance_pressed_counter (before t)) ++ cpers
    /\ (cpers = [] \/ cpers = [reset_personality_changed_param]%list).
Proof.
  intros Hu Hgo Hlkas Hprev. unfold let_go in Hgo.
  apply andb_true_iff in Hgo as [Hav Hup].
  destruct (distance_tick CP t Hu Hav Hlkas)
    as (d & db & calls & cpers & Hb & Hdb & Hc & Hp & Hcalls & Hack).
  rewrite Hb in Hup. apply negb_true_iff in Hup.
  rewrite (distance_idle_step _ _ _ Hup Hprev) in Hdb.
  apply Ok_inj in Hdb. apply pair_equal_spec in Hdb as [Hdb Hcs].
  exists cpers. rewrite Hc, Hp, Hcalls, <- Hdb, <- Hcs.
  repeat split; assumption.
Qed.

(** During a hold the counter counts the ticks, and each tick fires what
    the thresholds fire at its count. *)
Lemma hold_counts CP rest : forall hold self,
  session CP self (hold ++ rest) ->
  Forall (fun t => held CP t = true /\ lkas_off t = true) hold ->
  forall (k : nat) t,
    hold !! k = Some t ->
    distance_pressed_counter (after t) =
      (distance_pressed_counter self + Z.of_nat k + 1)%Z
    /\ button_calls (fpf_calls (output t)) =
       threshold_calls (in_fv (input t))
         (distance_pressed_counter self + Z.of_nat k + 1).
Proof.
  induction hold as [|t0 hold IH]; intros self Hs Hh k t Hk.
  - discriminate.
  - cbn [app] in Hs. apply session_inv in Hs as (Hb & Hu & Hrest).
    apply Forall_cons in Hh as [[Hheld Hlkas] Hh].
    destruct (held_tick CP t0 Hu Hheld Hlkas)
      as (cpers & Hc & _ & Hcalls & Hack).
    rewrite Hb in Hc, Hcalls.
    destruct k as [|k].
    + cbn in Hk. apply (inj Some) in Hk. subst t0.
      replace (distance_pressed_counter self + Z.of_nat 0 + 1)%Z
        with (distance_pressed_counter self + 1)%Z by lia.
      split; [exact Hc|].
      rewrite Hcalls. apply button_calls_threshold. exact Hack.
    + cbn in Hk. destruct (IH (after t0) Hrest Hh k t Hk) as [Hc' Hcalls'].
      rewrite Hc in Hc', Hcalls'.
      replace (distance_pressed_counter self + Z.of_nat (S k) + 1)%Z
        with (distance_pressed_counter self + 1 + Z.of_nat k + 1)%Z by lia.
      split; assumption.
Qed.

(** A hold that stays below the first threshold fires nothing. *)
Lemma hold_below CP rest : forall hold self,
  session CP self (hold ++ rest) ->
  Forall (fun t => held CP t = true /\ lkas_off t = true) hold ->
  (0 < CRUISE_LONG_PRESS)%Z ->
  (0 <= distance_pressed_counter self)%Z ->
  (distance_pressed_counter self + Z.of_nat (length hold)
   < CRUISE_LONG_PRESS)%Z ->
  List.filter is_toggle (calls_of hold) = []
  /\ List.filter is_cycle (calls_of hold) = []
  /\ exists mid,
       session CP mid rest
       /\ distance_pressed_counter mid =
          (distance_pressed_counter self + Z.of_nat (length hold))%Z
       /\ (hold <> [] -> truthy (distance_previously_pressed mid) = true)
       /\ (hold = [] -> mid = self).
Proof.
  induction hold as [|t hold IH]; intros self Hs Hh Hpos Hc0 Hlen.
  - split; [reflexivity|]. split; [reflexivity|].
    exists self. cbn [app length] in *.
    split; [exact Hs|]. split; [lia|].
    split; [intros Hn; contradiction Hn; reflexivity | reflexivity].
  - cbn [app] in Hs. apply session_inv in Hs as (Hb & Hu & Hrest).
    apply Forall_cons in Hh as [[Hheld Hlkas] Hh].
    destruct (held_tick CP t Hu Hheld Hlkas)
      as (cpers & Hc & Hprev & Hcalls & Hack).
    rewrite Hb in Hc, Hcalls. cbn [length] in Hlen.
    destruct (events_off_threshold (in_fv (input t))
                (distance_pressed_counter self + 1) cpers)
      as [Ht Hcy]; [lia | lia | exact Hack |].
    destruct (IH (after t) Hrest Hh Hpos) as (Ht' & Hcy' & mid & Hm);
      [lia | lia |].
    destruct Hm as (Hsm & Hcm & Hpm & Hem).
    rewrite calls_of_cons, !List.filter_app, Hcalls, Ht, Hcy, Ht', Hcy'.
    split; [reflexivity|]. split; [reflexivity|].
    exists mid. split; [exact Hsm|]. split; [cbn [length]; lia|].
    split; [|discriminate].
    intros _. destruct hold as [|t' hold'].
    + rewrite (Hem eq_refl). exact Hprev.
    + apply Hpm. discriminate.
Qed.

(** A hold that ends on the first threshold fires one toggle, on its last
    tick. *)
Lemma hold_exact CP rest : forall hold self,
  session CP self (hold ++ rest) ->
  Forall (fun t =>
    held CP t = true /\ lkas_off t = true /\ via_distance t = true) hold ->
  (0 < CRUISE_LONG_PRESS)%Z ->
  (0 <= distance_pressed_counter self)%Z ->
  hold <> [] ->
  (distance_pressed_counter self + Z.of_nat (length hold)
   = CRUISE_LONG_PRESS)%Z ->
  length (List.filter is_toggle (calls_of hold)) = 1%nat
  /\ List.filter is_cycle (calls_of hold) = []
  /\ exists mid,
       session CP mid rest
       /\ distance_pressed_counter mid = CRUISE_LONG_PRESS
       /\ truthy (distance_previously_pressed mid) = true.
Proof.
  induction hold as [|t hold IH]; intros self Hs Hh Hpos Hc0 Hne Hlen.
  - contradiction Hne. reflexivity.
  - cbn [app] in Hs. apply session_inv in Hs as (Hb & Hu & Hrest).
    apply Forall_cons in Hh as [(Hheld & Hlkas & Hvia) Hh].
    destruct (held_tick CP t Hu Hheld Hlkas)
      as (cpers & Hc & Hprev & Hcalls & Hack).
    rewrite Hb in Hc, Hcalls. cbn [length] in Hlen.
    rewrite calls_of_cons, !List.filter_app, Hcalls.
    destruct hold as [|t' hold'].
    + cbn [length] in Hlen.
      replace (distance_pressed_counter self + 1)%Z
        with CRUISE_LONG_PRESS in * by lia.
      destruct (events_at_threshold (in_fv (input t)) cpers Hpos Hvia Hack)
        as [Ht Hcy].
      rewrite Ht, Hcy. split; [reflexivity|]. split; [reflexivity|].
      exists (after t). cbn [app] in Hrest.
      split; [exact Hrest|]. split; assumption.
    + destruct (events_off_threshold (in_fv (input t))
                  (distance_pressed_counter self + 1) cpers)
        as [Ht Hcy]; [cbn [length] in Hlen; lia
                     | cbn [length] in Hlen; lia | exact Hack |].
      destruct (IH (after t) Hrest Hh Hpos) as (Ht' & Hcy' & mid & Hm);
        [lia | discriminate | lia |].
      rewrite Ht, Hcy. cbn [app]. rewrite Hcy'.
      split; [exact Ht'|]. split; [reflexivity|].
      exists mid. exact Hm.
Qed.

(** With the button up, the counter at zero and nothing to release, nothing
    fires. *)
Lemma idle_quiet CP : forall rel self,
  session CP self rel ->
  Forall (fun t => let_go CP t = true /\ lkas_off t = true) rel ->
  (0 < CRUISE_LONG_PRESS)%Z ->
  distance_pressed_counter self = 0%Z ->
  truthy (distance_previously_pressed self) = false ->
  List.filter is_toggle (calls_of rel) = []
  /\ List.filter is_cycle (calls_of rel) = [].
Proof.
  induction rel as [|t rel IH]; intros self Hs Hrel Hpos Hc0 Hp0.
  - split; reflexivity.
  - apply session_inv in Hs as (Hb & Hu & Hrest).
    apply Forall_cons in Hrel as [[Hgo Hlkas] Hrel].
    rewrite <- Hb in Hp0, Hc0.
    destruct (idle_tick CP t Hu Hgo Hlkas Hp0)
      as (cpers & Hc & Hprev & Hcalls & Hack).
    rewrite Hc0 in Hc, Hcalls.
    destruct (events_off_threshold (in_fv (input t)) 0 cpers)
      as [Ht Hcy]; [lia | lia | exact Hack |].
    destruct (IH (after t) Hrest Hrel Hpos Hc Hprev) as [Ht' Hcy'].
    rewrite calls_of_cons, !List.filter_app, Hcalls, Ht, Hcy, Ht', Hcy'.
    split; reflexivity.
Qed.

(** Letting go after a hold: the personality cycles if the hold was short,
    and nothing is toggled. *)
Lemma release_after_hold CP r1 rel self :
  session CP self (r1 :: rel) ->
  Forall (fun t => let_go CP t = true /\ lkas_off t = true) (r1 :: rel) ->
  (0 < CRUISE_LONG_PRESS)%Z ->
  truthy (distance_previously_pressed self) = true ->
  List.filter is_toggle (calls_of (r1 :: rel)) = []
  /\ List.filter is_cycle (calls_of (r1 :: rel)) =
     if (distance_pressed_counter self <? CRUISE_LONG_PRESS)%Z
     then [distance_button_function
             (py_mod (personality_profile self + num 2) (num 3))]%list
     else [].
Proof.
  intros Hs Hrel Hpos Hp.
  apply session_inv in Hs as (Hb & Hu & Hrest).
  apply Forall_cons in Hrel as [[Hgo Hlkas] Hrel].
  rewrite <- Hb in Hp.
  destruct (let_go_tick CP r1 Hu Hgo Hlkas Hp)
    as (cpers & Hc & Hprev & Hcalls & Hack).
  rewrite Hb in Hcalls.
  rewrite threshold_calls_none in Hcalls by lia. cbn [app] in Hcalls.
  destruct (no_events_in_ack cpers Hack) as [Ht Hcy].
  destruct (idle_quiet CP rel (after r1) Hrest Hrel Hpos Hc Hprev)
    as [Ht' Hcy'].
  rewrite calls_of_cons, !List.filter_app, Hcalls, !List.filter_app.
  rewrite Ht, Hcy, Ht', Hcy', !app_nil_r.
  destruct (distance_pressed_counter self <? CRUISE_LONG_PRESS)%Z;
    split; reflexivity.
Qed.

(** C6.  Take a session, with cruise available and the LKAS gesture off
    throughout, in which the distance button is held from a counter of zero
    for the ticks [hold] and is up for the ticks [rel] after them.
    - On the k-th tick of the hold the counter is k, and the tick fires
      what the thresholds fire at k: the toggle at CRUISE_LONG_PRESS, the
      traffic mode and the toggle at five times that, nothing otherwise;
      so each threshold fires on at most one tick of the hold.
    - Held for exactly CRUISE_LONG_PRESS ticks with the toggle enabled, the
      session emits one toggle and no personality cycle.
    - Held for CRUISE_LONG_PRESS - 1 ticks and released, it emits one
      personality cycle, to the profile plus two modulo three, and no
      toggle. *)
Theorem distance_button_gestures CP self ins hold rel :
  (0 < CRUISE_LONG_PRESS)%Z ->
  run CP self ins = Ok (hold ++ rel) ->
  distance_pressed_counter self = 0%Z ->
  Forall (fun t => held CP t = true /\ lkas_off t = true) hold ->
  Forall (fun t => let_go CP t = true /\ lkas_off t = true) rel ->
  (forall (k : nat) t,
     hold !! k = Some t ->
     distance_pressed_counter (after t) = (Z.of_nat k + 1)%Z
     /\ button_calls (fpf_calls (output t)) =
        threshold_calls (in_fv (input t)) (Z.of_nat k + 1))
  /\ (Z.of_nat (length hold) = CRUISE_LONG_PRESS ->
      Forall (fun t => via_distance t = true) hold ->
      length (List.filter is_toggle (calls_of (hold ++ rel))) = 1%nat
      /\ List.filter is_cycle (calls_of (hold ++ rel)) = [])
  /\ (Z.of_nat (length hold) = (CRUISE_LONG_PRESS - 1)%Z ->
      hold <> [] ->
      forall r1 rel',
        rel = r1 :: rel' ->
        List.filter is_cycle (calls_of (hold ++ rel)) =
          [distance_button_function
             (py_mod (personality_profile (before r1) + num 2) (num 3))]%list
        /\ List.filter is_toggle (calls_of (hold ++ rel)) = []).
Proof.
  intros Hpos Hrun Hc0 Hhold Hrel.
  apply run_session in Hrun as [Hs _].
  split; [|split].
  - intros k t Hk.
    destruct (hold_counts CP rel hold self Hs Hhold k t Hk) as [Hc Hcalls].
    rewrite Hc0 in Hc, Hcalls. cbn [Z.add] in Hc, Hcalls.
    split; assumption.
  - intros Hlen Hvia.
    assert (Hall : Forall (fun t =>
              held CP t = true /\ lkas_off t = true /\ via_distance t = true)
              hold).
    { apply Forall_forall. intros t Ht.
      rewrite Forall_forall in Hhold. rewrite Forall_forall in Hvia.
      destruct (Hhold t Ht) as [Hh Hl]. repeat split; auto. }
    assert (Hne : hold <> []).
    { intros ->. cbn [length] in Hlen. lia. }
    destruct (hold_exact CP rel hold self Hs Hall Hpos) as (Ht & Hcy & mid & Hm);
      [lia | exact Hne | lia |].
    destruct Hm as (Hsm & Hcm & Hpm).
    rewrite calls_of_app, !List.filter_app, Hcy.
    rewrite length_app, Ht.
    destruct rel as [|r1 rel'].
    + split; reflexivity.
    + destruct (release_after_hold CP r1 rel' mid Hsm Hrel Hpos Hpm)
        as [Ht' Hcy'].
      rewrite Ht', Hcy'.
      assert (Hlong : (distance_pressed_counter mid <? CRUISE_LONG_PRESS)%Z
                      = false) by (apply Z.ltb_ge; lia).
      rewrite Hlong. split; reflexivity.
  - intros Hlen Hne r1 rel' ->.
    destruct (hold_below CP (r1 :: rel') hold self Hs Hhold Hpos)
      as (Ht & Hcy & mid & Hm); [lia | lia |].
    destruct Hm as (Hsm & Hcm & Hpm & _).
    destruct (release_after_hold CP r1 rel' mid Hsm Hrel Hpos (Hpm Hne))
      as [Ht' Hcy'].
    assert (Hshort : (distance_pressed_counter mid <? CRUISE_LONG_PRESS)%Z
                     = true) by (apply Z.ltb_lt; lia).
    rewrite Hshort in Hcy'.
    apply session_inv in Hsm as (Hb & _).
    rewrite calls_of_app, !List.filter_app, Ht, Hcy, Ht', Hcy', Hb.
    split; reflexivity.
Qed.

End Properties.

(** ** The properties on the sample vehicle *)

Module SampleRuns.
Import Sample.
#[local] Open Scope string_scope.
#[local] Open Scope list_scope.

Lemma returned (r : result (CarState * TickOutput)) :
  is_Ok r = true -> r = Ok (the_state r, the_output r).
Proof. destruct r as [[self' o]|e]; [reflexivity | discriminate]. Qed.

Lemma ran (r : result (list Tick)) :
  is_Ok r = true -> r = Ok (the_ticks r).
Proof. destruct r as [ts|e]; [reflexivity | discriminate]. Qed.

Lemma the_eq {A : Type} (d a : A) (r : result A) : r = Ok a -> a = the d r.
Proof. intros ->. reflexivity. Qed.

Lemma three_ticks (r : result (list Tick)) :
  length (the_ticks r) = 3%nat ->
  the_ticks r = [tick_at 0 r; tick_at 1 r; tick_at 2 r].
Proof.
  unfold tick_at. destruct (the_ticks r) as [|a [|b [|c [|]]]];
    try discriminate; reflexivity.
Qed.

Lemma four_ticks (r : result (list Tick)) :
  length (the_ticks r) = 4%nat ->
  the_ticks r = [tick_at 0 r; tick_at 1 r; tick_at 2 r; tick_at 3 r].
Proof.
  unfold tick_at. destruct (the_ticks r) as [|a [|b [|c [|d [|]]]]];
    try discriminate; reflexivity.
Qed.

Lemma Qc_neq_computed (x y : Qc) : bool_decide (x = y) = false -> x <> y.
Proof. apply bool_decide_eq_false_1. Qed.

(** All four wheels at 36 km/h: the fused speed is 10 m/s. *)
Lemma equal_wheel_speeds_fuse_witness :
  exists self' o,
    update (H := imports) (rav4 0) (fresh (rav4 0)) cruising_36
      (camera_bus []) (toggles true false) fpf = Ok (self', o)
    /\ car.vEgoRaw (ret o) = num 10
    /\ (car.standstill (ret o) = true <-> Qcabs (num 10) < eps_1e_3).
Proof.
  eexists _, _. split; [apply returned; vm_compute; reflexivity|].
  eapply (equal_wheel_speeds_fuse (H := imports) (rav4 0) (fresh (rav4 0))
            cruising_36 (camera_bus []) (toggles true false) fpf);
    [apply returned; vm_compute; reflexivity
    | apply Qc_is_canon; vm_compute; reflexivity ..].
Defined.

(** Without the ZSS flag the message holds the raw primary angle. *)
Lemma steering_bias_gated_witness :
  exists self' o,
    update (H := imports) (rav4 0) (fresh (rav4 0)) steer_1_zorro_2
      (camera_bus []) (toggles true false) fpf = Ok (self', o)
    /\ FirstOrderFilter.initialized (angle_offset self') = false
    /\ car.steeringAngleDeg (ret o) = num 1 + num 0.
Proof.
  eexists _, _. split; [apply returned; vm_compute; reflexivity|].
  split; [vm_compute; reflexivity|].
  edestruct (steering_bias_gated (H := imports) (rav4 0) (fresh (rav4 0))
               steer_1_zorro_2 (camera_bus []) (toggles true false) fpf)
    as (a & f & t & c & Ha & Hf & _ & Hraw & _ & Hplain & _);
    [apply filter_guarded_init | apply returned; vm_compute; reflexivity |].
  assert (Ha' : vl_sig steer_1_zorro_2 "STEER_ANGLE_SENSOR" "STEER_ANGLE"
                = Ok (num 1)) by (vm_compute; reflexivity).
  assert (Hf' : vl_sig steer_1_zorro_2 "STEER_ANGLE_SENSOR" "STEER_FRACTION"
                = Ok (num 0)) by (vm_compute; reflexivity).
  rewrite Ha' in Ha. rewrite Hf' in Hf.
  apply Ok_inj in Ha. apply Ok_inj in Hf. subst a f.
  etransitivity; [apply Hplain; vm_compute; reflexivity|].
  apply Hraw. vm_compute. reflexivity.
Defined.

(** C1 as stated fails on a ZSS vehicle: the filter is not initialized,
    the raw primary angle is 1 + 0, and the message holds 2, the reading of
    the secondary sensor. *)
Lemma steering_bias_zss_counterexample :
  exists self' o,
    update (H := imports) (rav4 8) (fresh (rav4 8)) steer_1_zorro_2
      (camera_bus []) (toggles true false) fpf = Ok (self', o)
    /\ FirstOrderFilter.initialized (angle_offset self') = false
    /\ vl_sig steer_1_zorro_2 "STEER_ANGLE_SENSOR" "STEER_ANGLE"
       = Ok (num 1)
    /\ vl_sig steer_1_zorro_2 "STEER_ANGLE_SENSOR" "STEER_FRACTION"
       = Ok (num 0)
    /\ car.steeringAngleDeg (ret o) = num 2
    /\ car.steeringAngleDeg (ret o) <> num 1 + num 0.
Proof.
  eexists _, _. split; [apply returned; vm_compute; reflexivity|].
  split; [vm_compute; reflexivity|].
  split; [vm_compute; reflexivity|].
  split; [vm_compute; reflexivity|].
  split; [apply Qc_is_canon; vm_compute; reflexivity|].
  apply Qc_neq_computed. vm_compute. reflexivity.
Qed.

(** On the ZSS vehicle, first tick of the session: the candidate 2 - 0 is
    within 4 of the primary angle 1 and is returned. *)
Lemma zss_candidate_applied_witness :
  exists self' o,
    update (H := imports) (rav4 8) (fresh (rav4 8)) steer_1_zorro_2
      (camera_bus []) (toggles true false) fpf = Ok (self', o)
    /\ zss_compute (fresh (rav4 8)) = false
    /\ car.steeringAngleDeg (ret o) = num 2 - num 0.
Proof.
  eexists _, _. split; [apply returned; vm_compute; reflexivity|].
  split; [reflexivity|].
  edestruct (zss_candidate_applied (H := imports) (rav4 8) (fresh (rav4 8))
               steer_1_zorro_2 (camera_bus []) (toggles true false) fpf)
    as (st & zorro & Hst & Hz & Happly & _);
    [vm_compute; reflexivity | vm_compute; reflexivity
    | apply returned; vm_compute; reflexivity |].
  pose proof (the_eq st st _ Hst) as Est.
  pose proof (the_eq zorro zorro _ Hz) as Ez.
  etransitivity.
  - apply Happly. rewrite Est, Ez. vm_compute. discriminate.
  - rewrite Ez. apply Qc_is_canon. vm_compute. reflexivity.
Defined.

(** A vehicle in neither set reads the lockout signal, here 2. *)
Lemma low_speed_lockout_sticky_witness :
  exists self' o,
    update (H := imports) (corolla 0) (fresh (corolla 0))
      (main_bus
         [("PCM_CRUISE_2",
           [("ACC_FAULTED", num 0); ("MAIN_ON", num 0); ("SET_SPEED", num 0);
            ("LOW_SPEED_LOCKOUT", num 2)])]%list)
      (camera_bus []) (toggles true false) fpf = Ok (self', o)
    /\ low_speed_lockout self' = true.
Proof.
  eexists _, _. split; [apply returned; vm_compute; reflexivity|].
  edestruct (low_speed_lockout_sticky (H := imports) (corolla 0)
               (fresh (corolla 0))
               (main_bus
                  [("PCM_CRUISE_2",
                    [("ACC_FAULTED", num 0); ("MAIN_ON", num 0);
                     ("SET_SPEED", num 0);
                     ("LOW_SPEED_LOCKOUT", num 2)])]%list)
               (camera_bus []) (toggles true false) fpf)
    as [Hread _]; [apply returned; vm_compute; reflexivity|].
  destruct Hread as (v & Hv & Hiff).
  - left. split; compute_done.
  - apply Hiff. pose proof (the_eq v v _ Hv) as Ev. rewrite Ev.
    vm_compute. reflexivity.
Defined.

(** The Corolla has no distance button wired: with cruise on, the tick
    ends in the exception. *)
Lemma distance_pressed_unbound_witness :
  update (H := imports) (corolla 0) (fresh (corolla 0)) main_on
    (camera_bus []) (toggles true false) fpf
  = Raise (UnboundLocalError "distance_pressed").
Proof.
  destruct (distance_pressed_unbound (H := imports) (corolla 0)
              (fresh (corolla 0)) main_on (camera_bus [])
              (toggles true false) fpf) as (Hraise & _);
    [compute_done | left; vm_compute; reflexivity |].
  destruct (update_stock (H := imports) (corolla 0) (fresh (corolla 0))
              main_on (camera_bus [])) as [st|e] eqn:Hst.
  - apply (Hraise st eq_refl).
    pose proof (the_eq st st _ Hst) as Est. rewrite Est.
    vm_compute. reflexivity.
  - exfalso.
    assert (Hok : is_Ok (update_stock (H := imports) (corolla 0)
                           (fresh (corolla 0)) main_on (camera_bus []))
                  = true) by (vm_compute; reflexivity).
    rewrite Hst in Hok. discriminate.
Defined.

(** A sign of type 1 reading 100, no override: 100 km/h in m/s. *)
Lemma speed_limit_extraction_witness :
  calculate_speed_limit sign_100 (toggles true false)
  = Ok (num 100 * CV.KPH_TO_MS).
Proof.
  destruct (speed_limit_extraction sign_100 (toggles true false) (num 100))
    as (Hkph & _); [vm_compute; reflexivity|].
  apply Hkph; vm_compute; reflexivity.
Defined.

(** The same camera frame twice: the second tick leaves the cache as the
    first made it. *)
Lemma traffic_cache_updates_on_change_witness :
  exists self' o,
    update (H := imports) (rav4 0)
      (the_state
         (update (H := imports) (rav4 0) (fresh (rav4 0)) (main_bus [])
            (camera_bus []) (toggles true false) fpf))
      (main_bus []) (camera_bus []) (toggles true false) fpf
    = Ok (self', o)
    /\ traffic_signals self' =
       traffic_signals
         (the_state
            (update (H := imports) (rav4 0) (fresh (rav4 0)) (main_bus [])
               (camera_bus []) (toggles true false) fpf)).
Proof.
  eexists _, _. split; [apply returned; vm_compute; reflexivity|].
  edestruct (traffic_cache_updates_on_change (H := imports) (rav4 0)
               (the_state
                  (update (H := imports) (rav4 0) (fresh (rav4 0))
                     (main_bus []) (camera_bus []) (toggles true false) fpf))
               (main_bus []) (camera_bus []) (toggles true false) fpf)
    as (rsa1 & rsa2 & H1 & H2 & _ & _ & Hsame);
    [apply returned; vm_compute; reflexivity|].
  apply Hsame.
  pose proof (the_eq rsa1 rsa1 _ H1) as E1.
  pose proof (the_eq rsa2 rsa2 _ H2) as E2.
  rewrite E1, E2. compute_done.
Defined.

(** With the counter at 10, two ticks, the second a rising edge of cruise
    availability: the ZSS attributes stay as they were. *)
Lemma zss_disabled_for_good_witness :
  exists ts,
    capped_run = Ok ts
    /\ length ts = 2%nat
    /\ Forall (fun t => zss_of (after t) = zss_of capped) ts.
Proof.
  eexists. split; [apply ran; vm_compute; reflexivity|].
  split; [vm_compute; reflexivity|].
  eapply Forall_impl.
  - apply (zss_disabled_for_good (H := imports) (rav4 8) capped
             capped_session);
      [vm_compute; discriminate | apply ran; vm_compute; reflexivity].
  - intros t (_ & Hafter & _). exact Hafter.
Defined.

(** Cruise comes on while both angles are zero; on the next tick they are
    1 and 2 and the offset becomes 1; the tick after leaves it there. *)
Lemma zss_offset_once_per_edge_witness :
  edge_run = Ok [tick_at 0 edge_run; tick_at 1 edge_run; tick_at 2 edge_run]
  /\ zss_threshold_count (after (tick_at 0 edge_run)) = 0%Z
  /\ zss_angle_offset (after (tick_at 0 edge_run)) =
     zss_angle_offset (fresh (rav4 8))
  /\ zss_angle_offset (after (tick_at 1 edge_run)) =
     tick_zorro (tick_at 1 edge_run)
     - tick_primary (H := imports) (rav4 8) (tick_at 1 edge_run)
  /\ zss_angle_offset (after (tick_at 2 edge_run)) =
     zss_angle_offset (after (tick_at 1 edge_run))
  /\ zss_angle_offset (after (tick_at 2 edge_run)) = num 1.
Proof.
  assert (Hts : the_ticks edge_run =
                [tick_at 0 edge_run; tick_at 1 edge_run; tick_at 2 edge_run])
    by (apply three_ticks; vm_compute; reflexivity).
  assert (Hrun : edge_run = Ok (the_ticks edge_run))
    by (apply ran; vm_compute; reflexivity).
  rewrite Hts in Hrun.
  destruct (zss_offset_once_per_edge (H := imports) (rav4 8)
              (fresh (rav4 8)) edge_session [tick_at 0 edge_run]
              (tick_at 1 edge_run) [tick_at 2 edge_run] Hrun)
    as (Hcount & Hwait & Htake & _ & Hquiet).
  - vm_compute. reflexivity.
  - constructor; [split; vm_compute; reflexivity | constructor].
  - vm_compute. reflexivity.
  - vm_compute. reflexivity.
  - cbn [hd] in Hcount.
    split; [exact Hrun|].
    split; [rewrite Hcount; vm_compute; reflexivity|].
    split; [exact (proj1 (Forall_inv Hwait))|].
    split; [exact Htake|].
    split.
    + refine (Forall_inv (Hquiet [tick_at 2 edge_run] [] eq_refl _)).
      constructor; [vm_compute; reflexivity | constructor].
    + apply Qc_is_canon. vm_compute. reflexivity.
Defined.

(** With a threshold of 3: three ticks down fire one toggle and no cycle;
    two ticks down and a release fire one cycle and no toggle. *)
Lemma distance_button_gestures_witness :
  (length (List.filter is_toggle (calls_of (the_ticks long_run))) = 1%nat
   /\ List.filter is_cycle (calls_of (the_ticks long_run)) = [])
  /\ (List.filter is_cycle (calls_of (the_ticks short_run)) =
        [distance_button_function
           (py_mod
              (personality_profile (before (tick_at 2 short_run)) + num 2)
              (num 3))]%list
      /\ List.filter is_toggle (calls_of (the_ticks short_run)) = []).
Proof.
  assert (Hlts : the_ticks long_run =
                 [tick_at 0 long_run; tick_at 1 long_run; tick_at 2 long_run;
                  tick_at 3 long_run])
    by (apply four_ticks; vm_compute; reflexivity).
  assert (Hlong : long_run = Ok (the_ticks long_run))
    by (apply ran; vm_compute; reflexivity).
  rewrite Hlts in Hlong.
  assert (Hsts : the_ticks short_run =
                 [tick_at 0 short_run; tick_at 1 short_run;
                  tick_at 2 short_run])
    by (apply three_ticks; vm_compute; reflexivity).
  assert (Hshort : short_run = Ok (the_ticks short_run))
    by (apply ran; vm_compute; reflexivity).
  rewrite Hsts in Hshort.
  split.
  - destruct (distance_button_gestures (H := imports) (rav4 0)
                (fresh (rav4 0)) long_press
                [tick_at 0 long_run; tick_at 1 long_run; tick_at 2 long_run]
                [tick_at 3 long_run]) as (_ & Hexact & _).
    + reflexivity.
    + exact Hlong.
    + reflexivity.
    + repeat constructor; vm_compute; reflexivity.
    + repeat constructor; vm_compute; reflexivity.
    + rewrite Hlts. apply Hexact.
      * reflexivity.
      * repeat constructor; vm_compute; reflexivity.
  - destruct (distance_button_gestures (H := imports) (rav4 0)
                (fresh (rav4 0)) short_press
                [tick_at 0 short_run; tick_at 1 short_run]
                [tick_at 2 short_run]) as (_ & _ & Hless).
    + reflexivity.
    + exact Hshort.
    + reflexivity.
    + repeat constructor; vm_compute; reflexivity.
    + repeat constructor; vm_compute; reflexivity.
    + rewrite Hsts.
      refine (Hless eq_refl _ (tick_at 2 short_run) [] eq_refl).
      discriminate.
Defined.

End SampleRuns.

(** * Further properties of [update] *)

Lemma in_tuple_num (z : Z) (t : list Z) (x : Qc) :
  x = num z -> in_tuple x t = bool_decide (z ∈ t).
Proof.
  intros ->. unfold in_tuple. induction t as [|a t IH]; [reflexivity|].
  cbn [existsb].
  destruct (decide (z = a)) as [->|Hne].
  - rewrite (bool_decide_eq_true_2 (num a = num a)) by reflexivity.
    cbn [orb]. symmetry. apply bool_decide_eq_true_2. left.
  - rewrite (bool_decide_eq_false_2 (num z = num a)).
    + cbn [orb]. rewrite IH. apply bool_decide_ext.
      rewrite elem_of_cons. tauto.
    + intros E. apply Hne. unfold num in E.
      apply (f_equal (fun q : Qc => Qnum q)) in E. cbn in E. lia.
Qed.

(** Membership in a tuple of integers picks out one integer. *)
Lemma in_tuple_true (x : Qc) (t : list Z) :
  in_tuple x t = true -> exists z, z ∈ t /\ x = num z.
Proof.
  unfold in_tuple. intros Hx. apply existsb_exists in Hx as (z & Hz & Hx).
  exists z. split; [apply list_elem_of_In; exact Hz|].
  apply bool_decide_eq_true in Hx. exact Hx.
Qed.

(** Two tuples without a common member never both hold a value. *)
Lemma in_tuple_disjoint (x : Qc) (t u : list Z) :
  (forall z, z ∈ t -> z ∉ u) ->
  in_tuple x t && in_tuple x u = false.
Proof.
  intros Hd. destruct (in_tuple x t) eqn:Ht; [|reflexivity].
  apply in_tuple_true in Ht as (z & Hz & ->).
  rewrite (in_tuple_num z u) by reflexivity. cbn [andb].
  apply bool_decide_eq_false_2. apply Hd. exact Hz.
Qed.

(** Take every equation [Ok (a, .., z) = Ok (a', .., z')] of the context
    apart into the equations between the components. *)
Ltac all_Ok :=
  repeat match goal with
  | E : Ok _ = Ok _ |- _ => apply Ok_inj in E
  | E : (_, _) = (_, _) |- _ =>
      let E1 := fresh E in
      apply pair_equal_spec in E; destruct E as [E E1]
  end.

(** Split every hypothesis [m ≫= f = Ok b] of the context along its
    binds. *)
Ltac all_binds :=
  repeat match goal with
  | E : (_ ≫= _) = Ok _ |- _ => progress (split_binds E)
  end.

Section Further.
Context `{Imports}.

(** The blocks of [update_stock] that the claims did not need. *)
Lemma update_stock_rest CP self cp cp_cam st :
  update_stock CP self cp cp_cam = Ok st ->
  let m := Stock.msg st in
  let cs := car.cruiseState m in
  update_gear_torque_faults CP self cp =
    Ok (car.gearShifter m, car.leftBlinker m, car.rightBlinker m,
        car.engineRpm m, car.steeringTorque m, car.steeringTorqueEps m,
        car.steeringPressed m, car.steerFaultTemporary m,
        car.steerFaultPermanent m)
  /\ update_pcm_cruise CP cp =
      Ok (Stock.status st, Stock.neutral_force st,
          (CruiseState.standstill cs, CruiseState.enabled cs,
           CruiseState.nonAdaptive cs, car.genericToggle m,
           car.espDisabled m))
  /\ update_aeb_bsm CP cp (cp_acc_of CP cp cp_cam) =
      Ok (car.stockAeb m, car.leftBlindspot m, car.rightBlindspot m).
Proof.
  unfold update_stock. intros Hst.
  split_binds Hst. inv_Ok Hst. simpl.
  repeat split; assumption.
Qed.

(** The message of a tick that returned is the one lines 63-189 built, but
    for the steering angle. *)
Lemma update_ret CP self cp cp_cam fv fpf self' o :
  update CP self cp cp_cam fv fpf = Ok (self', o) ->
  exists st,
    update_stock CP self cp cp_cam = Ok st
    /\ ret o =
       set_steeringAngleDeg (car.steeringAngleDeg (ret o)) (Stock.msg st)
    /\ pcm_acc_status self' = Some (Stock.status st).
Proof.
  intros Hu. pose proof Hu as Hb.
  apply update_blocks in Hb as (st & dp & db & cd & cpers & Hst & Hrest).
  destruct Hrest as (_ & _ & _ & _ & _ & _ & Hret & _).
  exists st. split; [exact Hst|]. split; [exact Hret|].
  unfold update in Hu. rewrite Hst in Hu. cbn [mbind result_bind] in Hu.
  apply bind_Ok in Hu as (dp' & _ & Hu).
  destruct (lkas_button _ _ _ _ _) as [pressed calls_lkas].
  split_binds Hu. inv_Ok Hu. reflexivity.
Qed.

(** ** The EPS fault flags and the blinkers *)

(** X1.  Under torque control both fault flags are read off the one signal
    LKA_STATE: temporary for 0, 9, 11, 21 and 25, permanent for 3 and 17.
    The two tuples share no code, so a tick never reports a temporary and a
    permanent fault together. *)
Theorem steer_faults_exclusive CP self cp cp_cam fv fpf self' o :
  steerControlType CP <> SteerControlType.angle ->
  update CP self cp cp_cam fv fpf = Ok (self', o) ->
  exists lka,
    vl_sig cp "EPS_STATUS" "LKA_STATE" = Ok lka
    /\ car.steerFaultTemporary (ret o) = in_tuple lka TEMP_STEER_FAULTS
    /\ car.steerFaultPermanent (ret o) = in_tuple lka PERM_STEER_FAULTS
    /\ car.steerFaultTemporary (ret o) && car.steerFaultPermanent (ret o)
       = false.
Proof.
  intros Htorque Hu.
  apply update_ret in Hu as (st & Hst & Hret & _).
  apply update_stock_rest in Hst as (Hgear & _).
  rewrite Hret.
  cbn [set_steeringAngleDeg car.steerFaultTemporary car.steerFaultPermanent].
  unfold update_gear_torque_faults in Hgear.
  rewrite (bool_decide_eq_false_2 _ Htorque) in Hgear.
  split_binds Hgear. all_Ok. subst.
  match goal with
  | E1 : vl_sig cp "EPS_STATUS" "LKA_STATE" = Ok ?a,
    E2 : vl_sig cp "EPS_STATUS" "LKA_STATE" = Ok ?b |- _ =>
      exists a; rewrite E1 in E2; apply Ok_inj in E2; subst b;
      split; [exact E1|]
  end.
  repeat match goal with
  | E : _ = car.steerFaultTemporary _ |- _ => rewrite <- E; clear E
  | E : _ = car.steerFaultPermanent _ |- _ => rewrite <- E; clear E
  end.
  split; [reflexivity|]. split; [reflexivity|].
  apply in_tuple_disjoint. intros z Hz. vm_compute in Hz.
  unfold PERM_STEER_FAULTS.
  rewrite !elem_of_cons, elem_of_nil.
  set_unfold in Hz. lia.
Qed.

(** X2.  Both blinker flags are read off the one signal TURN_SIGNALS, left
    for 1 and right for 2, so a tick never reports both. *)
Theorem blinkers_exclusive CP self cp cp_cam fv fpf self' o :
  update CP self cp cp_cam fv fpf = Ok (self', o) ->
  exists turn,
    vl_sig cp "BLINKERS_STATE" "TURN_SIGNALS" = Ok turn
    /\ car.leftBlinker (ret o) = bool_decide (turn = num 1)
    /\ car.rightBlinker (ret o) = bool_decide (turn = num 2)
    /\ car.leftBlinker (ret o) && car.rightBlinker (ret o) = false.
Proof.
  intros Hu.
  apply update_ret in Hu as (st & Hst & Hret & _).
  apply update_stock_rest in Hst as (Hgear & _).
  rewrite Hret. cbn [set_steeringAngleDeg car.leftBlinker car.rightBlinker].
  unfold update_gear_torque_faults in Hgear.
  apply bind_Ok in Hgear as (gear & _ & Hgear).
  apply bind_Ok in Hgear as (turn & Hturn & Hgear).
  rewrite Hturn in Hgear. cbn [mbind result_bind] in Hgear.
  split_binds Hgear. inv_Ok Hgear.
  exists turn. split; [exact Hturn|].
  repeat match goal with
  | E : _ = car.leftBlinker _ |- _ => rewrite <- E; clear E
  | E : _ = car.rightBlinker _ |- _ => rewrite <- E; clear E
  end.
  split; [reflexivity|]. split; [reflexivity|].
  destruct (bool_decide (turn = num 1)) eqn:H1; [|reflexivity].
  apply bool_decide_eq_true in H1. subst turn. reflexivity.
Qed.

(** ** The gas pedal *)

(** Halving and rounding down exceeds [n] exactly when the number reaches
    twice [n + 1]. *)
Lemma floordiv_2_gt (x : Qc) (n : Z) :
  num n < floordiv x (num 2) <-> num (2 * (n + 1)) <= x.
Proof.
  unfold floordiv, num. rewrite <- Z2Qc_inj_lt.
  change (this (Qc_of_Z 2)) with (2 : Q).
  unfold Qcle. change (this (Qc_of_Z ?z)) with (inject_Z z).
  split.
  - intros Hlt.
    assert (Hle : (n + 1 <= Qfloor ((x : Q) / 2))%Z) by lia.
    rewrite Zle_Qle in Hle.
    pose proof (Qfloor_le ((x : Q) / 2)) as Hfl.
    assert (Hx : (inject_Z (n + 1) <= (x : Q) / 2)%Q)
      by (eapply Qle_trans; eassumption).
    apply (Qmult_le_compat_r _ _ 2) in Hx; [|discriminate].
    rewrite inject_Z_mult.
    assert (E : ((x : Q) / 2 * 2 == (x : Q))%Q) by field.
    rewrite E in Hx.
    rewrite Qmult_comm. exact Hx.
  - intros Hle.
    assert (Hx : (inject_Z (n + 1) <= (x : Q) / 2)%Q).
    { apply Qle_shift_div_l; [reflexivity|].
      rewrite inject_Z_mult, Qmult_comm in Hle. exact Hle. }
    apply Qfloor_resp_le in Hx. rewrite Qfloor_Z in Hx. lia.
Qed.

(** X3.  With a gas interceptor the pedal value is half the sum of the two
    sensor readings, rounded down, and the pedal counts as pressed exactly
    when the sum reaches 1612; the signal GAS_RELEASED plays no part. *)
Theorem gas_interceptor_threshold CP self cp cp_cam fv fpf self' o :
  enableGasInterceptor CP = true ->
  update CP self cp cp_cam fv fpf = Ok (self', o) ->
  exists g1 g2,
    vl_sig cp "GAS_SENSOR" "INTERCEPTOR_GAS" = Ok g1
    /\ vl_sig cp "GAS_SENSOR" "INTERCEPTOR_GAS2" = Ok g2
    /\ car.gas (ret o) = floordiv (g1 + g2) (num 2)
    /\ (car.gasPressed (ret o) = true <-> num 1612 <= g1 + g2).
Proof.
  intros Hint Hu.
  apply update_ret in Hu as (st & Hst & Hret & _).
  apply update_stock_blocks in Hst as (Hbody & _).
  rewrite Hret. cbn [set_steeringAngleDeg car.gas car.gasPressed].
  unfold update_body in Hbody. rewrite Hint in Hbody.
  split_binds Hbody. all_binds. all_Ok. subst.
  match goal with
  | E1 : vl_sig cp "GAS_SENSOR" "INTERCEPTOR_GAS" = Ok ?a,
    E2 : vl_sig cp "GAS_SENSOR" "INTERCEPTOR_GAS2" = Ok ?b |- _ =>
      exists a, b; split; [exact E1|]; split; [exact E2|]
  end.
  repeat match goal with
  | E : _ = car.gas _ |- _ => rewrite <- E; clear E
  | E : _ = car.gasPressed _ |- _ => rewrite <- E; clear E
  end.
  split; [reflexivity|].
  rewrite bool_decide_eq_true. apply (floordiv_2_gt _ 805).
Qed.

(** ** The cruise state *)

(** X4.  While the set speed is zero the cluster speed keeps its default 0
    and UNITS is not consulted.  Otherwise it is the UI set speed of the
    variant converted from km/h when UNITS is 1 or 2 and from mph for every
    other value.  An unsupported-DSU vehicle never reports an ACC fault. *)
Theorem cluster_speed_hidden CP self cp cp_cam fv fpf self' o :
  update CP self cp cp_cam fv fpf = Ok (self', o) ->
  let cs := car.cruiseState (ret o) in
  (CruiseState.speed cs = num 0 -> CruiseState.speedCluster cs = num 0)
  /\ (CruiseState.speed cs <> num 0 ->
      exists units ui,
        vl_sig cp "BODY_CONTROL_STATE_2" "UNITS" = Ok units
        /\ vl_sig cp
             (if bool_decide (carFingerprint CP ∈ UNSUPPORTED_DSU_CAR)
              then "PCM_CRUISE_ALT" else "PCM_CRUISE_SM")%string
             "UI_SET_SPEED" = Ok ui
        /\ CruiseState.speedCluster cs =
           ui * (if in_tuple units [1; 2]%Z
                 then CV.KPH_TO_MS else CV.MPH_TO_MS))
  /\ (carFingerprint CP ∈ UNSUPPORTED_DSU_CAR ->
      car.accFaulted (ret o) = false).
Proof.
  intros Hu.
  apply update_ret in Hu as (st & Hst & Hret & _).
  apply update_stock_blocks in Hst as (_ & _ & _ & Hcruise & _).
  rewrite Hret.
  cbn [set_steeringAngleDeg car.cruiseState car.accFaulted]. cbv zeta.
  unfold update_cruise in Hcruise.
  apply bind_Ok in Hcruise as ([[[faulted avail] speed] ui] & Hgroup & Hrest).
  cbv beta iota zeta in Hrest.
  apply bind_Ok in Hrest as (cluster & Hcluster & Hrest).
  apply Ok_inj in Hrest.
  repeat (apply pair_equal_spec in Hrest as [Hrest ?]). subst.
  assert (Hui : vl_sig cp
             (if bool_decide (carFingerprint CP ∈ UNSUPPORTED_DSU_CAR)
              then "PCM_CRUISE_ALT" else "PCM_CRUISE_SM")%string
             "UI_SET_SPEED" = Ok ui
          /\ (carFingerprint CP ∈ UNSUPPORTED_DSU_CAR ->
              car.accFaulted (Stock.msg st) = false)).
  { destruct (bool_decide (carFingerprint CP ∈ UNSUPPORTED_DSU_CAR))
      eqn:Hdsu; split_binds Hgroup; all_Ok; subst.
    - split; [assumption|]. intros _.
      match goal with E : false = _ |- _ => rewrite <- E end. reflexivity.
    - split; [assumption|]. intros Hin.
      apply bool_decide_eq_false in Hdsu. contradiction. }
  destruct Hui as [Hui Hfault].
  split; [|split; [|exact Hfault]].
  - intros Hzero.
    rewrite bool_decide_eq_false_2 in Hcluster
      by (intros Hn; apply Hn; exact Hzero).
    apply Ok_inj in Hcluster. symmetry. exact Hcluster.
  - intros Hnz.
    rewrite bool_decide_eq_true_2 in Hcluster by exact Hnz.
    apply bind_Ok in Hcluster as (units & Hunits & Hcluster).
    apply Ok_inj in Hcluster.
    exists units, ui. split; [exact Hunits|]. split; [exact Hui|].
    symmetry. exact Hcluster.
Qed.

(** X5.  The cruise standstill flag (PCM state 7) and the non-adaptive flag
    (PCM states 1 to 6) are read off the one signal CRUISE_STATE and never
    hold together; the standstill flag is never set on a vehicle of
    NO_STOP_TIMER_CAR that is not a TSS2 one, and where it is set the state
    kept in [pcm_acc_status] is 7. *)
Theorem cruise_standstill_exclusive CP self cp cp_cam fv fpf self' o :
  update CP self cp cp_cam fv fpf = Ok (self', o) ->
  let cs := car.cruiseState (ret o) in
  CruiseState.standstill cs && CruiseState.nonAdaptive cs = false
  /\ (carFingerprint CP ∈ NO_STOP_TIMER_CAR ∖ TSS2_CAR ->
      CruiseState.standstill cs = false)
  /\ (CruiseState.standstill cs = true ->
      pcm_acc_status self' = Some (num 7)).
Proof.
  intros Hu.
  apply update_ret in Hu as (st & Hst & Hret & Hstatus).
  apply update_stock_rest in Hst as (_ & Hpcm & _).
  rewrite Hret, Hstatus. cbn [set_steeringAngleDeg car.cruiseState].
  cbv zeta.
  unfold update_pcm_cruise in Hpcm.
  apply bind_Ok in Hpcm as (status & Hread & Hpcm).
  apply bind_Ok in Hpcm as (active & _ & Hpcm).
  rewrite Hread in Hpcm. cbn [mbind result_bind] in Hpcm.
  split_binds Hpcm. all_Ok.
  repeat match goal with
  | E : _ = CruiseState.standstill _ |- _ => rewrite <- E; clear E
  | E : _ = CruiseState.nonAdaptive _ |- _ => rewrite <- E; clear E
  | E : _ = Stock.status _ |- _ => rewrite <- E; clear E
  end.
  destruct (bool_decide (carFingerprint CP ∉ NO_STOP_TIMER_CAR ∖ TSS2_CAR))
    eqn:Hstop.
  - split; [|split].
    + destruct (bool_decide (status = num 7)) eqn:H7; [|reflexivity].
      apply bool_decide_eq_true in H7. subst status. reflexivity.
    + intros Hin. apply bool_decide_eq_true in Hstop. contradiction.
    + intros H7. apply bool_decide_eq_true in H7. subst status. reflexivity.
  - split; [reflexivity|]. split; [reflexivity | discriminate].
Qed.
(** ** Invariants of a session *)

(** A property of the object that every returned call preserves holds after
    every tick of a session, and with it what each such call guarantees. *)
Lemma session_invariant CP (I : CarState -> Prop) (Q : Tick -> Prop) :
  (forall t, I (before t) -> returned_tick CP t -> I (after t) /\ Q t) ->
  forall self ts, session CP self ts -> I self -> Forall Q ts.
Proof.
  intros Hstep self ts Hs.
  induction Hs as [self | self t ts Hb Hu Hs IH]; intros HI.
  - constructor.
  - rewrite <- Hb in HI, Hu.
    destruct (Hstep t HI Hu) as [HI' HQ].
    constructor; [exact HQ | exact (IH HI')].
Qed.

(** Every tick of a session is a call that returned. *)
Lemma session_returned CP self ts :
  session CP self ts -> Forall (returned_tick CP) ts.
Proof.
  intros Hs.
  apply (session_invariant CP (fun _ => True) (returned_tick CP)
           (fun t _ Hu => conj I Hu) self ts Hs I).
Qed.

(** ** The steering angle calibrator *)

(** Lines 99-105 in terms of the flag and the filter. *)
Lemma steering_angle_gate self cp seen filt out :
  update_steering_angle self cp = Ok (seen, filt, out) ->
  exists a f r t,
    vl_sig cp "STEER_ANGLE_SENSOR" "STEER_ANGLE" = Ok a
    /\ vl_sig cp "STEER_ANGLE_SENSOR" "STEER_FRACTION" = Ok f
    /\ vl_sig cp "STEER_ANGLE_SENSOR" "STEER_RATE" = Ok r
    /\ vl_sig cp "STEER_TORQUE_SENSOR" "STEER_ANGLE" = Ok t
    /\ seen =
       accurate_steer_angle_seen self
       || (bool_decide (eps_1e_3 < Qcabs t)
           && match vl_sig cp "STEER_TORQUE_SENSOR"
                      "STEER_ANGLE_INITIALIZING" with
              | Ok i => negb (truthy i)
              | Raise _ => false
              end)
    /\ (seen
        && (bool_decide (Qcabs (a + f) < num 90)
            && bool_decide (Qcabs r < num 100) && can_valid cp) = false ->
        filt = angle_offset self).
Proof.
  intros Hs. unfold update_steering_angle in Hs.
  apply bind_Ok in Hs as (a & Ha & Hs).
  apply bind_Ok in Hs as (f & Hf & Hs).
  apply bind_Ok in Hs as (r & Hr & Hs).
  apply bind_Ok in Hs as (t & Ht & Hs).
  apply bind_Ok in Hs as (seen0 & Hseen & Hs).
  exists a, f, r, t. do 4 (split; [assumption|]).
  assert (Hseen0 : seen0 =
       accurate_steer_angle_seen self
       || (bool_decide (eps_1e_3 < Qcabs t)
           && match vl_sig cp "STEER_TORQUE_SENSOR"
                      "STEER_ANGLE_INITIALIZING" with
              | Ok i => negb (truthy i)
              | Raise _ => false
              end)).
  { destruct (bool_decide (eps_1e_3 < Qcabs t)); cbn [andb].
    - apply bind_Ok in Hseen as (i & Hi & Hseen). rewrite Hi.
      apply Ok_inj in Hseen. rewrite <- Hseen.
      destruct (negb (truthy i));
        [rewrite orb_true_r | rewrite orb_false_r]; reflexivity.
    - apply Ok_inj in Hseen. rewrite orb_false_r. symmetry. exact Hseen. }
  rewrite <- Hseen0. clear Hseen Hseen0.
  destruct seen0.
  - destruct (bool_decide (Qcabs (a + f) < num 90)
              && bool_decide (Qcabs r < num 100) && can_valid cp) eqn:Henv.
    + apply bind_Ok in Hs as (filt0 & Hfilt & Hs).
      destruct (FirstOrderFilter.initialized filt0);
        [destruct (FirstOrderFilter.x filt0); [|discriminate]|];
        all_Ok; subst; split; first [reflexivity | discriminate].
    + cbn [mbind result_bind] in Hs.
      destruct (FirstOrderFilter.initialized (angle_offset self));
        [destruct (FirstOrderFilter.x (angle_offset self)); [|discriminate]|];
        all_Ok; subst; split; reflexivity.
  - all_Ok. subst. split; reflexivity.
Qed.

(** One tick, on the notions of a session. *)
Lemma steering_tick CP t :
  returned_tick CP t ->
  accurate_steer_angle_seen (after t) =
    accurate_steer_angle_seen (before t) || torque_angle_valid t
  /\ (accurate_steer_angle_seen (after t) && inside_envelope t = false ->
      angle_offset (after t) = angle_offset (before t)).
Proof.
  intros Hu. unfold returned_tick in Hu.
  apply update_blocks in Hu as (st & dp & db & cd & cpers & Hst & Hrest).
  destruct Hrest as
    (_ & _ & _ & _ & _ & _ & _ & _ & _ & _ & _ & Hseen & Hfilt & _).
  apply update_stock_blocks in Hst as (_ & _ & Hsteer & _).
  apply steering_angle_gate in Hsteer
    as (a & f & r & ta & Ha & Hf & Hr & Ht & Hs & Hkeep).
  rewrite Hseen, Hfilt. unfold torque_angle_valid, inside_envelope.
  rewrite Ha, Hf, Hr, Ht. split; [exact Hs | exact Hkeep].
Qed.

(** X6.  The flag [accurate_steer_angle_seen] is set by the first tick on
    which the torque sensor reports an angle above 1e-3 while not
    initializing, and nothing ever clears it: a session that starts with the
    flag set keeps it set after every tick. *)
Theorem accurate_angle_seen_sticky CP self ins ts :
  run CP self ins = Ok ts ->
  Forall (fun t =>
    accurate_steer_angle_seen (after t) =
      accurate_steer_angle_seen (before t) || torque_angle_valid t) ts
  /\ (accurate_steer_angle_seen self = true ->
      Forall (fun t => accurate_steer_angle_seen (after t) = true) ts).
Proof.
  intros Hrun. apply run_session in Hrun as [Hs _]. split.
  - eapply Forall_impl; [exact (session_returned CP self ts Hs)|].
    intros t Hu. exact (proj1 (steering_tick CP t Hu)).
  - intros Hseen.
    refine (session_invariant CP
              (fun s => accurate_steer_angle_seen s = true)
              (fun t => accurate_steer_angle_seen (after t) = true)
              _ self ts Hs Hseen).
    intros t Hb Hu. destruct (steering_tick CP t Hu) as [Hstep _].
    rewrite Hb in Hstep. split; exact Hstep.
Qed.

(** X7.  The offset filter is fed only on ticks on which an accurate angle
    has been seen, the primary angle is below 90 degrees and its rate below
    100 degrees per second in magnitude, and the bus is valid.  Over a run
    of ticks none of which is such a tick the filter stays exactly as it
    was: neither its value nor its initialization flag changes. *)
Theorem offset_filter_frozen CP self ins ts :
  run CP self ins = Ok ts ->
  Forall (fun t =>
    accurate_steer_angle_seen (after t) && inside_envelope t = false) ts ->
  Forall (fun t => angle_offset (after t) = angle_offset self) ts.
Proof.
  intros Hrun. apply run_session in Hrun as [Hs _].
  induction Hs as [self | self t ts Hb Hu Hs IH]; intros Hout.
  - constructor.
  - apply Forall_cons in Hout as [Ht Hout].
    assert (Hkeep : angle_offset (after t) = angle_offset self).
    { rewrite <- Hb in Hu |- *. exact (proj2 (steering_tick CP t Hu) Ht). }
    constructor; [exact Hkeep|].
    rewrite <- Hkeep. exact (IH Hout).
Qed.

(** ** The ACC type *)

Lemma acc_type_step CP self cp_acc acc fcw :
  update_acc_type CP self cp_acc = Ok (acc, fcw) ->
  (carFingerprint CP ∉ TSS2_CAR)
  \/ has_flag (flags CP) ToyotaFlags_DISABLE_RADAR = true
  \/ has_flag (flags CP) ToyotaFlags_SMART_DSU = true ->
  acc = acc_type self.
Proof.
  unfold update_acc_type. intros Hacc Hcase.
  destruct (bool_decide (carFingerprint CP ∈ TSS2_CAR)) eqn:Htss;
    [|cbn [andb] in Hacc; all_Ok; subst; reflexivity].
  destruct (has_flag (flags CP) ToyotaFlags_DISABLE_RADAR) eqn:Hdr;
    [cbn [negb andb] in Hacc; all_Ok; subst; reflexivity|].
  cbn [negb andb] in Hacc.
  destruct (has_flag (flags CP) ToyotaFlags_SMART_DSU) eqn:Hsd.
  - cbn [negb mbind result_bind] in Hacc.
    split_binds Hacc. all_Ok. subst. reflexivity.
  - apply bool_decide_eq_true in Htss.
    destruct Hcase as [Hn | [Hd | Hd]];
      [contradiction | discriminate | discriminate].
Qed.

(** X8.  The ACC type is read from ACC_CONTROL only on a TSS2 vehicle with
    neither DISABLE_RADAR nor SMART_DSU set.  On every other vehicle it
    stays at 1, the value the constructor gave it, through the whole
    session; on a TSS2 vehicle among them the lockout flag therefore
    follows LOW_SPEED_LOCKOUT on every tick. *)
Theorem acc_type_kept CP base ins ts :
  (carFingerprint CP ∉ TSS2_CAR)
  \/ has_flag (flags CP) ToyotaFlags_DISABLE_RADAR = true
  \/ has_flag (flags CP) ToyotaFlags_SMART_DSU = true ->
  run CP (__init__ base CP) ins = Ok ts ->
  Forall (fun t =>
    acc_type (after t) = num 1
    /\ (carFingerprint CP ∈ TSS2_CAR ->
        exists v,
          vl_sig (in_cp (input t)) "PCM_CRUISE_2" "LOW_SPEED_LOCKOUT" = Ok v
          /\ low_speed_lockout (after t) = bool_decide (v = num 2))) ts.
Proof.
  intros Hcase Hrun. apply run_session in Hrun as [Hs _].
  refine (session_invariant CP (fun s => acc_type s = num 1) _ _
            (__init__ base CP) ts Hs eq_refl).
  intros t Hb Hu. unfold returned_tick in Hu.
  pose proof (lockout_of_tick _ _ _ _ _ _ _ _ Hu) as Hlock.
  apply update_blocks in Hu as (st & dp & db & cd & cpers & Hst & Hrest).
  destruct Hrest as
    (_ & _ & _ & _ & _ & _ & _ & _ & _ & _ & _ & _ & _ & _ & Hacc & _).
  apply update_stock_blocks in Hst as (_ & _ & _ & _ & Htype & _).
  apply acc_type_step in Htype; [|exact Hcase].
  assert (Hone : acc_type (after t) = num 1)
    by (rewrite Hacc, Htype; exact Hb).
  split; [exact Hone|]. split; [exact Hone|].
  intros Htss. unfold update_low_speed_lockout, lockout_conclusive in Hlock.
  rewrite Hone in Hlock.
  rewrite (bool_decide_eq_true_2 _ Htss) in Hlock.
  rewrite (bool_decide_eq_true_2 (num 1 = num 1)) in Hlock by reflexivity.
  rewrite orb_true_r in Hlock.
  apply bind_Ok in Hlock as (v & Hv & Hlock). apply Ok_inj in Hlock.
  exists v. split; [exact Hv | symmetry; exact Hlock].
Qed.
(** ** The secondary sensor *)

Lemma diverges_self (a : Qc) : diverges a a = false.
Proof.
  unfold diverges. replace (a - a) with (Q2Qc 0) by ring.
  apply bool_decide_eq_false_2. intros Hlt. revert Hlt.
  vm_compute. discriminate.
Qed.

Lemma zss_candidate_at_recompute (zorro primary : Qc) :
  zorro - (zorro - primary) = primary.
Proof. ring. Qed.

(** The angle of the message, on a tick with the ZSS block on. *)
Lemma zss_tick_angle CP t :
  returned_tick CP t ->
  zss_on CP t = true ->
  car.steeringAngleDeg (ret (output t)) =
    if tick_diverged CP t then tick_primary CP t
    else tick_zorro t - zss_angle_offset (after t).
Proof.
  intros Hu Hon. unfold returned_tick in Hu.
  apply update_blocks in Hu as (st & dp & db & cd & cpers & Hst & Hrest).
  destruct Hrest as (_ & _ & _ & _ & _ & Hzss & _).
  unfold zss_on in Hon. unfold zss_support in Hzss. rewrite Hon in Hzss.
  apply bind_Ok in Hzss as (zorro & Hzorro & Hzss). apply Ok_inj in Hzss.
  pose proof (zss_block_angle (before t) (cruise_available (Stock.msg st))
                (car.steeringAngleDeg (Stock.msg st)) zorro) as Hangle.
  cbv zeta in Hangle. rewrite Hzss in Hangle. cbn [fst snd] in Hangle.
  unfold tick_diverged, tick_primary, tick_zorro, tick_stock.
  rewrite Hst, Hzorro. exact Hangle.
Qed.

(** X9.  The divergence counter moves only while it is below its cap of
    10, by at most one per tick, and a rising edge of cruise availability
    sends it back to zero first: from a counter between 0 and 10 it is
    between 0 and 10 after every tick of the session. *)
Theorem zss_count_bounded CP self ins ts :
  run CP self ins = Ok ts ->
  (0 <= zss_threshold_count self <= ZSS_THRESHOLD_COUNT)%Z ->
  Forall (fun t =>
    (0 <= zss_threshold_count (after t) <= ZSS_THRESHOLD_COUNT)%Z
    /\ (zss_threshold_count (after t)
        <= zss_threshold_count (before t) + 1)%Z) ts.
Proof.
  intros Hrun Hc. apply run_session in Hrun as [Hs _].
  refine (session_invariant CP
            (fun s => (0 <= zss_threshold_count s <= ZSS_THRESHOLD_COUNT)%Z)
            _ _ self ts Hs Hc).
  intros t Hb Hu.
  assert (Hstep :
    (0 <= zss_threshold_count (after t) <= ZSS_THRESHOLD_COUNT)%Z
    /\ (zss_threshold_count (after t)
        <= zss_threshold_count (before t) + 1)%Z).
  { destruct (zss_on CP t) eqn:Hon.
    - destruct (zss_on_tick CP t Hu Hon) as (_ & _ & _ & Hcount).
      unfold zss_on, zss_active in Hon.
      apply andb_true_iff in Hon as [_ Hlt]. apply Z.ltb_lt in Hlt.
      rewrite Hcount.
      destruct (rising_edge t), (tick_diverged CP t);
        unfold ZSS_THRESHOLD_COUNT in *; lia.
    - unfold zss_on in Hon.
      destruct (zss_off_tick _ _ _ _ _ _ _ _ Hon Hu) as (Hz & _).
      rewrite (zss_of_count _ _ Hz). lia. }
  split; [exact (proj1 Hstep) | exact Hstep].
Qed.

(** X10.  On the tick that takes the offset (a recompute is pending, or
    cruise just became available, and both angles exceed 1e-3) the offset
    becomes secondary minus primary, so the candidate of that very tick is
    the primary angle itself: the tick returns the primary angle unchanged
    and counts no divergence. *)
Theorem zss_recompute_neutral CP t :
  returned_tick CP t ->
  zss_on CP t = true ->
  rising_edge t || zss_compute (before t) = true ->
  both_nonzero CP t = true ->
  zss_angle_offset (after t) = tick_zorro t - tick_primary CP t
  /\ tick_diverged CP t = false
  /\ car.steeringAngleDeg (ret (output t)) = tick_primary CP t
  /\ zss_threshold_count (after t) =
     (if rising_edge t then 0 else zss_threshold_count (before t))%Z.
Proof.
  intros Hu Hon Hpend Hboth.
  destruct (zss_on_tick CP t Hu Hon) as (_ & Ho & _ & Hcount).
  rewrite Hpend, Hboth in Ho. cbn [andb] in Ho.
  assert (Hdiv : tick_diverged CP t = false).
  { unfold tick_diverged. rewrite Ho, zss_candidate_at_recompute.
    apply diverges_self. }
  pose proof (zss_tick_angle CP t Hu Hon) as Hangle.
  rewrite Hdiv, Ho, zss_candidate_at_recompute in Hangle.
  rewrite Hdiv in Hcount.
  split; [exact Ho|]. split; [exact Hdiv|]. split; [exact Hangle|].
  rewrite Hcount. destruct (rising_edge t); lia.
Qed.
(** ** The traffic-sign accumulator *)

(** [new_values] assigns each of the nine signals, and nothing else. *)
Lemma new_values_keys rsa1 rsa2 (k : string) :
  is_Some (new_values rsa1 rsa2 !! k) <-> k ∈ signals.
Proof.
  unfold new_values.
  set (f := fun signal : string =>
              (signal,
               match rsa1 !! signal with
               | Some v => Some v
               | None => rsa2 !! signal
               end)).
  assert (Hfst : (f <$> signals).*1 = signals).
  { rewrite <- list_fmap_compose. apply list_fmap_id. }
  split.
  - intros [v Hv]. apply elem_of_list_to_map_2 in Hv.
    rewrite <- Hfst. apply list_elem_of_fmap. exists (k, v).
    split; [reflexivity | exact Hv].
  - intros Hk. apply not_eq_None_Some. intros Hnone.
    apply not_elem_of_list_to_map in Hnone. apply Hnone.
    rewrite Hfst. exact Hk.
Qed.

Lemma new_values_lookup rsa1 rsa2 (k : string) :
  k ∈ signals ->
  new_values rsa1 rsa2 !! k =
    Some (match rsa1 !! k with
          | Some v => Some v
          | None => rsa2 !! k
          end).
Proof.
  intros Hk. unfold new_values.
  apply elem_of_list_to_map_1.
  - rewrite <- list_fmap_compose, list_fmap_id. compute_done.
  - apply list_elem_of_fmap. exists k. split; [reflexivity | exact Hk].
Qed.

(** A cache within the nine signals is overwritten as a whole. *)
Lemma cache_overwritten rsa1 rsa2 (cache : gmap string (option Qc)) :
  (forall k, is_Some (cache !! k) -> k ∈ signals) ->
  new_values rsa1 rsa2 ∪ cache = new_values rsa1 rsa2.
Proof.
  intros Hin. apply map_eq. intros k.
  destruct (new_values rsa1 rsa2 !! k) as [v|] eqn:Hnew.
  - apply lookup_union_Some_l. exact Hnew.
  - rewrite lookup_union_r by exact Hnew.
    destruct (cache !! k) as [w|] eqn:Hold; [|reflexivity].
    exfalso.
    assert (Hk : k ∈ signals) by (apply Hin; rewrite Hold; eauto).
    apply new_values_keys with (rsa1 := rsa1) (rsa2 := rsa2) in Hk.
    rewrite Hnew in Hk. destruct Hk as [? Hk]. discriminate.
Qed.

Lemma traffic_tick CP t :
  returned_tick CP t ->
  cache_within_signals (before t) ->
  traffic_signals (after t) = tick_signs t
  /\ cache_within_signals (after t).
Proof.
  intros Hu Hin. unfold returned_tick in Hu.
  apply update_blocks in Hu as (st & dp & db & cd & cpers & _ & Hrest).
  destruct Hrest as (_ & _ & _ & Hcache & _).
  apply traffic_signals_assembled in Hcache
    as (rsa1 & rsa2 & H1 & H2 & Hcache).
  assert (Hnew : traffic_signals (after t) = new_values rsa1 rsa2).
  { rewrite Hcache.
    destruct (bool_decide (new_values rsa1 rsa2 <> traffic_signals (before t)))
      eqn:Hneq.
    - apply cache_overwritten. exact Hin.
    - apply bool_decide_eq_false in Hneq.
      destruct (decide (new_values rsa1 rsa2 = traffic_signals (before t)))
        as [E|E]; [symmetry; exact E | contradiction]. }
  split.
  - unfold tick_signs. rewrite H1, H2. exact Hnew.
  - unfold cache_within_signals. rewrite Hnew. intros k.
    apply new_values_keys.
Qed.

(** The constructor leaves the cache empty. *)
Lemma cache_within_signals_init base CP :
  cache_within_signals (__init__ base CP).
Proof.
  intros k [v Hv]. cbn in Hv. rewrite lookup_empty in Hv. discriminate.
Qed.

(** X11.  The cache of a fresh object is empty, and a cache that holds none
    but the nine signals is overwritten as a whole by every call: after
    every tick of a session the cache is exactly the nine values assembled
    from the frame of that tick, whatever the ticks before it saw. *)
Theorem traffic_cache_is_latest CP self ins ts :
  run CP self ins = Ok ts ->
  cache_within_signals self ->
  Forall (fun t => traffic_signals (after t) = tick_signs t) ts.
Proof.
  intros Hrun Hin. apply run_session in Hrun as [Hs _].
  refine (session_invariant CP cache_within_signals _ _ self ts Hs Hin).
  intros t Hb Hu. destruct (traffic_tick CP t Hu Hb) as [Hnew Hin'].
  split; assumption.
Qed.

(** X12.  The fallback [cp_cam.vl["RSA2"].get(signal)] is evaluated before
    RSA1 is consulted: on a frame without the message RSA2 the call raises
    KeyError, also when RSA1 carries all nine signals, and the tick does not
    return. *)
Theorem traffic_signals_need_rsa2 CP self cp cp_cam fv fpf :
  vl cp_cam !! "RSA2"%string = None ->
  (forall rsa1,
     vl cp_cam !! "RSA1"%string = Some rsa1 ->
     update_traffic_signals self cp_cam = Raise (KeyError "RSA2"))
  /\ is_Ok (update CP self cp cp_cam fv fpf) = false.
Proof.
  intros Hnone. split.
  - intros rsa1 H1. unfold update_traffic_signals, vl_msg.
    rewrite H1, Hnone. reflexivity.
  - destruct (update CP self cp cp_cam fv fpf) as [[self' o]|e] eqn:Hu;
      [|reflexivity].
    apply update_blocks in Hu as (st & dp & db & cd & cpers & _ & Hrest).
    destruct Hrest as (_ & _ & _ & Hcache & _).
    apply traffic_signals_assembled in Hcache as (rsa1 & rsa2 & _ & H2 & _).
    unfold vl_msg in H2. rewrite Hnone in H2. discriminate.
Qed.

(** X13.  A speed value seen on an earlier tick is not kept.  When neither
    RSA1 nor RSA2 carries SPDVAL1, the cache holds [None] for it whatever it
    held before, and with the mph override on the limit is computed from
    that [None]: the computation raises TypeError and the tick does not
    return. *)
Theorem speed_limit_needs_value CP self cp cp_cam fv fpf rsa1 rsa2 :
  vl cp_cam !! "RSA1"%string = Some rsa1 ->
  vl cp_cam !! "RSA2"%string = Some rsa2 ->
  rsa1 !! "SPDVAL1"%string = None ->
  rsa2 !! "SPDVAL1"%string = None ->
  force_mph_dashboard fv = true ->
  (exists cache,
     update_traffic_signals self cp_cam = Ok cache
     /\ cache_get cache "SPDVAL1" = None
     /\ calculate_speed_limit cache fv = Raise TypeError)
  /\ is_Ok (update CP self cp cp_cam fv fpf) = false.
Proof.
  intros H1 H2 Hv1 Hv2 Hmph.
  assert (Hnew : new_values rsa1 rsa2 !! "SPDVAL1"%string = Some None).
  { rewrite new_values_lookup by compute_done. rewrite Hv1, Hv2.
    reflexivity. }
  assert (Hcache : exists cache,
     update_traffic_signals self cp_cam = Ok cache
     /\ cache_get cache "SPDVAL1" = None).
  { unfold update_traffic_signals, vl_msg. rewrite H1, H2.
    cbn [mbind result_bind].
    destruct (bool_decide (new_values rsa1 rsa2 <> traffic_signals self))
      eqn:Hneq.
    - eexists. split; [reflexivity|]. unfold cache_get.
      rewrite (lookup_union_Some_l _ _ _ _ Hnew). reflexivity.
    - apply bool_decide_eq_false in Hneq.
      destruct (decide (new_values rsa1 rsa2 = traffic_signals self))
        as [E|E]; [|contradiction].
      eexists. split; [reflexivity|]. unfold cache_get.
      rewrite <- E, Hnew. reflexivity. }
  destruct Hcache as (cache & Hcache & Hnone).
  assert (Hraise : calculate_speed_limit cache fv = Raise TypeError).
  { apply speed_limit_without_value; [exact Hnone|]. right. right.
    exact Hmph. }
  split.
  - exists cache. repeat split; assumption.
  - destruct (update CP self cp cp_cam fv fpf) as [[self' o]|e] eqn:Hu;
      [|reflexivity].
    apply update_blocks in Hu as (st & dp & db & cd & cpers & _ & Hrest).
    destruct Hrest as (_ & _ & _ & Hc & Hlimit & _).
    rewrite Hcache in Hc. apply Ok_inj in Hc. subst cache.
    rewrite Hraise in Hlimit. discriminate.
Qed.
(** ** The buttons *)

(** The calls of the distance block are never the LKAS toggle, and those of
    the personality block are at most the acknowledgement. *)
Lemma distance_calls_kinds self fv available dp db calls :
  distance_button_functions self fv available dp = Ok (db, calls) ->
  List.filter is_lkas_toggle calls = []
  /\ (available = false ->
      calls = []
      /\ db_counter db = distance_pressed_counter self
      /\ db_previously_pressed db = distance_previously_pressed self
      /\ db_previous_personality_profile db =
         previous_personality_profile self
      /\ db_profile_restored db = profile_restored self).
Proof.
  unfold distance_button_functions. intros Hdb.
  destruct available.
  - destruct dp as [d|]; [|discriminate].
    split; [|discriminate].
    destruct (truthy d); [|destruct (truthy _); [destruct (_ <? _)%Z|]];
      cbv beta iota zeta in Hdb; all_Ok; subst;
      destruct (_ && experimental_mode_via_distance fv),
        (_ && traffic_mode fv); unfold toggle_call;
      destruct (conditional_experimental_mode fv); reflexivity.
  - all_Ok. subst. repeat split; reflexivity.
Qed.

Lemma personality_calls_kinds self db fv fpf available cp r calls :
  sync_personality self db fv fpf available cp = Ok (r, calls) ->
  calls = [] \/ calls = [reset_personality_changed_param]%list.
Proof.
  unfold sync_personality. intros Hsync.
  destruct (personalities_via_wheel fv && available).
  - apply bind_Ok in Hsync as (lines & _ & Hsync).
    destruct (personality_changed_via_ui fpf);
      cbv beta iota zeta in Hsync; all_Ok; subst; [right | left];
      reflexivity.
  - all_Ok. subst. left. reflexivity.
Qed.

(** The availability the FrogPilot blocks are given is the one the message
    returns. *)
Lemma update_available CP self cp cp_cam fv fpf self' o st :
  update CP self cp cp_cam fv fpf = Ok (self', o) ->
  update_stock CP self cp cp_cam = Ok st ->
  cruise_available (Stock.msg st) = cruise_available (ret o).
Proof.
  intros Hu Hst. apply update_ret in Hu as (st' & Hst' & Hret & _).
  rewrite Hst in Hst'. apply Ok_inj in Hst'. subst st'.
  rewrite Hret. reflexivity.
Qed.

(** X14.  All three FrogPilot button blocks are gated on cruise being
    available.  A tick that returns a message with cruise unavailable makes
    no call on [fpf] and leaves the state of the LKAS button, of the
    distance button and of the personality as it was. *)
Theorem cruise_off_inert CP self cp cp_cam fv fpf self' o :
  update CP self cp cp_cam fv fpf = Ok (self', o) ->
  cruise_available (ret o) = false ->
  fpf_calls o = []
  /\ lkas_previously_pressed self' = lkas_previously_pressed self
  /\ distance_pressed_counter self' = distance_pressed_counter self
  /\ distance_previously_pressed self' = distance_previously_pressed self
  /\ personality_profile self' = personality_profile self
  /\ previous_personality_profile self' = previous_personality_profile self
  /\ profile_restored self' = profile_restored self
  /\ distance_button self' = distance_button self.
Proof.
  intros Hu Hoff. pose proof Hu as Hb.
  apply update_blocks in Hb as (st & dp & db & cd & cpers & Hst & Hrest).
  destruct Hrest as
    (_ & Hdb & Hsync & _ & _ & _ & _ & Hcalls & Hlkas & Hcount & Hprev & _).
  rewrite (update_available _ _ _ _ _ _ _ _ _ Hu Hst), Hoff
    in Hdb, Hsync, Hcalls, Hlkas.
  apply distance_calls_kinds in Hdb as (_ & Hdb).
  destruct (Hdb eq_refl) as (Hcd & Hc & Hp & Hpp & Hr).
  unfold sync_personality in Hsync. rewrite andb_false_r in Hsync.
  all_Ok. subst cd cpers.
  unfold lkas_button in Hcalls, Hlkas.
  rewrite andb_false_r in Hcalls, Hlkas.
  cbn [andb fst snd app] in Hcalls, Hlkas.
  repeat split; congruence.
Qed.

(** One tick of the distance block, whatever the LKAS toggle is set to. *)
Lemma distance_state_tick CP t :
  returned_tick CP t ->
  (tick_available t = false ->
   distance_pressed_counter (after t) = distance_pressed_counter (before t)
   /\ distance_previously_pressed (after t) =
      distance_previously_pressed (before t))
  /\ (tick_available t = true ->
      exists d,
        button CP t = Some d
        /\ distance_previously_pressed (after t) = d
        /\ distance_pressed_counter (after t) =
           (if truthy d then distance_pressed_counter (before t) + 1
            else if truthy (distance_previously_pressed (before t)) then 0
                 else distance_pressed_counter (before t))%Z).
Proof.
  intros Hu. unfold returned_tick in Hu. pose proof Hu as Hb.
  apply update_blocks in Hb as (st & dp & db & cd & cpers & Hst & Hrest).
  destruct Hrest as
    (Hdp & Hdb & _ & _ & _ & _ & _ & _ & _ & Hcount & Hprev & _).
  rewrite (update_available _ _ _ _ _ _ _ _ _ Hu Hst) in Hdb.
  fold (tick_available t) in Hdb.
  split; intros Hav; rewrite Hav in Hdb.
  - apply distance_calls_kinds in Hdb as (_ & Hdb).
    destruct (Hdb eq_refl) as (_ & Hc & Hp & _).
    split; congruence.
  - unfold distance_button_functions in Hdb.
    destruct dp as [d|]; [|discriminate].
    exists d. split; [unfold button; rewrite Hdp; reflexivity|].
    rewrite Hcount, Hprev.
    destruct (truthy d); [|destruct (truthy _); [destruct (_ <? _)%Z|]];
      cbv beta iota zeta in Hdb; all_Ok; subst; split; reflexivity.
Qed.

(** X15.  The hold counter is never negative and is above zero only while
    the button is held: the invariant survives every tick, with cruise
    available or not, so every tick on which the button is read as up ends
    with the counter at zero and every hold starts counting from zero. *)
Theorem distance_counter_tracks_hold CP self ins ts :
  run CP self ins = Ok ts ->
  counter_tracks_hold self ->
  Forall (fun t =>
    counter_tracks_hold (after t)
    /\ (let_go CP t = true -> distance_pressed_counter (after t) = 0%Z)) ts.
Proof.
  intros Hrun Hinv. apply run_session in Hrun as [Hs _].
  refine (session_invariant CP counter_tracks_hold _ _ self ts Hs Hinv).
  intros t [Hnn Hheld] Hu.
  destruct (distance_state_tick CP t Hu) as [Hoff Hon].
  assert (Hstep : counter_tracks_hold (after t)
    /\ (let_go CP t = true -> distance_pressed_counter (after t) = 0%Z)).
  { unfold let_go, counter_tracks_hold.
    destruct (tick_available t).
    - destruct (Hon eq_refl) as (d & Hd & Hp & Hc).
      rewrite Hd, Hp, Hc. cbn [andb].
      destruct (truthy d) eqn:Htd.
      + split; [split; [lia | reflexivity] | discriminate].
      + destruct (truthy (distance_previously_pressed (before t))) eqn:Htp.
        * split; [split; [lia | intros Hn; contradiction Hn; reflexivity]|].
          reflexivity.
        * assert (Hz : distance_pressed_counter (before t) = 0%Z).
          { destruct (decide (distance_pressed_counter (before t) = 0%Z))
              as [E|E]; [exact E|].
            specialize (Hheld E). discriminate. }
          rewrite Hz.
          split; [split; [lia | intros Hn; contradiction Hn; reflexivity]|].
          reflexivity.
    - destruct (Hoff eq_refl) as [Hc Hp]. rewrite Hc, Hp.
      split; [split; assumption | discriminate]. }
  split; [exact (proj1 Hstep) | exact Hstep].
Qed.
(** *** Holding the distance button *)

Lemma count_calls_app (p : fpf_call -> bool) (a b : list fpf_call) :
  count_calls p (a ++ b) = (count_calls p a + count_calls p b)%nat.
Proof. unfold count_calls. rewrite List.filter_app, length_app. reflexivity. Qed.

(** The events of a tick on which the counter stands at [c], with both
    long-press functions enabled. *)
Lemma count_threshold fv (c : Z) cpers :
  experimental_mode_via_distance fv = true ->
  traffic_mode fv = true ->
  cpers = [] \/ cpers = [reset_personality_changed_param]%list ->
  count_calls is_toggle (threshold_calls fv c ++ cpers) =
    ((if (c =? CRUISE_LONG_PRESS)%Z then 1 else 0)
     + (if (c =? CRUISE_LONG_PRESS * 5)%Z then 1 else 0))%nat
  /\ count_calls is_traffic (threshold_calls fv c ++ cpers) =
     (if (c =? CRUISE_LONG_PRESS * 5)%Z then 1 else 0)%nat
  /\ count_calls is_cycle (threshold_calls fv c ++ cpers) = 0%nat.
Proof.
  intros Hvia Htm Hack. unfold threshold_calls, toggle_call.
  rewrite Hvia, Htm, !andb_true_r.
  destruct (c =? CRUISE_LONG_PRESS)%Z, (c =? CRUISE_LONG_PRESS * 5)%Z,
    (conditional_experimental_mode fv), Hack as [-> | ->];
    repeat split; reflexivity.
Qed.

(** Decide every comparison of integers in the goal and leave the
    arithmetic to [lia]. *)
Ltac by_comparisons :=
  repeat match goal with
  | |- context [(?a <? ?b)%Z] => destruct (Z.ltb_spec a b)
  | |- context [(?a <=? ?b)%Z] => destruct (Z.leb_spec a b)
  | |- context [(?a =? ?b)%Z] => destruct (Z.eqb_spec a b)
  end;
  cbn [andb negb]; try reflexivity; try lia.

(** A hold of any length, with both long-press functions enabled: each
    threshold fires on the tick that brings the counter to it. *)
Lemma hold_events CP rest : forall hold self,
  session CP self (hold ++ rest) ->
  Forall (fun t =>
    held CP t = true /\ lkas_off t = true /\ via_distance t = true
    /\ traffic_mode (in_fv (input t)) = true) hold ->
  (0 < CRUISE_LONG_PRESS)%Z ->
  let c := distance_pressed_counter self in
  let n := Z.of_nat (length hold) in
  count_calls is_toggle (calls_of hold) =
    ((if (c <? CRUISE_LONG_PRESS)%Z && (CRUISE_LONG_PRESS <=? c + n)%Z
      then 1 else 0)
     + (if (c <? CRUISE_LONG_PRESS * 5)%Z
           && (CRUISE_LONG_PRESS * 5 <=? c + n)%Z
        then 1 else 0))%nat
  /\ count_calls is_traffic (calls_of hold) =
     (if (c <? CRUISE_LONG_PRESS * 5)%Z
         && (CRUISE_LONG_PRESS * 5 <=? c + n)%Z
      then 1 else 0)%nat
  /\ count_calls is_cycle (calls_of hold) = 0%nat
  /\ exists mid,
       session CP mid rest
       /\ distance_pressed_counter mid = (c + n)%Z
       /\ (hold <> [] -> truthy (distance_previously_pressed mid) = true)
       /\ (hold = [] -> mid = self).
Proof.
  induction hold as [|t hold IH]; intros self Hs Hh Hpos; cbv zeta.
  - cbn [length app] in *. change (Z.of_nat 0) with 0%Z.
    rewrite Z.add_0_r.
    split; [by_comparisons|]. split; [by_comparisons|].
    split; [reflexivity|].
    exists self. split; [exact Hs|]. split; [reflexivity|].
    split; [intros Hn; contradiction Hn; reflexivity | reflexivity].
  - cbn [app] in Hs. apply session_inv in Hs as (Hb & Hu & Hrest).
    apply Forall_cons in Hh as [(Hheld & Hlkas & Hvia & Htm) Hh].
    destruct (held_tick CP t Hu Hheld Hlkas)
      as (cpers & Hc & Hprev & Hcalls & Hack).
    rewrite Hb in Hc, Hcalls.
    destruct (count_threshold (in_fv (input t))
                (distance_pressed_counter self + 1) cpers Hvia Htm Hack)
      as (Ht & Htr & Hcy).
    destruct (IH (after t) Hrest Hh Hpos) as (Ht' & Htr' & Hcy' & mid & Hm).
    destruct Hm as (Hsm & Hcm & Hpm & Hem).
    rewrite calls_of_cons, !count_calls_app, Hcalls, Ht, Htr, Hcy,
      Ht', Htr', Hcy', Hc.
    cbn [length]. rewrite Nat2Z.inj_succ.
    set (c := distance_pressed_counter self) in *.
    set (n := Z.of_nat (length hold)) in *.
    assert (Hn : (0 <= n)%Z) by (subst n; lia).
    split; [by_comparisons|]. split; [by_comparisons|].
    split; [reflexivity|].
    exists mid. split; [exact Hsm|]. split; [lia|].
    split; [|discriminate].
    intros _. destruct hold as [|t' hold'].
    + rewrite (Hem eq_refl). exact Hprev.
    + apply Hpm. discriminate.
Qed.

(** What the button blocks call while the button stays up. *)
Lemma idle_calls CP : forall rel self,
  session CP self rel ->
  Forall (fun t => let_go CP t = true /\ lkas_off t = true) rel ->
  (0 < CRUISE_LONG_PRESS)%Z ->
  distance_pressed_counter self = 0%Z ->
  truthy (distance_previously_pressed self) = false ->
  button_calls (calls_of rel) = [].
Proof.
  induction rel as [|t rel IH]; intros self Hs Hrel Hpos Hc0 Hp0.
  - reflexivity.
  - apply session_inv in Hs as (Hb & Hu & Hrest).
    apply Forall_cons in Hrel as [[Hgo Hlkas] Hrel].
    rewrite <- Hb in Hp0, Hc0.
    destruct (idle_tick CP t Hu Hgo Hlkas Hp0)
      as (cpers & Hc & Hprev & Hcalls & Hack).
    rewrite Hc0 in Hc, Hcalls.
    rewrite calls_of_cons. unfold button_calls.
    rewrite List.filter_app. fold (button_calls (fpf_calls (output t))).
    fold (button_calls (calls_of rel)).
    rewrite Hcalls, (button_calls_threshold _ _ _ Hack).
    rewrite threshold_calls_none by lia.
    exact (IH (after t) Hrest Hrel Hpos Hc Hprev).
Qed.

(** What the button blocks call when the button is let go after a hold. *)
Lemma release_calls CP r1 rel self :
  session CP self (r1 :: rel) ->
  Forall (fun t => let_go CP t = true /\ lkas_off t = true) (r1 :: rel) ->
  (0 < CRUISE_LONG_PRESS)%Z ->
  truthy (distance_previously_pressed self) = true ->
  button_calls (calls_of (r1 :: rel)) =
    if (distance_pressed_counter self <? CRUISE_LONG_PRESS)%Z
    then [distance_button_function
            (py_mod (personality_profile self + num 2) (num 3))]%list
    else [].
Proof.
  intros Hs Hrel Hpos Hp.
  apply session_inv in Hs as (Hb & Hu & Hrest).
  apply Forall_cons in Hrel as [[Hgo Hlkas] Hrel].
  rewrite <- Hb in Hp.
  destruct (let_go_tick CP r1 Hu Hgo Hlkas Hp)
    as (cpers & Hc & Hprev & Hcalls & Hack).
  rewrite Hb in Hcalls.
  rewrite calls_of_cons. unfold button_calls.
  rewrite List.filter_app. fold (button_calls (fpf_calls (output r1))).
  fold (button_calls (calls_of rel)).
  rewrite (idle_calls CP rel (after r1) Hrest Hrel Hpos Hc Hprev), app_nil_r.
  rewrite Hcalls. unfold button_calls at 1. rewrite List.filter_app.
  fold (button_calls (threshold_calls (in_fv (input r1)) 0 ++ cpers)).
  rewrite (button_calls_threshold _ _ _ Hack).
  rewrite threshold_calls_none by lia. rewrite app_nil_r.
  destruct (distance_pressed_counter self <? CRUISE_LONG_PRESS)%Z;
    reflexivity.
Qed.

(** Counting calls other than the acknowledgement may leave it out. *)
Lemma count_button_calls (p : fpf_call -> bool) (cs : list fpf_call) :
  p reset_personality_changed_param = false ->
  count_calls p cs = count_calls p (button_calls cs).
Proof.
  intros Hp. unfold count_calls, button_calls.
  induction cs as [|c cs IH]; [reflexivity|].
  cbn [List.filter].
  destruct (bool_decide (c = reset_personality_changed_param)) eqn:Hc.
  - apply bool_decide_eq_true in Hc. subst c. rewrite Hp. cbn [negb].
    exact IH.
  - cbn [negb List.filter]. destruct (p c); cbn [length]; rewrite IH;
      reflexivity.
Qed.

(** X16.  Take a session, with cruise available, the LKAS gesture off and
    both long-press functions enabled, in which the distance button is at
    rest, is then held for [n] ticks and is up for the ticks after them.
    The Experimental Mode toggle is called once if [n] reaches
    CRUISE_LONG_PRESS and once more if it reaches five times that, where
    the Traffic Mode toggle is called once: a hold that long toggles
    Experimental Mode twice, back to where it was.  The personality cycles
    once, at the release, exactly when the hold was shorter than
    CRUISE_LONG_PRESS. *)
Theorem hold_event_counts CP self ins hold rel :
  (0 < CRUISE_LONG_PRESS)%Z ->
  run CP self ins = Ok (hold ++ rel) ->
  distance_pressed_counter self = 0%Z ->
  truthy (distance_previously_pressed self) = false ->
  Forall (fun t =>
    held CP t = true /\ lkas_off t = true /\ via_distance t = true
    /\ traffic_mode (in_fv (input t)) = true) hold ->
  Forall (fun t => let_go CP t = true /\ lkas_off t = true) rel ->
  let n := Z.of_nat (length hold) in
  count_calls is_toggle (calls_of (hold ++ rel)) =
    ((if (CRUISE_LONG_PRESS <=? n)%Z then 1 else 0)
     + (if (CRUISE_LONG_PRESS * 5 <=? n)%Z then 1 else 0))%nat
  /\ count_calls is_traffic (calls_of (hold ++ rel)) =
     (if (CRUISE_LONG_PRESS * 5 <=? n)%Z then 1 else 0)%nat
  /\ count_calls is_cycle (calls_of (hold ++ rel)) =
     (if (0 <? n)%Z && (n <? CRUISE_LONG_PRESS)%Z
         && bool_decide (rel <> [])
      then 1 else 0)%nat.
Proof.
  intros Hpos Hrun Hc0 Hp0 Hhold Hrel. cbv zeta.
  apply run_session in Hrun as [Hs _].
  destruct (hold_events CP rel hold self Hs Hhold Hpos)
    as (Ht & Htr & Hcy & mid & Hsm & Hcm & Hpm & Hem).
  rewrite Hc0 in Ht, Htr, Hcm. rewrite Z.add_0_l in Ht, Htr, Hcm.
  assert (Hlt : (0 <? CRUISE_LONG_PRESS)%Z = true) by (apply Z.ltb_lt; lia).
  assert (Hlt5 : (0 <? CRUISE_LONG_PRESS * 5)%Z = true)
    by (apply Z.ltb_lt; lia).
  rewrite Hlt, Hlt5 in Ht. rewrite Hlt5 in Htr. cbn [andb] in Ht, Htr.
  assert (Hrelease :
    button_calls (calls_of rel) =
      if (0 <? Z.of_nat (length hold))%Z
         && (Z.of_nat (length hold) <? CRUISE_LONG_PRESS)%Z
         && bool_decide (rel <> [])
      then [distance_button_function
              (py_mod (personality_profile mid + num 2) (num 3))]%list
      else []).
  { destruct rel as [|r1 rel'].
    - rewrite bool_decide_eq_false_2 by (intros Hn; apply Hn; reflexivity).
      rewrite andb_false_r. reflexivity.
    - rewrite bool_decide_eq_true_2 by discriminate. rewrite andb_true_r.
      destruct hold as [|t hold'].
      + rewrite (Hem eq_refl) in Hsm.
        rewrite (idle_calls CP _ self Hsm Hrel Hpos Hc0 Hp0). reflexivity.
      + rewrite (release_calls CP r1 rel' mid Hsm Hrel Hpos)
          by (apply Hpm; discriminate).
        rewrite Hcm.
        assert (H0 : (0 <? Z.of_nat (length (t :: hold')))%Z = true)
          by (apply Z.ltb_lt; cbn [length]; lia).
        rewrite H0. reflexivity. }
  rewrite calls_of_app, !count_calls_app, Ht, Htr, Hcy.
  rewrite (count_button_calls is_toggle (calls_of rel)) by reflexivity.
  rewrite (count_button_calls is_traffic (calls_of rel)) by reflexivity.
  rewrite (count_button_calls is_cycle (calls_of rel)) by reflexivity.
  rewrite Hrelease.
  destruct ((0 <? Z.of_nat (length hold))%Z
            && (Z.of_nat (length hold) <? CRUISE_LONG_PRESS)%Z
            && bool_decide (rel <> []));
    cbn [count_calls List.filter is_toggle is_traffic is_cycle length];
    rewrite ?Nat.add_0_r; repeat split; reflexivity.
Qed.
(** *** The LKAS button *)

(** One tick of the LKAS block. *)
Lemma lkas_tick CP t :
  returned_tick CP t ->
  lkas_previously_pressed (after t) =
    (if lkas_gate CP t then lkas_down t
     else lkas_previously_pressed (before t))
  /\ exists others,
       fpf_calls (output t) =
         (if lkas_gate CP t && lkas_down t
             && negb (lkas_previously_pressed (before t))
          then [toggle_call (in_fv (input t)) update_cestatus_lkas]%list
          else [])
         ++ others
       /\ List.filter is_lkas_toggle others = [].
Proof.
  intros Hu. unfold returned_tick in Hu. pose proof Hu as Hb.
  apply update_blocks in Hb as (st & dp & db & cd & cpers & Hst & Hrest).
  destruct Hrest as
    (_ & Hdb & Hsync & _ & _ & _ & _ & Hcalls & Hlkas & _).
  rewrite (update_available _ _ _ _ _ _ _ _ _ Hu Hst) in Hcalls, Hlkas.
  fold (tick_available t) in Hcalls, Hlkas.
  apply update_stock_blocks in Hst as (_ & _ & _ & _ & _ & _ & Hhud).
  apply distance_calls_kinds in Hdb as (Hcd & _).
  apply personality_calls_kinds in Hsync.
  assert (Hothers : List.filter is_lkas_toggle (cd ++ cpers) = []).
  { rewrite List.filter_app, Hcd. destruct Hsync as [-> | ->]; reflexivity. }
  unfold lkas_button in Hcalls, Hlkas.
  fold (lkas_gate CP t) in Hcalls, Hlkas.
  destruct (lkas_gate CP t) eqn:Hgate.
  - assert (Hfp : bool_decide (carFingerprint CP <> CAR_PRIUS_V) = true).
    { unfold lkas_gate in Hgate. apply andb_true_iff in Hgate as [_ Hfp].
      exact Hfp. }
    unfold update_hud_resume in Hhud. rewrite Hfp in Hhud.
    apply bind_Ok in Hhud as (hud & Hmsg & Hhud).
    split_binds Hhud. all_Ok.
    assert (Hdown :
      existsb (fun key => bool_decide (Stock.hud st !! key = Some (num 1)))
        ["LDA_ON_MESSAGE"; "SET_ME_X02"]%string = lkas_down t).
    { unfold lkas_down. rewrite Hmsg.
      match goal with E : hud = Stock.hud st |- _ => rewrite <- E end.
      reflexivity. }
    cbv zeta in Hcalls, Hlkas. rewrite Hdown in Hcalls, Hlkas.
    cbn [fst snd andb] in Hcalls, Hlkas.
    split; [exact Hlkas|].
    exists (cd ++ cpers). split; [exact Hcalls | exact Hothers].
  - cbn [fst snd andb] in Hcalls, Hlkas.
    split; [exact Hlkas|].
    exists (cd ++ cpers). split; [exact Hcalls | exact Hothers].
Qed.

(** X17.  The LKAS toggle is edge triggered.  On a tick that passes the
    guard of line 200 in conditional mode, [update_cestatus_lkas] is called
    exactly when the LKAS HUD message of that tick shows the button pressed
    and the tick before did not; the message consulted is the one the same
    tick copied at line 183.  A button shown pressed on every tick of a
    session that starts with it released is answered by one call, on the
    first tick. *)
Theorem lkas_press_fires_once CP self ins ts :
  run CP self ins = Ok ts ->
  Forall (fun t =>
    lkas_gate CP t = true
    /\ conditional_experimental_mode (in_fv (input t)) = true) ts ->
  Forall (fun t =>
    count_calls is_lkas_toggle (fpf_calls (output t)) =
      (if lkas_down t && negb (lkas_previously_pressed (before t))
       then 1 else 0)%nat
    /\ lkas_previously_pressed (after t) = lkas_down t) ts
  /\ (Forall (fun t => lkas_down t = true) ts ->
      lkas_previously_pressed self = false ->
      ts <> [] ->
      count_calls is_lkas_toggle (calls_of ts) = 1%nat).
Proof.
  intros Hrun Hgate. apply run_session in Hrun as [Hs _].
  assert (Hstep : forall t,
    returned_tick CP t ->
    lkas_gate CP t = true ->
    conditional_experimental_mode (in_fv (input t)) = true ->
    count_calls is_lkas_toggle (fpf_calls (output t)) =
      (if lkas_down t && negb (lkas_previously_pressed (before t))
       then 1 else 0)%nat
    /\ lkas_previously_pressed (after t) = lkas_down t).
  { intros t Hu Hg Hcond.
    destruct (lkas_tick CP t Hu) as (Hprev & others & Hcalls & Hothers).
    rewrite Hg in Hprev, Hcalls. cbn [andb] in Hcalls.
    split; [|exact Hprev].
    rewrite Hcalls. unfold count_calls.
    rewrite List.filter_app, Hothers, app_nil_r.
    unfold toggle_call. rewrite Hcond.
    destruct (lkas_down t && negb (lkas_previously_pressed (before t)));
      reflexivity. }
  split.
  - pose proof (session_returned CP self ts Hs) as Hret.
    rewrite Forall_forall in Hret. rewrite Forall_forall in Hgate.
    apply Forall_forall. intros t Ht.
    destruct (Hgate t Ht) as [Hg Hcond].
    exact (Hstep t (Hret t Ht) Hg Hcond).
  - intros Hdown Hp0 Hne.
    clear ins.
    assert (Hgen : forall ts self,
      session CP self ts ->
      Forall (fun t =>
        lkas_gate CP t = true
        /\ conditional_experimental_mode (in_fv (input t)) = true) ts ->
      Forall (fun t => lkas_down t = true) ts ->
      count_calls is_lkas_toggle (calls_of ts) =
        (if negb (lkas_previously_pressed self) && bool_decide (ts <> [])
         then 1 else 0)%nat).
    { clear self ts Hs Hgate Hdown Hp0 Hne.
      intros ts self Hs. induction Hs as [self | self t ts Hb Hu Hs IH];
        intros Hgate Hdown.
      - rewrite bool_decide_eq_false_2 by (intros Hn; apply Hn; reflexivity).
        rewrite andb_false_r. reflexivity.
      - apply Forall_cons in Hgate as [[Hg Hcond] Hgate].
        apply Forall_cons in Hdown as [Hd Hdown].
        rewrite <- Hb in Hu |- *.
        destruct (Hstep t Hu Hg Hcond) as [Hcount Hprev].
        rewrite calls_of_cons, count_calls_app, Hcount,
          (IH Hgate Hdown), Hprev, Hd.
        rewrite (bool_decide_eq_true_2 (t :: ts <> [])) by discriminate.
        cbn [negb andb]. rewrite andb_true_r.
        destruct (lkas_previously_pressed (before t)); reflexivity. }
    rewrite (Hgen ts self Hs Hgate Hdown), Hp0.
    rewrite bool_decide_eq_true_2 by exact Hne. reflexivity.
Qed.

(** *** The personality shown on the dash *)

(** X18.  On a tick with the wheel personalities enabled and cruise
    available the profile is DISTANCE_LINES minus one.  When that profile is
    the wanted one the sync is done and the simulated button stays as it is;
    as long as the sync is not done the simulated button flips on every
    tick.  A change made in the UI sets the wanted profile to the one of the
    UI and is acknowledged by a call. *)
Theorem personality_resync CP self cp cp_cam fv fpf self' o :
  update CP self cp cp_cam fv fpf = Ok (self', o) ->
  personalities_via_wheel fv = true ->
  cruise_available (ret o) = true ->
  exists lines,
    vl_sig cp "PCM_CRUISE_SM" "DISTANCE_LINES" = Ok lines
    /\ personality_profile self' = lines - num 1
    /\ (personality_profile self' = previous_personality_profile self' ->
        profile_restored self' = true
        /\ distance_button self' = distance_button self)
    /\ distance_button self' =
       (if profile_restored self' then distance_button self
        else negb (distance_button self))
    /\ (personality_changed_via_ui fpf = true ->
        previous_personality_profile self' = current_personality fpf
        /\ reset_personality_changed_param ∈ fpf_calls o).
Proof.
  intros Hu Hwheel Hav. pose proof Hu as Hb.
  apply update_blocks in Hb as (st & dp & db & cd & cpers & Hst & Hrest).
  destruct Hrest as (_ & _ & Hsync & _ & _ & _ & _ & Hcalls & _).
  rewrite (update_available _ _ _ _ _ _ _ _ _ Hu Hst), Hav in Hsync.
  unfold sync_personality in Hsync. rewrite Hwheel in Hsync.
  cbn [andb] in Hsync.
  apply bind_Ok in Hsync as (lines & Hlines & Hsync).
  exists lines. split; [exact Hlines|].
  destruct (personality_changed_via_ui fpf) eqn:Hui;
    cbv beta iota zeta in Hsync; all_Ok;
    repeat match goal with
    | E : _ = personality_profile self' |- _ => rewrite <- E; clear E
    | E : _ = previous_personality_profile self' |- _ =>
        rewrite <- E; clear E
    | E : _ = profile_restored self' |- _ => rewrite <- E; clear E
    | E : _ = distance_button self' |- _ => rewrite <- E; clear E
    end;
    (split; [reflexivity|]); (split; [|split]).
  - intros Heq. rewrite (bool_decide_eq_true_2 _ Heq). split; reflexivity.
  - destruct (bool_decide _); reflexivity.
  - intros _. split; [reflexivity|]. rewrite Hcalls.
    match goal with E : _ = cpers |- _ => rewrite <- E end.
    rewrite !elem_of_app. right. right. left.
  - intros Heq. rewrite (bool_decide_eq_true_2 _ Heq). split; reflexivity.
  - destruct (bool_decide _); [reflexivity|].
    destruct (db_profile_restored db); reflexivity.
  - discriminate.
Qed.
(** ** How a tick can fail *)

Lemma Raise_inj {A : Type} (e e' : exn) : @Raise A e = Raise e' -> e = e'.
Proof.
  intros E.
  exact (f_equal (fun r : result A =>
                    match r with Raise x => x | Ok _ => e end) E).
Qed.

Lemma raises_only_Ok {A : Type} (P : exn -> Prop) (a : A) :
  raises_only P (Ok a).
Proof. intros e He. discriminate. Qed.

Lemma raises_only_Raise {A : Type} (P : exn -> Prop) (e : exn) :
  P e -> raises_only (A := A) P (Raise e).
Proof. intros HP e' He. apply Raise_inj in He. subst e'. exact HP. Qed.

Lemma raises_only_bind {A B : Type} (P : exn -> Prop) (m : result A)
    (f : A -> result B) :
  raises_only P m ->
  (forall a, m = Ok a -> raises_only P (f a)) ->
  raises_only P (m ≫= f).
Proof.
  intros Hm Hf e He. destruct m as [a|e0].
  - exact (Hf a eq_refl e He).
  - cbn [mbind result_bind] in He. apply Raise_inj in He. subst e.
    exact (Hm e0 eq_refl).
Qed.

(** Walk down a computation, statement by statement and branch by branch;
    [leaf] settles the subscripts and the exceptions raised in place. *)
Ltac walk leaf :=
  repeat lazymatch goal with
  | |- raises_only _ (Ok _) => apply raises_only_Ok
  | |- raises_only _ (_ ≫= _) => apply raises_only_bind; [|intros ? ?]
  | |- raises_only _ (if ?b then _ else _) => destruct b eqn:?
  | |- raises_only _ (match ?x with _ => _ end) => destruct x eqn:?
  | |- raises_only _ (let _ := _ in _) => cbv zeta
  | |- raises_only _ _ => first [leaf | progress cbv beta]
  end.

Lemma vl_msg_not_unbound p m : raises_only not_unbound (vl_msg p m).
Proof.
  unfold vl_msg. intros e He. destruct (vl p !! m); [discriminate|].
  apply Raise_inj in He. subst e. exact I.
Qed.

Lemma vl_sig_not_unbound p m sg : raises_only not_unbound (vl_sig p m sg).
Proof.
  unfold vl_sig. apply raises_only_bind; [apply vl_msg_not_unbound|].
  intros d _ e He. destruct (d !! sg); [discriminate|].
  apply Raise_inj in He. subst e. exact I.
Qed.

Ltac leaf_not_unbound :=
  idtac;
  lazymatch goal with
  | |- raises_only _ (vl_sig _ _ _) => apply vl_sig_not_unbound
  | |- raises_only _ (vl_msg _ _) => apply vl_msg_not_unbound
  | |- raises_only _ (Raise _) => apply raises_only_Raise; exact I
  end.

(** Lines 63-189 read frames and feed the filter: they raise [KeyError] or
    [TypeError], never [UnboundLocalError]. *)
Lemma update_stock_not_unbound CP self cp cp_cam :
  raises_only not_unbound (update_stock CP self cp cp_cam).
Proof.
  unfold update_stock, update_body, update_kinematics,
    update_steering_angle, update_gear_torque_faults, update_cruise,
    update_acc_type, update_low_speed_lockout, update_pcm_cruise,
    update_aeb_bsm, update_hud_resume, FirstOrderFilter.update.
  walk leaf_not_unbound.
Qed.

(** X19.  [update] ends in UnboundLocalError in one way only: the local is
    [distance_pressed], the vehicle has no distance button wired (it is not
    in TSS2_CAR - RADAR_ACC_CAR and does not have SMART_DSU without
    RADAR_CAN_FILTER), lines 63-189 ran to their end and found cruise
    available.  On a wired vehicle, and with cruise unavailable, it never
    does. *)
Theorem unbound_local_only_unwired CP self cp cp_cam fv fpf name :
  update CP self cp cp_cam fv fpf = Raise (UnboundLocalError name) ->
  name = "distance_pressed"%string
  /\ distance_wired CP = false
  /\ exists st,
       update_stock CP self cp cp_cam = Ok st
       /\ cruise_available (Stock.msg st) = true.
Proof.
  unfold update. intros Hu.
  destruct (update_stock CP self cp cp_cam) as [st|e] eqn:Hst.
  2:{ cbn [mbind result_bind] in Hu. apply Raise_inj in Hu. subst e.
      exact (False_ind _ (update_stock_not_unbound _ _ _ _ _ Hst)). }
  cbn [mbind result_bind] in Hu.
  destruct (read_distance_pressed CP cp (cp_acc_of CP cp cp_cam))
    as [dp|e] eqn:Hdp.
  2:{ cbn [mbind result_bind] in Hu. apply Raise_inj in Hu. subst e.
      exfalso. revert Hdp. unfold read_distance_pressed.
      destruct (distance_wired CP); [|discriminate].
      destruct (camera_acc CP); intros Hdp.
      - destruct (vl_sig _ "ACC_CONTROL" "DISTANCE") eqn:Hr; [discriminate|].
        apply Raise_inj in Hdp. subst e.
        exact (vl_sig_not_unbound _ _ _ _ Hr).
      - destruct (vl_sig _ "SDSU" "FD_BUTTON") eqn:Hr; [discriminate|].
        apply Raise_inj in Hdp. subst e.
        exact (vl_sig_not_unbound _ _ _ _ Hr). }
  cbn [mbind result_bind] in Hu.
  destruct (lkas_button _ _ _ _ _) as [pressed calls_lkas].
  destruct (distance_button_functions self fv
              (cruise_available (Stock.msg st)) dp) as [[db cd]|e] eqn:Hdb.
  - exfalso. cbn [mbind result_bind] in Hu.
    match type of Hu with
    | ?r = _ => assert (Htail : raises_only not_unbound r)
    end.
    { unfold sync_personality, update_traffic_signals,
        calculate_speed_limit, zss_support.
      walk leaf_not_unbound. }
    exact (Htail _ Hu).
  - cbn [mbind result_bind] in Hu. apply Raise_inj in Hu. subst e.
    unfold distance_button_functions in Hdb.
    destruct (cruise_available (Stock.msg st)) eqn:Hav; [|discriminate].
    destruct dp as [d|].
    + exfalso. revert Hdb.
      destruct (truthy d); [|destruct (truthy _); [destruct (_ <? _)%Z|]];
        discriminate.
    + apply Raise_inj in Hdb.
      split; [congruence|]. split.
      * unfold read_distance_pressed in Hdp.
        destruct (distance_wired CP); [|reflexivity].
        destruct (camera_acc CP);
          destruct (vl_sig _ _ _); discriminate.
      * exists st. split; [reflexivity | exact Hav].
Qed.
(** *** TypeError *)

Lemma vl_msg_not_type_error p m : raises_only not_type_error (vl_msg p m).
Proof.
  unfold vl_msg. intros e He. destruct (vl p !! m); [discriminate|].
  apply Raise_inj in He. subst e. exact I.
Qed.

Lemma vl_sig_not_type_error p m sg :
  raises_only not_type_error (vl_sig p m sg).
Proof.
  unfold vl_sig. apply raises_only_bind; [apply vl_msg_not_type_error|].
  intros d _ e He. destruct (d !! sg); [discriminate|].
  apply Raise_inj in He. subst e. exact I.
Qed.

Ltac leaf_not_type_error :=
  idtac;
  lazymatch goal with
  | |- raises_only _ (vl_sig _ _ _) => apply vl_sig_not_type_error
  | |- raises_only _ (vl_msg _ _) => apply vl_msg_not_type_error
  | |- raises_only _ (Raise (UnboundLocalError _)) =>
      apply raises_only_Raise; exact I
  end.

(** The filter holds a value after every update. *)
Lemma filter_update_holds f v f' :
  FirstOrderFilter.update f v = Ok f' ->
  is_Some (FirstOrderFilter.x f').
Proof.
  unfold FirstOrderFilter.update.
  destruct (FirstOrderFilter.initialized f);
    [destruct (FirstOrderFilter.x f); [|discriminate]|];
    intros E; apply Ok_inj in E; subst f'; cbn; eauto.
Qed.

(** Lines 94-109 on a filter that holds a value once initialized: the
    filter is never asked for a value it does not have. *)
Lemma steering_not_type_error self cp :
  filter_holds_value self ->
  raises_only not_type_error (update_steering_angle self cp)
  /\ (forall seen filt out,
        update_steering_angle self cp = Ok (seen, filt, out) ->
        FirstOrderFilter.initialized filt = true ->
        is_Some (FirstOrderFilter.x filt)).
Proof.
  intros Hinv. unfold update_steering_angle. split.
  - apply raises_only_bind; [apply vl_sig_not_type_error|]. intros a _.
    apply raises_only_bind; [apply vl_sig_not_type_error|]. intros f _.
    apply raises_only_bind; [apply vl_sig_not_type_error|]. intros r _.
    apply raises_only_bind; [apply vl_sig_not_type_error|]. intros t _.
    apply raises_only_bind; [walk leaf_not_type_error|]. intros seen _.
    destruct seen; [|apply raises_only_Ok].
    apply raises_only_bind.
    + destruct (_ && can_valid cp); [|apply raises_only_Ok].
      unfold FirstOrderFilter.update.
      destruct (FirstOrderFilter.initialized (angle_offset self)) eqn:Hi;
        [|apply raises_only_Ok].
      destruct (Hinv Hi) as [x0 Hx]. rewrite Hx. apply raises_only_Ok.
    + intros filt Hfilt.
      destruct (FirstOrderFilter.initialized filt) eqn:Hi;
        [|apply raises_only_Ok].
      assert (Hsome : is_Some (FirstOrderFilter.x filt)).
      { destruct (_ && can_valid cp).
        - exact (filter_update_holds _ _ _ Hfilt).
        - apply Ok_inj in Hfilt. subst filt. exact (Hinv Hi). }
      destruct Hsome as [x0 Hx]. rewrite Hx. apply raises_only_Ok.
  - intros seen filt out Hs Hi.
    split_binds Hs.
    match type of Hs with
    | (if ?b then _ else _) = _ => destruct b
    end.
    + split_binds Hs.
      match type of Hs with
      | (if FirstOrderFilter.initialized ?f then _ else _) = _ =>
          destruct (FirstOrderFilter.initialized f) eqn:Hif;
            [destruct (FirstOrderFilter.x f) eqn:Hx; [|discriminate]|]
      end.
      * all_Ok. subst. rewrite Hx. eauto.
      * all_Ok. subst. rewrite Hi in Hif. discriminate.
    + all_Ok. subst. exact (Hinv Hi).
Qed.

Lemma stock_not_type_error CP self cp cp_cam :
  filter_holds_value self ->
  raises_only not_type_error (update_stock CP self cp cp_cam).
Proof.
  intros Hinv. unfold update_stock.
  apply raises_only_bind;
    [unfold update_body; walk leaf_not_type_error|]. intros r1 _.
  destruct r1 as [[[[[[? ?] ?] ?] ?] ?] ?].
  apply raises_only_bind;
    [unfold update_kinematics; walk leaf_not_type_error|]. intros r2 _.
  destruct r2 as [? [[[[[? ?] ?] ?] ?] ?]].
  apply raises_only_bind;
    [exact (proj1 (steering_not_type_error self cp Hinv))|]. intros r3 _.
  destruct r3 as [[? ?] [[? ?] ?]].
  unfold update_gear_torque_faults, update_cruise, update_acc_type,
    update_low_speed_lockout, update_pcm_cruise, update_aeb_bsm,
    update_hud_resume.
  walk leaf_not_type_error.
Qed.

Lemma filter_holds_value_init base CP :
  filter_holds_value (__init__ base CP).
Proof. unfold filter_holds_value. cbn. discriminate. Qed.

Lemma filter_holds_value_update CP self cp cp_cam fv fpf self' o :
  filter_holds_value self ->
  update CP self cp cp_cam fv fpf = Ok (self', o) ->
  filter_holds_value self'.
Proof.
  intros Hinv Hu.
  apply update_blocks in Hu as (st & dp & db & cd & cpers & Hst & Hrest).
  destruct Hrest as
    (_ & _ & _ & _ & _ & _ & _ & _ & _ & _ & _ & _ & Hfilt & _).
  apply update_stock_blocks in Hst as (_ & _ & Hsteer & _).
  unfold filter_holds_value. rewrite Hfilt.
  exact (proj2 (steering_not_type_error self cp Hinv) _ _ _ Hsteer).
Qed.

Lemma last_state_holds CP self ts :
  session CP self ts ->
  filter_holds_value self ->
  filter_holds_value (last_state self ts).
Proof.
  intros Hs Hinv.
  pose proof (session_invariant CP filter_holds_value
                (fun t => filter_holds_value (after t))
                (fun t Hb Hu =>
                   let Ha := filter_holds_value_update _ _ _ _ _ _ _ _ Hb Hu
                   in conj Ha Ha)
                self ts Hs Hinv) as Hall.
  unfold last_state. destruct (last ts) as [t|] eqn:Hlast; [|exact Hinv].
  cbn. rewrite Forall_forall in Hall. apply Hall.
  apply last_Some_elem_of. exact Hlast.
Qed.

(** X23.  The filter of the steering offset starts without a value, and is
    asked for one only once it is initialized, which its first sample does.
    So in a session started by the constructor no tick fails in the filter:
    if the next call ends in TypeError, the exception comes from
    [calculate_speed_limit], which multiplied a speed value that the cache
    holds as [None]. *)
Theorem type_error_only_speed_limit CP base ins ts cp cp_cam fv fpf :
  run CP (__init__ base CP) ins = Ok ts ->
  update CP (last_state (__init__ base CP) ts) cp cp_cam fv fpf
    = Raise TypeError ->
  exists cache,
    update_traffic_signals (last_state (__init__ base CP) ts) cp_cam
      = Ok cache
    /\ cache_get cache "SPDVAL1" = None
    /\ calculate_speed_limit cache fv = Raise TypeError.
Proof.
  intros Hrun Hu. apply run_session in Hrun as [Hs _].
  pose proof (last_state_holds CP _ ts Hs (filter_holds_value_init base CP))
    as Hinv.
  set (self := last_state (__init__ base CP) ts) in *.
  unfold update in Hu.
  destruct (update_stock CP self cp cp_cam) as [st|e] eqn:Hst.
  2:{ cbn [mbind result_bind] in Hu. apply Raise_inj in Hu. subst e.
      exact (False_ind _ (stock_not_type_error _ _ _ _ Hinv _ Hst)). }
  cbn [mbind result_bind] in Hu.
  destruct (read_distance_pressed CP cp (cp_acc_of CP cp cp_cam))
    as [dp|e] eqn:Hdp.
  2:{ cbn [mbind result_bind] in Hu. apply Raise_inj in Hu. subst e.
      exfalso. revert Hdp.
      assert (Hr : raises_only not_type_error
                (read_distance_pressed CP cp (cp_acc_of CP cp cp_cam))).
      { unfold read_distance_pressed. walk leaf_not_type_error. }
      exact (Hr _). }
  cbn [mbind result_bind] in Hu.
  destruct (lkas_button _ _ _ _ _) as [pressed calls_lkas].
  destruct (distance_button_functions self fv
              (cruise_available (Stock.msg st)) dp) as [[db cd]|e] eqn:Hdb.
  2:{ cbn [mbind result_bind] in Hu. apply Raise_inj in Hu. subst e.
      exfalso. revert Hdb.
      assert (Hr : raises_only not_type_error
                (distance_button_functions self fv
                   (cruise_available (Stock.msg st)) dp)).
      { unfold distance_button_functions. walk leaf_not_type_error. }
      exact (Hr _). }
  cbn [mbind result_bind] in Hu.
  destruct (sync_personality self db fv fpf
              (cruise_available (Stock.msg st)) cp)
    as [[[[[profile previous] restored] button] cpers]|e] eqn:Hsync.
  2:{ cbn [mbind result_bind] in Hu. apply Raise_inj in Hu. subst e.
      exfalso. revert Hsync.
      assert (Hr : raises_only not_type_error
                (sync_personality self db fv fpf
                   (cruise_available (Stock.msg st)) cp)).
      { unfold sync_personality. walk leaf_not_type_error. }
      exact (Hr _). }
  cbn [mbind result_bind] in Hu.
  destruct (update_traffic_signals self cp_cam) as [cache|e] eqn:Hcache.
  2:{ cbn [mbind result_bind] in Hu. apply Raise_inj in Hu. subst e.
      exfalso. revert Hcache.
      assert (Hr : raises_only not_type_error
                (update_traffic_signals self cp_cam)).
      { unfold update_traffic_signals. walk leaf_not_type_error. }
      exact (Hr _). }
  cbn [mbind result_bind] in Hu.
  exists cache. split; [reflexivity|].
  destruct (calculate_speed_limit cache fv) as [limit|e] eqn:Hlimit.
  - exfalso. cbn [mbind result_bind] in Hu.
    destruct (zss_support CP self cp (cruise_available (Stock.msg st))
                (car.steeringAngleDeg (Stock.msg st)))
      as [[zss angle]|e] eqn:Hzss; [discriminate|].
    cbn [mbind result_bind] in Hu. apply Raise_inj in Hu. subst e.
    revert Hzss.
    assert (Hr : raises_only not_type_error
              (zss_support CP self cp (cruise_available (Stock.msg st))
                 (car.steeringAngleDeg (Stock.msg st)))).
    { unfold zss_support. walk leaf_not_type_error. }
    exact (Hr _).
  - cbn [mbind result_bind] in Hu. apply Raise_inj in Hu. subst e.
    split; [|reflexivity].
    unfold calculate_speed_limit in Hlimit.
    destruct (cache_get cache "SPDVAL1"); [|reflexivity].
    exfalso. revert Hlimit.
    destruct (_ && negb (force_mph_dashboard fv)); [discriminate|].
    destruct (_ || force_mph_dashboard fv); discriminate.
Qed.
(** ** The parsers and the frames they produce *)

Lemma carries_elem p msgs (m : string) :
  carries p msgs = true -> m ∈ names msgs -> is_Some (vl p !! m).
Proof.
  unfold carries. rewrite forallb_forall. intros Hall Hm.
  apply list_elem_of_In in Hm. apply Hall in Hm.
  apply bool_decide_eq_true in Hm. exact Hm.
Qed.

Lemma carries_only_elem p msgs (m : string) :
  carries_only p msgs = true -> is_Some (vl p !! m) -> m ∈ names msgs.
Proof.
  unfold carries_only. rewrite forallb_forall. intros Hall [d Hd].
  apply (bool_decide_eq_true_1 (m ∈ names msgs)).
  apply Hall. apply list_elem_of_In.
  apply list_elem_of_fmap. exists (m, d).
  split; [reflexivity|]. apply elem_of_map_to_list. exact Hd.
Qed.

(** A subscript on a message the frame holds can only miss the signal. *)
Lemma vl_msg_present cp cp_cam p (m : string) :
  p = cp \/ p = cp_cam ->
  is_Some (vl p !! m) ->
  raises_only (signal_missing_only cp cp_cam) (vl_msg p m).
Proof.
  intros _ [d Hd]. unfold vl_msg. rewrite Hd. apply raises_only_Ok.
Qed.

Lemma vl_sig_present cp cp_cam p (m sg : string) :
  p = cp \/ p = cp_cam ->
  is_Some (vl p !! m) ->
  raises_only (signal_missing_only cp cp_cam) (vl_sig p m sg).
Proof.
  intros Hp [d Hd]. unfold vl_sig, vl_msg. rewrite Hd.
  cbn [mbind result_bind].
  destruct (d !! sg) eqn:Hsg; [apply raises_only_Ok|].
  apply raises_only_Raise. intros k Hk.
  assert (Ek : sg = k).
  { exact (f_equal (fun e => match e with KeyError x => x | _ => sg end)
             Hk). }
  subst k.
  destruct Hp as [-> | ->]; [left | right]; exists m, d; split; assumption.
Qed.

(** Bring the guards met on the way into the form of equations between a
    flag and a truth value. *)
Ltac atomize :=
  repeat match goal with
  | Hc : _ && _ = true |- _ =>
      let Hc' := fresh Hc in
      apply andb_true_iff in Hc; destruct Hc as [Hc Hc']
  | Hc : _ || _ = false |- _ =>
      let Hc' := fresh Hc in
      apply orb_false_iff in Hc; destruct Hc as [Hc Hc']
  | Hc : negb _ = true |- _ => apply negb_true_iff in Hc
  | Hc : negb _ = false |- _ => apply negb_false_iff in Hc
  end.

(** The name is in a list that is written out. *)
Ltac here :=
  cbn [fmap list_fmap fst];
  solve [repeat first [apply list_elem_of_here | apply list_elem_of_further]].

(** Choose the part of the list the name is in. *)
Ltac pick := first [ here | (left; pick) | (right; pick) ].

Ltac in_parts :=
  cbn [negb andb orb]; rewrite ?orb_true_r; cbn [negb andb orb];
  rewrite ?fmap_app, ?elem_of_app; pick.

(** A TSS2 vehicle without camera ACC is a radar-ACC vehicle. *)
Lemma radar_of_tss2 CP :
  bool_decide (carFingerprint CP ∈ TSS2_CAR) = true ->
  camera_acc CP = false ->
  bool_decide (carFingerprint CP ∈ RADAR_ACC_CAR) = true.
Proof.
  unfold camera_acc. intros Htss Hcam.
  apply bool_decide_eq_true in Htss. apply bool_decide_eq_false in Hcam.
  apply bool_decide_eq_true.
  destruct (decide (carFingerprint CP ∈ RADAR_ACC_CAR)) as [Hin|Hout];
    [exact Hin|].
  exfalso. apply Hcam. apply elem_of_difference. split; assumption.
Qed.

(** *** What [get_can_parser] registers *)

Lemma main_base CP (m : string) :
  m ∈ ["GEAR_PACKET"; "LIGHT_STALK"; "BLINKERS_STATE"; "BODY_CONTROL_STATE";
       "BODY_CONTROL_STATE_2"; "ESP_CONTROL"; "EPS_STATUS"; "BRAKE_MODULE";
       "WHEEL_SPEEDS"; "STEER_ANGLE_SENSOR"; "PCM_CRUISE"; "PCM_CRUISE_SM";
       "STEER_TORQUE_SENSOR"; "SECONDARY_STEER_ANGLE"]%string ->
  m ∈ names (main_messages CP).
Proof.
  intros Hm. unfold names, main_messages.
  rewrite !fmap_app, !elem_of_app.
  rewrite !elem_of_cons in Hm.
  decompose [or] Hm; try subst m;
    first [ left; here
          | do 8 right; here
          | exfalso; eapply elem_of_nil; eassumption ].
Qed.

Lemma main_engine CP :
  bool_decide (carFingerprint CP <> CAR_MIRAI) = true ->
  "ENGINE_RPM"%string ∈ names (main_messages CP).
Proof. intros Hc. unfold names, main_messages. rewrite Hc. in_parts. Qed.

Lemma main_dsu CP (m : string) :
  bool_decide (carFingerprint CP ∈ UNSUPPORTED_DSU_CAR) = true ->
  m = "DSU_CRUISE"%string \/ m = "PCM_CRUISE_ALT"%string ->
  m ∈ names (main_messages CP).
Proof.
  intros Hc [-> | ->]; unfold names, main_messages; rewrite Hc; in_parts.
Qed.

Lemma main_pcm2 CP :
  bool_decide (carFingerprint CP ∈ UNSUPPORTED_DSU_CAR) = false ->
  "PCM_CRUISE_2"%string ∈ names (main_messages CP).
Proof. intros Hc. unfold names, main_messages. rewrite Hc. in_parts. Qed.

Lemma main_gas CP :
  enableGasInterceptor CP = true ->
  "GAS_SENSOR"%string ∈ names (main_messages CP).
Proof. intros Hc. unfold names, main_messages. rewrite Hc. in_parts. Qed.

Lemma main_bsm CP :
  enableBsm CP = true -> "BSM"%string ∈ names (main_messages CP).
Proof. intros Hc. unfold names, main_messages. rewrite Hc. in_parts. Qed.

Lemma main_acc_stock CP :
  openpilotLongitudinalControl CP = false ->
  has_flag (flags CP) ToyotaFlags_SMART_DSU = false ->
  "ACC_CONTROL"%string ∈ names (main_messages CP).
Proof.
  intros Hl Hs. unfold names, main_messages. rewrite Hl, Hs. in_parts.
Qed.

Lemma main_radar CP (m : string) :
  bool_decide (carFingerprint CP ∈ RADAR_ACC_CAR) = true ->
  has_flag (flags CP) ToyotaFlags_DISABLE_RADAR = false ->
  (m = "ACC_CONTROL"%string
   /\ has_flag (flags CP) ToyotaFlags_SMART_DSU = false)
  \/ m = "PCS_HUD"%string ->
  m ∈ names (main_messages CP).
Proof.
  intros Hr Hd [[-> Hs] | ->]; unfold names, main_messages.
  - rewrite Hr, Hd, Hs. in_parts.
  - rewrite Hr, Hd. in_parts.
Qed.

Lemma main_pre_collision CP :
  camera_acc CP = false ->
  enableDsu CP = false ->
  has_flag (flags CP) ToyotaFlags_DISABLE_RADAR = false ->
  "PRE_COLLISION"%string ∈ names (main_messages CP).
Proof.
  intros Hc He Hd. unfold names, main_messages. rewrite Hc, He, Hd.
  in_parts.
Qed.

Lemma main_sdsu CP :
  has_flag (flags CP) ToyotaFlags_SMART_DSU = true ->
  has_flag (flags CP) ToyotaFlags_RADAR_CAN_FILTER = false ->
  "SDSU"%string ∈ names (main_messages CP).
Proof.
  intros Hs Hf. unfold names, main_messages. rewrite Hs, Hf. in_parts.
Qed.

(** *** What [get_cam_can_parser] registers *)

Lemma cam_rsa CP (m : string) :
  m = "RSA1"%string \/ m = "RSA2"%string -> m ∈ names (cam_messages CP).
Proof.
  intros [-> | ->]; unfold names, cam_messages;
    rewrite !fmap_app, !elem_of_app; left; here.
Qed.

Lemma cam_hud CP :
  bool_decide (carFingerprint CP <> CAR_PRIUS_V) = true ->
  "LKAS_HUD"%string ∈ names (cam_messages CP).
Proof. intros Hc. unfold names, cam_messages. rewrite Hc. in_parts. Qed.

Lemma cam_acc CP (m : string) :
  camera_acc CP = true ->
  m = "PRE_COLLISION"%string \/ m = "ACC_CONTROL"%string
  \/ m = "PCS_HUD"%string ->
  m ∈ names (cam_messages CP).
Proof.
  intros Hc [-> | [-> | ->]]; unfold names, cam_messages; rewrite Hc;
    in_parts.
Qed.

(** The message is registered, by the flags the context has settled. *)
Ltac registered :=
  atomize;
  first
    [ apply main_base; compute_done
    | apply main_engine; assumption
    | apply main_dsu; [assumption | first [left; reflexivity
                                          | right; reflexivity]]
    | apply main_pcm2; assumption
    | apply main_gas; assumption
    | apply main_bsm; assumption
    | apply main_acc_stock; assumption
    | apply main_radar;
      [ assumption | assumption
      | first [left; split; [reflexivity | assumption] | right; reflexivity] ]
    | apply main_pre_collision; assumption
    | apply main_sdsu; assumption
    | apply cam_rsa; first [left; reflexivity | right; reflexivity]
    | apply cam_hud; assumption
    | apply cam_acc;
      [ assumption
      | first [ left; reflexivity | right; left; reflexivity
              | right; right; reflexivity ] ] ].

Ltac leaf_present Hmain Hcam :=
  idtac;
  lazymatch goal with
  | |- raises_only _ (vl_sig ?p _ _) =>
      eapply vl_sig_present;
      [ first [left; reflexivity | right; reflexivity]
      | first [ apply (carries_elem _ _ _ Hmain)
              | apply (carries_elem _ _ _ Hcam) ];
        registered ]
  | |- raises_only _ (vl_msg ?p _) =>
      eapply vl_msg_present;
      [ first [left; reflexivity | right; reflexivity]
      | first [ apply (carries_elem _ _ _ Hmain)
              | apply (carries_elem _ _ _ Hcam) ];
        registered ]
  | |- raises_only _ (Raise _) =>
      apply raises_only_Raise; intros ? ?; discriminate
  end.

Section Registered.
Variables (CP : CarParams) (cp cp_cam : CANParser).
Hypothesis Hmain : carries cp (main_messages CP) = true.
Hypothesis Hcam : carries cp_cam (cam_messages CP) = true.
Hypothesis Hdisjoint :
  carFingerprint CP ∈ TSS2_CAR -> carFingerprint CP ∉ UNSUPPORTED_DSU_CAR.
Hypothesis Hsdsu :
  has_flag (flags CP) ToyotaFlags_SMART_DSU = true ->
  openpilotLongitudinalControl CP = true.

Lemma body_registered :
  raises_only (signal_missing_only cp cp_cam) (update_body CP cp).
Proof. unfold update_body. walk ltac:(leaf_present Hmain Hcam). Qed.

Lemma kinematics_registered self :
  raises_only (signal_missing_only cp cp_cam)
    (update_kinematics CP self cp).
Proof. unfold update_kinematics. walk ltac:(leaf_present Hmain Hcam). Qed.

Lemma steering_registered self :
  raises_only (signal_missing_only cp cp_cam)
    (update_steering_angle self cp).
Proof.
  unfold update_steering_angle, FirstOrderFilter.update.
  walk ltac:(leaf_present Hmain Hcam).
Qed.

Lemma gear_registered self :
  raises_only (signal_missing_only cp cp_cam)
    (update_gear_torque_faults CP self cp).
Proof.
  unfold update_gear_torque_faults. walk ltac:(leaf_present Hmain Hcam).
Qed.

Lemma cruise_registered :
  raises_only (signal_missing_only cp cp_cam) (update_cruise CP cp).
Proof. unfold update_cruise. walk ltac:(leaf_present Hmain Hcam). Qed.

Lemma acc_type_registered self :
  raises_only (signal_missing_only cp cp_cam)
    (update_acc_type CP self (cp_acc_of CP cp cp_cam)).
Proof.
  unfold update_acc_type, cp_acc_of.
  destruct (camera_acc CP) eqn:Hcamera.
  - walk ltac:(leaf_present Hmain Hcam).
  - destruct (bool_decide (carFingerprint CP ∈ TSS2_CAR)) eqn:Htss;
      [|cbn [andb]; apply raises_only_Ok].
    pose proof (radar_of_tss2 CP Htss Hcamera) as Hradar.
    walk ltac:(leaf_present Hmain Hcam).
Qed.

Lemma lockout_registered self acc :
  raises_only (signal_missing_only cp cp_cam)
    (update_low_speed_lockout CP self acc cp).
Proof.
  unfold update_low_speed_lockout.
  destruct (lockout_conclusive CP acc) eqn:Hc; [|apply raises_only_Ok].
  assert (Hdsu : bool_decide (carFingerprint CP ∈ UNSUPPORTED_DSU_CAR)
                 = false).
  { apply bool_decide_eq_false.
    apply lockout_conclusive_iff in Hc as [[_ Hout] | [Hin _]];
      [exact Hout | exact (Hdisjoint Hin)]. }
  clear Hc. walk ltac:(leaf_present Hmain Hcam).
Qed.

Lemma pcm_registered :
  raises_only (signal_missing_only cp cp_cam) (update_pcm_cruise CP cp).
Proof. unfold update_pcm_cruise. walk ltac:(leaf_present Hmain Hcam). Qed.

Lemma aeb_bsm_registered :
  raises_only (signal_missing_only cp cp_cam)
    (update_aeb_bsm CP cp (cp_acc_of CP cp cp_cam)).
Proof.
  unfold update_aeb_bsm, cp_acc_of.
  destruct (camera_acc CP) eqn:Hcamera;
    walk ltac:(leaf_present Hmain Hcam).
Qed.

Lemma hud_resume_registered self :
  raises_only (signal_missing_only cp cp_cam)
    (update_hud_resume CP self cp cp_cam).
Proof.
  unfold update_hud_resume.
  apply raises_only_bind; [walk ltac:(leaf_present Hmain Hcam)|].
  intros hud _.
  destruct (openpilotLongitudinalControl CP) eqn:Hlong;
    [cbn [negb mbind result_bind]; apply raises_only_Ok|].
  assert (Hsd : has_flag (flags CP) ToyotaFlags_SMART_DSU = false).
  { destruct (has_flag (flags CP) ToyotaFlags_SMART_DSU); [|reflexivity].
    specialize (Hsdsu eq_refl). discriminate. }
  cbn [negb]. walk ltac:(leaf_present Hmain Hcam).
Qed.

Lemma stock_registered self :
  raises_only (signal_missing_only cp cp_cam)
    (update_stock CP self cp cp_cam).
Proof.
  unfold update_stock.
  walk ltac:(first
    [ apply body_registered | apply kinematics_registered
    | apply steering_registered | apply gear_registered
    | apply cruise_registered | apply acc_type_registered
    | apply lockout_registered | apply pcm_registered
    | apply aeb_bsm_registered | apply hud_resume_registered ]).
Qed.

Lemma distance_read_registered :
  raises_only (signal_missing_only cp cp_cam)
    (read_distance_pressed CP cp (cp_acc_of CP cp cp_cam)).
Proof.
  unfold read_distance_pressed, distance_wired, cp_acc_of.
  destruct (camera_acc CP) eqn:Hcamera; cbn [orb];
    walk ltac:(leaf_present Hmain Hcam).
Qed.

Lemma tail_registered self fv fpf db available angle :
  raises_only (signal_missing_only cp cp_cam)
    (sync_personality self db fv fpf available cp)
  /\ raises_only (signal_missing_only cp cp_cam)
       (update_traffic_signals self cp_cam)
  /\ (forall cache,
        raises_only (signal_missing_only cp cp_cam)
          (calculate_speed_limit cache fv))
  /\ raises_only (signal_missing_only cp cp_cam)
       (zss_support CP self cp available angle)
  /\ (forall dp,
        raises_only (signal_missing_only cp cp_cam)
          (distance_button_functions self fv available dp)).
Proof.
  unfold sync_personality, update_traffic_signals, calculate_speed_limit,
    zss_support, distance_button_functions.
  repeat split; intros; walk ltac:(leaf_present Hmain Hcam).
Qed.

Lemma update_registered self fv fpf :
  raises_only (signal_missing_only cp cp_cam)
    (update CP self cp cp_cam fv fpf).
Proof.
  unfold update.
  apply raises_only_bind; [apply stock_registered|]. intros st _.
  apply raises_only_bind; [apply distance_read_registered|]. intros dp _.
  destruct (lkas_button _ _ _ _ _) as [pressed calls_lkas].
  destruct (tail_registered self fv fpf
              {| db_counter := 0; db_previously_pressed := num 0;
                 db_previous_personality_profile := num 0;
                 db_profile_restored := false |}
              (cruise_available (Stock.msg st))
              (car.steeringAngleDeg (Stock.msg st)))
    as (_ & Htraffic & Hlimit & Hzss & Hdistance).
  apply raises_only_bind; [apply Hdistance|]. intros [db cd] _.
  destruct (tail_registered self fv fpf db
              (cruise_available (Stock.msg st))
              (car.steeringAngleDeg (Stock.msg st)))
    as (Hsync & _).
  apply raises_only_bind; [apply Hsync|].
  intros [[[[profile previous] restored] button] cpers] _.
  apply raises_only_bind; [apply Htraffic|]. intros cache _.
  apply raises_only_bind; [apply Hlimit|]. intros limit _.
  apply raises_only_bind; [apply Hzss|]. intros [zss angle] _.
  apply raises_only_Ok.
Qed.

End Registered.

(** X20.  The two parsers register every message [update] subscripts.  Take
    a vehicle on which TSS2_CAR and UNSUPPORTED_DSU_CAR do not both hold and
    SMART_DSU comes with openpilot longitudinal control, and frames that
    hold every message the parser of their bus was built with.  Then a
    KeyError of [update] never names a message: its key is a signal missing
    from a message that is there. *)
Theorem registered_messages_suffice CP self cp cp_cam fv fpf k :
  (carFingerprint CP ∈ TSS2_CAR -> carFingerprint CP ∉ UNSUPPORTED_DSU_CAR) ->
  (has_flag (flags CP) ToyotaFlags_SMART_DSU = true ->
   openpilotLongitudinalControl CP = true) ->
  carries cp (main_messages CP) = true ->
  carries cp_cam (cam_messages CP) = true ->
  update CP self cp cp_cam fv fpf = Raise (KeyError k) ->
  missing_signal cp k \/ missing_signal cp_cam k.
Proof.
  intros Hdisjoint Hsdsu Hmain Hcam Hu.
  exact (update_registered CP cp cp_cam Hmain Hcam Hdisjoint Hsdsu
           self fv fpf _ Hu k eq_refl).
Qed.

(** X21.  With SMART_DSU set, [get_can_parser] leaves ACC_CONTROL out of
    the main bus; without openpilot longitudinal control, line 189 reads it
    there.  On a vehicle with both, a main frame that holds no message but
    those of its parser makes every call of [update] fail. *)
Theorem stock_long_smart_dsu_fails CP self cp cp_cam fv fpf :
  has_flag (flags CP) ToyotaFlags_SMART_DSU = true ->
  openpilotLongitudinalControl CP = false ->
  carries_only cp (main_messages CP) = true ->
  ("ACC_CONTROL"%string ∉ names (main_messages CP))
  /\ is_Ok (update CP self cp cp_cam fv fpf) = false.
Proof.
  intros Hsd Hlong Honly.
  assert (Hout : "ACC_CONTROL"%string ∉ names (main_messages CP)).
  { unfold names, main_messages. rewrite Hsd, Hlong.
    cbn [negb andb orb].
    destruct (bool_decide (carFingerprint CP <> CAR_MIRAI)),
      (bool_decide (carFingerprint CP ∈ UNSUPPORTED_DSU_CAR)),
      (enableGasInterceptor CP), (enableBsm CP),
      (negb (camera_acc CP) && negb (enableDsu CP)
       && negb (has_flag (flags CP) ToyotaFlags_DISABLE_RADAR)),
      (negb (has_flag (flags CP) ToyotaFlags_RADAR_CAN_FILTER));
      compute_done. }
  split; [exact Hout|].
  destruct (update CP self cp cp_cam fv fpf) as [[self' o]|e] eqn:Hu;
    [|reflexivity].
  exfalso. apply Hout.
  apply update_blocks in Hu as (st & dp & db & cd & cpers & Hst & _).
  apply update_stock_blocks in Hst as (_ & _ & _ & _ & _ & _ & Hhud).
  unfold update_hud_resume in Hhud. rewrite Hlong in Hhud.
  apply bind_Ok in Hhud as (hud & _ & Hhud). cbn [negb] in Hhud.
  apply bind_Ok in Hhud as (resume & Hres & _).
  apply bind_Ok in Hres as (release & Hread & _).
  apply (carries_only_elem cp _ _ Honly).
  unfold vl_sig, vl_msg in Hread.
  destruct (vl cp !! "ACC_CONTROL"%string); [eauto | discriminate].
Qed.

(** X22.  [get_can_parser] never lists a message twice.
    [get_cam_can_parser] does, for ACC_CONTROL, exactly on a camera-ACC
    vehicle without openpilot longitudinal control: the test of line 387
    compares the fingerprint with the two sets themselves, which it never
    equals, so without openpilot longitudinal control ACC_CONTROL is listed
    on the camera bus for every fingerprint, those of TSS2_CAR and
    UNSUPPORTED_DSU_CAR included. *)
Theorem parser_names_distinct CP :
  NoDup (names (main_messages CP))
  /\ (NoDup (names (cam_messages CP)) <->
      ~ (carFingerprint CP ∈ TSS2_CAR ∖ RADAR_ACC_CAR
         /\ openpilotLongitudinalControl CP = false))
  /\ (openpilotLongitudinalControl CP = false ->
      ("ACC_CONTROL"%string, num 33) ∈ cam_messages CP).
Proof.
  split; [|split].
  - unfold names, main_messages.
    generalize (negb (has_flag (flags CP) ToyotaFlags_SMART_DSU)).
    generalize (has_flag (flags CP) ToyotaFlags_SMART_DSU
                && negb (has_flag (flags CP) ToyotaFlags_RADAR_CAN_FILTER)).
    generalize (negb (camera_acc CP) && negb (enableDsu CP)
                && negb (has_flag (flags CP) ToyotaFlags_DISABLE_RADAR)).
    generalize (negb (openpilotLongitudinalControl CP)
                || bool_decide (carFingerprint CP ∈ RADAR_ACC_CAR)
                   && negb (has_flag (flags CP) ToyotaFlags_DISABLE_RADAR)).
    generalize (bool_decide (carFingerprint CP <> CAR_MIRAI)).
    generalize (bool_decide (carFingerprint CP ∈ UNSUPPORTED_DSU_CAR)).
    generalize (enableGasInterceptor CP).
    generalize (enableBsm CP).
    intros [] [] [] [] [] [] [] []; compute_done.
  - unfold names, cam_messages, in_tuple_of_sets, str_eq_set, camera_acc.
    cbn [existsb orb negb]. rewrite andb_true_r.
    destruct (bool_decide (carFingerprint CP ∈ TSS2_CAR ∖ RADAR_ACC_CAR))
      eqn:Hcamera;
      [apply bool_decide_eq_true in Hcamera
      | apply bool_decide_eq_false in Hcamera];
      destruct (openpilotLongitudinalControl CP);
      destruct (bool_decide (carFingerprint CP <> CAR_PRIUS_V));
      cbn [negb app fmap list_fmap fst];
      (split;
       [ intros Hnd [Hin Hl];
         first [ discriminate
               | contradiction
               | exfalso; revert Hnd; compute_done ]
       | intros Hn;
         first [ compute_done
               | exfalso; apply Hn; split; [assumption | reflexivity] ] ]).
  - intros Hlong. unfold cam_messages, in_tuple_of_sets, str_eq_set.
    rewrite Hlong. cbn [existsb orb negb andb].
    rewrite !elem_of_app. right. right. right. apply list_elem_of_here.
Qed.
End Further.

(** * Further sample runs *)

Module FurtherRuns.
Import Sample FurtherSample SampleRuns.
#[local] Open Scope string_scope.
#[local] Open Scope list_scope.

(** A property of every tick, from a test that computes. *)
Lemma Forall_by_test {A : Type} (P : A -> Prop) (f : A -> bool)
    (l : list A) :
  (forall x, f x = true -> P x) -> forallb f l = true -> Forall P l.
Proof.
  intros Hf. induction l as [|x l IH]; intros Hl; [constructor|].
  cbn [forallb] in Hl. apply andb_prop in Hl as [Hx Hl].
  constructor; [exact (Hf x Hx) | exact (IH Hl)].
Qed.

(** Every tick of a run is a call that returned. *)
Lemma ticks_returned `{Imports} CP self ins ts :
  run CP self ins = Ok ts -> Forall (returned_tick CP) ts.
Proof.
  intros Hrun. apply run_session in Hrun as [Hs _].
  exact (session_returned CP self ts Hs).
Qed.

(** No signal at zero: LKA_STATE 0 is a temporary fault and no permanent
    one. *)
Lemma steer_faults_exclusive_witness :
  car.steerFaultTemporary (ret (the_output quiet_tick)) = true
  /\ car.steerFaultPermanent (ret (the_output quiet_tick)) = false.
Proof.
  destruct (steer_faults_exclusive (H := imports) (rav4 0) (fresh (rav4 0))
              (main_bus []) (camera_bus []) (toggles true false) fpf
              (the_state quiet_tick) (the_output quiet_tick))
    as (lka & Hlka & Htemp & Hperm & _);
    [discriminate | apply returned; vm_compute; reflexivity |].
  pose proof (the_eq lka lka _ Hlka) as E.
  rewrite Htemp, Hperm, E. split; vm_compute; reflexivity.
Defined.

(** TURN_SIGNALS at zero: neither blinker. *)
Lemma blinkers_exclusive_witness :
  car.leftBlinker (ret (the_output quiet_tick)) = false
  /\ car.rightBlinker (ret (the_output quiet_tick)) = false.
Proof.
  destruct (blinkers_exclusive (H := imports) (rav4 0) (fresh (rav4 0))
              (main_bus []) (camera_bus []) (toggles true false) fpf
              (the_state quiet_tick) (the_output quiet_tick))
    as (turn & Hturn & Hleft & Hright & _);
    [apply returned; vm_compute; reflexivity |].
  pose proof (the_eq turn turn _ Hturn) as E.
  rewrite Hleft, Hright, E. split; vm_compute; reflexivity.
Defined.

(** The sensors at 800 and 813: the pedal is at 806 and pressed. *)
Lemma gas_interceptor_threshold_witness :
  car.gas (ret (the_output pedal_tick)) = num 806
  /\ car.gasPressed (ret (the_output pedal_tick)) = true.
Proof.
  destruct (gas_interceptor_threshold (H := imports) pedal_car
              (fresh pedal_car) pedal_bus (camera_bus [])
              (toggles true false) fpf
              (the_state pedal_tick) (the_output pedal_tick))
    as (g1 & g2 & H1 & H2 & Hgas & Hpressed);
    [reflexivity | apply returned; vm_compute; reflexivity |].
  pose proof (the_eq g1 g1 _ H1) as E1.
  pose proof (the_eq g2 g2 _ H2) as E2.
  split.
  - rewrite Hgas, E1, E2. apply Qc_is_canon. vm_compute. reflexivity.
  - apply Hpressed. rewrite E1, E2. vm_compute. discriminate.
Defined.

(** The set speed is zero: so is the cluster speed. *)
Lemma cluster_speed_hidden_witness :
  CruiseState.speedCluster (car.cruiseState (ret (the_output quiet_tick)))
  = num 0.
Proof.
  destruct (cluster_speed_hidden (H := imports) (rav4 0) (fresh (rav4 0))
              (main_bus []) (camera_bus []) (toggles true false) fpf
              (the_state quiet_tick) (the_output quiet_tick))
    as (Hzero & _);
    [apply returned; vm_compute; reflexivity |].
  apply Hzero. apply Qc_is_canon. vm_compute. reflexivity.
Defined.

(** The TSS2 car of the sample is in NO_STOP_TIMER_CAR and in TSS2_CAR:
    the first two parts at one tick. *)
Lemma cruise_standstill_exclusive_witness :
  CruiseState.standstill (car.cruiseState (ret (the_output quiet_tick)))
  && CruiseState.nonAdaptive (car.cruiseState (ret (the_output quiet_tick)))
  = false.
Proof.
  destruct (cruise_standstill_exclusive (H := imports) (rav4 0)
              (fresh (rav4 0)) (main_bus []) (camera_bus [])
              (toggles true false) fpf
              (the_state quiet_tick) (the_output quiet_tick))
    as (Hboth & _);
    [apply returned; vm_compute; reflexivity |].
  exact Hboth.
Defined.

(** The torque sensor stays at zero over the three ticks: the flag stays
    down. *)
Lemma accurate_angle_seen_sticky_witness :
  Forall (fun t =>
    accurate_steer_angle_seen (after t) =
      accurate_steer_angle_seen (before t)
      || torque_angle_valid t) (the_ticks edge_run).
Proof.
  destruct (accurate_angle_seen_sticky (H := imports) (rav4 8)
              (fresh (rav4 8)) edge_session (the_ticks edge_run))
    as (Hstep & _);
    [apply ran; vm_compute; reflexivity |].
  exact Hstep.
Defined.

(** No accurate angle is seen over the three ticks: the filter stays as the
    constructor left it. *)
Lemma offset_filter_frozen_witness :
  Forall (fun t => angle_offset (after t) = angle_offset (fresh (rav4 8)))
    (the_ticks edge_run).
Proof.
  apply (offset_filter_frozen (H := imports) (rav4 8) (fresh (rav4 8))
           edge_session (the_ticks edge_run));
    [apply ran; vm_compute; reflexivity |].
  apply (Forall_by_test _
           (fun t => negb (accurate_steer_angle_seen (after t)
                           && inside_envelope t))).
  - intros t Ht. apply negb_true_iff. exact Ht.
  - vm_compute. reflexivity.
Defined.

(** The TSS2 car with SMART_DSU never reads the ACC type. *)
Lemma acc_type_kept_witness :
  Forall (fun t => acc_type (after t) = num 1) (the_ticks dsu_run).
Proof.
  eapply Forall_impl.
  - apply (acc_type_kept (H := imports) (rav4 2) base [quiet; quiet]
             (the_ticks dsu_run));
      [right; right; vm_compute; reflexivity
      | apply ran; vm_compute; reflexivity].
  - intros t [Hacc _]. exact Hacc.
Defined.

(** The counter of the ZSS vehicle over the three ticks. *)
Lemma zss_count_bounded_witness :
  Forall (fun t =>
    (0 <= zss_threshold_count (after t) <= ZSS_THRESHOLD_COUNT)%Z)
    (the_ticks edge_run).
Proof.
  eapply Forall_impl.
  - apply (zss_count_bounded (H := imports) (rav4 8) (fresh (rav4 8))
             edge_session (the_ticks edge_run));
      [apply ran; vm_compute; reflexivity
      | vm_compute; split; discriminate].
  - intros t [Hbound _]. exact Hbound.
Defined.

(** The second tick of the session recomputes the offset, 2 - 1, and
    returns the primary angle. *)
Lemma zss_recompute_neutral_witness :
  zss_angle_offset (after (tick_at 1 edge_run)) = num 1
  /\ car.steeringAngleDeg (ret (output (tick_at 1 edge_run))) = num 1.
Proof.
  assert (Hts : the_ticks edge_run =
                [tick_at 0 edge_run; tick_at 1 edge_run; tick_at 2 edge_run])
    by (apply three_ticks; vm_compute; reflexivity).
  assert (Hrun : edge_run = Ok (the_ticks edge_run))
    by (apply ran; vm_compute; reflexivity).
  rewrite Hts in Hrun.
  pose proof (ticks_returned (rav4 8) (fresh (rav4 8)) edge_session _ Hrun)
    as Hall.
  apply Forall_inv_tail in Hall. apply Forall_inv in Hall.
  destruct (zss_recompute_neutral (H := imports) (rav4 8)
              (tick_at 1 edge_run) Hall)
    as (Hoff & _ & Hangle & _);
    [vm_compute; reflexivity ..|].
  split.
  - rewrite Hoff. apply Qc_is_canon. vm_compute. reflexivity.
  - rewrite Hangle. apply Qc_is_canon. vm_compute. reflexivity.
Defined.

(** After each of the three ticks the cache is what the frame of the tick
    gave. *)
Lemma traffic_cache_is_latest_witness :
  Forall (fun t => traffic_signals (after t) = tick_signs t)
    (the_ticks edge_run).
Proof.
  apply (traffic_cache_is_latest (H := imports) (rav4 8) (fresh (rav4 8))
           edge_session (the_ticks edge_run));
    [apply ran; vm_compute; reflexivity |].
  apply cache_within_signals_init.
Defined.

(** RSA1 alone on the camera bus: the tick fails. *)
Lemma traffic_signals_need_rsa2_witness :
  update_traffic_signals (fresh (rav4 0)) camera_rsa1_only
  = Raise (KeyError "RSA2")
  /\ is_Ok (update (H := imports) (rav4 0) (fresh (rav4 0)) (main_bus [])
              camera_rsa1_only (toggles true false) fpf) = false.
Proof.
  destruct (traffic_signals_need_rsa2 (H := imports) (rav4 0)
              (fresh (rav4 0)) (main_bus []) camera_rsa1_only
              (toggles true false) fpf)
    as (Hkey & Hfail); [vm_compute; reflexivity |].
  split; [|exact Hfail].
  apply (Hkey (list_to_map (zeros signals))). vm_compute. reflexivity.
Defined.

(** Both sign messages without SPDVAL1, mph forced: the tick fails. *)
Lemma speed_limit_needs_value_witness :
  is_Ok (update (H := imports) (rav4 0) (fresh (rav4 0)) (main_bus [])
           camera_no_signs (toggles true true) fpf) = false.
Proof.
  destruct (speed_limit_needs_value (H := imports) (rav4 0)
              (fresh (rav4 0)) (main_bus []) camera_no_signs
              (toggles true true) fpf ∅ ∅)
    as (_ & Hfail); [vm_compute; reflexivity .. |].
  exact Hfail.
Defined.

(** Cruise is off: no call is made and the button state is as before. *)
Lemma cruise_off_inert_witness :
  fpf_calls (the_output quiet_tick) = []
  /\ distance_pressed_counter (the_state quiet_tick) =
     distance_pressed_counter (fresh (rav4 0)).
Proof.
  destruct (cruise_off_inert (H := imports) (rav4 0) (fresh (rav4 0))
              (main_bus []) (camera_bus []) (toggles true false) fpf
              (the_state quiet_tick) (the_output quiet_tick))
    as (Hcalls & _ & Hcounter & _);
    [apply returned; vm_compute; reflexivity
    | vm_compute; reflexivity |].
  split; [exact Hcalls | exact Hcounter].
Defined.

(** Three ticks down and one up: the counter is consistent after each. *)
Lemma distance_counter_tracks_hold_witness :
  Forall (fun t => counter_tracks_hold (after t)) (the_ticks long_run).
Proof.
  eapply Forall_impl.
  - apply (distance_counter_tracks_hold (H := imports) (rav4 0)
             (fresh (rav4 0)) long_press (the_ticks long_run));
      [apply ran; vm_compute; reflexivity |].
    split; [vm_compute; discriminate|].
    intros Hn. exfalso. apply Hn. vm_compute. reflexivity.
  - intros t [Hc _]. exact Hc.
Defined.

(** Fifteen ticks down with a threshold of 3, then a release: two toggles,
    one switch of traffic mode, no cycle. *)
Lemma hold_event_counts_witness :
  count_calls is_toggle (calls_of (the_ticks very_long_run)) = 2%nat
  /\ count_calls is_traffic (calls_of (the_ticks very_long_run)) = 1%nat
  /\ count_calls is_cycle (calls_of (the_ticks very_long_run)) = 0%nat.
Proof.
  pose proof (hold_event_counts (H := imports) (rav4 0) (fresh (rav4 0))
                very_long_press
                (firstn 15 (the_ticks very_long_run))
                (skipn 15 (the_ticks very_long_run))) as Hcounts.
  cbv zeta in Hcounts. rewrite firstn_skipn in Hcounts.
  destruct Hcounts as (Htoggle & Htraffic & Hcycle).
  - vm_compute. reflexivity.
  - apply ran. vm_compute. reflexivity.
  - vm_compute. reflexivity.
  - vm_compute. reflexivity.
  - apply (Forall_by_test _
             (fun t => held (H := imports) (rav4 0) t && lkas_off t
                       && via_distance t
                       && traffic_mode (in_fv (input t)))).
    + intros t Ht.
      apply andb_prop in Ht as [Ht H4]. apply andb_prop in Ht as [Ht H3].
      apply andb_prop in Ht as [H1 H2]. repeat split; assumption.
    + vm_compute. reflexivity.
  - apply (Forall_by_test _
             (fun t => let_go (H := imports) (rav4 0) t && lkas_off t)).
    + intros t Ht. apply andb_prop in Ht as [H1 H2]. split; assumption.
    + vm_compute. reflexivity.
  - split; [rewrite Htoggle; vm_compute; reflexivity|].
    split; [rewrite Htraffic; vm_compute; reflexivity|].
    rewrite Hcycle. vm_compute. reflexivity.
Defined.

(** The LKAS button held over two ticks: one toggle. *)
Lemma lkas_press_fires_once_witness :
  count_calls is_lkas_toggle (calls_of (the_ticks lkas_run)) = 1%nat.
Proof.
  destruct (lkas_press_fires_once (H := imports) (rav4 0) (fresh (rav4 0))
              [given main_on camera_lkas_down lkas_mode;
               given main_on camera_lkas_down lkas_mode]
              (the_ticks lkas_run))
    as (_ & Honce).
  - apply ran. vm_compute. reflexivity.
  - apply (Forall_by_test _
             (fun t => lkas_gate (H := imports) (rav4 0) t
                       && conditional_experimental_mode (in_fv (input t)))).
    + intros t Ht. apply andb_prop in Ht as [H1 H2]. split; assumption.
    + vm_compute. reflexivity.
  - apply Honce.
    + apply (Forall_by_test _ (fun t => lkas_down t)).
      * intros t Ht. exact Ht.
      * vm_compute. reflexivity.
    + vm_compute. reflexivity.
    + intros Hnil. apply (f_equal length) in Hnil.
      revert Hnil. vm_compute. discriminate.
Defined.

(** DISTANCE_LINES at zero: the profile is -1, and differs from the one
    kept. *)
Lemma personality_resync_witness :
  personality_profile (the_state wheel_tick) = num 0 - num 1.
Proof.
  destruct (personality_resync (H := imports) (rav4 0) (fresh (rav4 0))
              main_on (camera_bus []) wheel_mode fpf
              (the_state wheel_tick) (the_output wheel_tick))
    as (lines & Hlines & Hprofile & _);
    [apply returned; vm_compute; reflexivity
    | reflexivity | vm_compute; reflexivity |].
  pose proof (the_eq lines lines _ Hlines) as E.
  rewrite Hprofile, E. apply Qc_is_canon. vm_compute. reflexivity.
Defined.

(** The vehicle in none of the sets, cruise on. *)
Lemma unbound_local_only_unwired_witness :
  distance_wired (H := imports) (corolla 0) = false.
Proof.
  destruct (unbound_local_only_unwired (H := imports) (corolla 0)
              (fresh (corolla 0)) main_on (camera_bus [])
              (toggles true false) fpf "distance_pressed")
    as (_ & Hwired & _); [vm_compute; reflexivity |].
  exact Hwired.
Defined.

(** The tick after two quiet ones, on a camera frame without SPDVAL1 and
    with mph forced. *)
Lemma type_error_only_speed_limit_witness :
  exists cache,
    update_traffic_signals
      (last_state (fresh (rav4 2)) (the_ticks dsu_run)) camera_no_signs
      = Ok cache
    /\ cache_get cache "SPDVAL1" = None
    /\ calculate_speed_limit cache (toggles true true) = Raise TypeError.
Proof.
  apply (type_error_only_speed_limit (H := imports) (rav4 2) base
           [quiet; quiet] (the_ticks dsu_run) (main_bus []) camera_no_signs
           (toggles true true) fpf);
    [apply ran; vm_compute; reflexivity | vm_compute; reflexivity].
Defined.

(** Every registered message is there, the gear message without its
    signal. *)
Lemma registered_messages_suffice_witness :
  missing_signal main_no_gear "GEAR"
  \/ missing_signal (camera_bus []) "GEAR".
Proof.
  apply (registered_messages_suffice (H := imports) (rav4 0)
           (fresh (rav4 0)) main_no_gear (camera_bus [])
           (toggles true false) fpf "GEAR").
  - intros _. compute_done.
  - intros _. reflexivity.
  - vm_compute. reflexivity.
  - vm_compute. reflexivity.
  - vm_compute. reflexivity.
Defined.

(** SMART_DSU with stock longitudinal control: the tick fails on the frame
    of the registered messages. *)
Lemma stock_long_smart_dsu_fails_witness :
  is_Ok (update (H := imports) stock_dsu_car (fresh stock_dsu_car)
           stock_dsu_bus (camera_bus []) (toggles true false) fpf) = false.
Proof.
  destruct (stock_long_smart_dsu_fails (H := imports) stock_dsu_car
              (fresh stock_dsu_car) stock_dsu_bus (camera_bus [])
              (toggles true false) fpf) as (_ & Hfail);
    [vm_compute; reflexivity .. |].
  exact Hfail.
Defined.

End FurtherRuns.
